(** * Obsidian Kindle notes to Zotero: a shallow embedding of
      [obsidian_kindleNotes_to_zotero.py] and the properties of its
      synchronisation core.

    Conventions of the embedding:
    - a Python [str] is the list of its Unicode code points ([pystr]);
    - a value decoded from JSON, or any dynamically typed Python value the
      script handles, is a [pyval]; Python's [None] is [VNone];
    - code that may raise returns an [exc]; code that talks to the network,
      the file system or the console runs in the state monad [M] over a
      [World] that records every such action in its [trace]. *)

From Stdlib Require Import List ZArith NArith Bool Lia String Ascii.
Import ListNotations.

Set Implicit Arguments.
Set Warnings "-register-all,-abstract-large-number".

(* ================================================================== *)
(** ** Python strings *)
(* ================================================================== *)

Module PyStr.

Local Open Scope N_scope.

Definition pystr := list N.

(** A literal of the source, written as a Rocq string of ASCII characters. *)
Definition lit (s : string) : pystr := map N_of_ascii (list_ascii_of_string s).

Fixpoint str_eqb (a b : pystr) : bool :=
  match a, b with
  | [], [] => true
  | x :: a', y :: b' => N.eqb x y && str_eqb a' b'
  | _, _ => false
  end.

(** [str.isspace] of one character: the code points Python treats as
    whitespace, which [str.split()] and [str.strip()] use. *)
Definition is_space (c : N) : bool :=
  ((9 <=? c) && (c <=? 13)) || ((28 <=? c) && (c <=? 32))
  || (c =? 133) || (c =? 160) || (c =? 5760)
  || ((8192 <=? c) && (c <=? 8202))
  || (c =? 8232) || (c =? 8233) || (c =? 8239) || (c =? 8287) || (c =? 12288).

Definition space : N := 32.

(** [s.split()]: the maximal runs of non-whitespace characters. *)
Fixpoint str_split (s : pystr) : list pystr :=
  match s with
  | [] => []
  | c :: s' =>
      if is_space c then str_split s'
      else match s' with
           | [] => [[c]]
           | d :: _ =>
               if is_space d then [c] :: str_split s'
               else match str_split s' with
                    | w :: ws => (c :: w) :: ws
                    | [] => [[c]]
                    end
           end
  end.

(** [sep.join(ws)]. *)
Fixpoint str_join (sep : pystr) (ws : list pystr) : pystr :=
  match ws with
  | [] => []
  | [w] => w
  | w :: ws' => w ++ sep ++ str_join sep ws'
  end.

(** [s.strip()]. *)
Fixpoint lstrip (s : pystr) : pystr :=
  match s with
  | c :: s' => if is_space c then lstrip s' else s
  | [] => []
  end.

Definition strip (s : pystr) : pystr := rev (lstrip (rev (lstrip s))).

Fixpoint starts_with (p s : pystr) : bool :=
  match p, s with
  | [], _ => true
  | x :: p', y :: s' => N.eqb x y && starts_with p' s'
  | _ :: _, [] => false
  end.

(** [p in s] for strings. *)
Fixpoint contains (s p : pystr) : bool :=
  starts_with p s || match s with [] => false | _ :: s' => contains s' p end.

(** What follows the last occurrence of [sep] in [s], if [sep] occurs:
    [s.rsplit(sep, 1)[-1]] is this text, or [s] itself when [sep] is absent. *)
Fixpoint after_last (sep s : pystr) : option pystr :=
  match s with
  | [] => if starts_with sep [] then Some [] else None
  | _ :: s' =>
      match after_last sep s' with
      | Some t => Some t
      | None => if starts_with sep s then Some (skipn (List.length sep) s) else None
      end
  end.

Definition rsplit1_last (sep s : pystr) : pystr :=
  match after_last sep s with Some t => t | None => s end.

(** ASCII case folding, as [str.lower] acts on ASCII text. *)
Definition ascii_lower_cp (c : N) : N :=
  if (65 <=? c) && (c <=? 90) then c + 32 else c.

Definition ascii_lower (s : pystr) : pystr := map ascii_lower_cp s.

(** [string.punctuation + "“”‘’"], the characters [normalize_title] deletes. *)
Definition is_title_punct (c : N) : bool :=
  ((33 <=? c) && (c <=? 47)) || ((58 <=? c) && (c <=? 64))
  || ((91 <=? c) && (c <=? 96)) || ((123 <=? c) && (c <=? 126))
  || (c =? 8220) || (c =? 8221) || (c =? 8216) || (c =? 8217).

(** [s.translate(str.maketrans("", "", string.punctuation + "“”‘’"))]. *)
Definition translate_delete (s : pystr) : pystr :=
  filter (fun c => negb (is_title_punct c)) s.

(** A reading of plain decimal text, used where an example needs an
    instance of [int]: the value of a non-empty run of at most 4300 ASCII
    digits, [None] for any other text.  On the texts it accepts it gives
    the integer that [int] gives. *)
Definition digit_of (c : N) : option Z :=
  if (48 <=? c) && (c <=? 57) then Some (Z.of_N c - 48)%Z else None.

Fixpoint digits_val (acc : Z) (s : pystr) : option Z :=
  match s with
  | [] => Some acc
  | c :: s' =>
      match digit_of c with
      | Some d => digits_val (10 * acc + d)%Z s'
      | None => None
      end
  end.

Definition ascii_int (s : pystr) : option Z :=
  match s with
  | [] => None
  | _ => if (List.length s <=? 4300)%nat then digits_val 0 s else None
  end.

End PyStr.

Import PyStr.

(* ================================================================== *)
(** ** Normalizer (source lines 131-144) *)
(* ================================================================== *)

(** A word as [str.split()] produces them: non-empty, free of whitespace. *)
Definition wordlike (w : pystr) : Prop :=
  w <> [] /\ forallb (fun c => negb (is_space c)) w = true.

Section Normalizer.

(** [str.lower]: Unicode case mapping is a table of the interpreter, not of
    the script; the functions below take it as a parameter. *)
Variable lower : pystr -> pystr.

(** Lines 132-135. *)
Definition normalize_title (s : pystr) : pystr :=
  match s with
  | [] => []
  | _ => str_join [space] (str_split (translate_delete (lower s)))
  end.

(** Lines 137-139. *)
Definition normalize_author (s : pystr) : pystr :=
  match s with
  | [] => []
  | _ => str_join [space] (str_split (lower s))
  end.

(** Lines 141-144, with the module constant [ONLY_TITLES] as an argument. *)
Definition title_matches_filters (only_titles : list pystr) (title : pystr) : bool :=
  match only_titles with
  | [] => true
  | _ => existsb (fun substr => contains (lower title) (lower substr)) only_titles
  end.

End Normalizer.

(* ================================================================== *)
(** ** Fingerprinter (source lines 304-307): UTF-8 and MD5 *)
(* ================================================================== *)

Module Digest.

Local Open Scope Z_scope.

(** [s.encode("utf-8")] on a string without surrogate code points (text read
    from a UTF-8 file has none). *)
Definition utf8_cp (c : N) : list Z :=
  let z := Z.of_N c in
  if z <? 0x80 then [z]
  else if z <? 0x800 then
    [Z.lor 0xC0 (Z.shiftr z 6); Z.lor 0x80 (Z.land z 0x3F)]
  else if z <? 0x10000 then
    [Z.lor 0xE0 (Z.shiftr z 12);
     Z.lor 0x80 (Z.land (Z.shiftr z 6) 0x3F);
     Z.lor 0x80 (Z.land z 0x3F)]
  else
    [Z.lor 0xF0 (Z.shiftr z 18);
     Z.lor 0x80 (Z.land (Z.shiftr z 12) 0x3F);
     Z.lor 0x80 (Z.land (Z.shiftr z 6) 0x3F);
     Z.lor 0x80 (Z.land z 0x3F)].

Definition utf8 (s : pystr) : list Z := flat_map utf8_cp s.

(** 32-bit words as [Z] reduced modulo [2^32]. *)
Definition w32 (x : Z) : Z := x mod 0x100000000.
Definition add32 (x y : Z) : Z := w32 (x + y).
Definition not32 (x : Z) : Z := Z.lxor x 0xFFFFFFFF.
Definition rotl32 (x n : Z) : Z :=
  Z.lor (w32 (Z.shiftl x n)) (Z.shiftr x (32 - n)).

Definition md5_K : list Z :=
  [0xd76aa478; 0xe8c7b756; 0x242070db; 0xc1bdceee;
   0xf57c0faf; 0x4787c62a; 0xa8304613; 0xfd469501;
   0x698098d8; 0x8b44f7af; 0xffff5bb1; 0x895cd7be;
   0x6b901122; 0xfd987193; 0xa679438e; 0x49b40821;
   0xf61e2562; 0xc040b340; 0x265e5a51; 0xe9b6c7aa;
   0xd62f105d; 0x02441453; 0xd8a1e681; 0xe7d3fbc8;
   0x21e1cde6; 0xc33707d6; 0xf4d50d87; 0x455a14ed;
   0xa9e3e905; 0xfcefa3f8; 0x676f02d9; 0x8d2a4c8a;
   0xfffa3942; 0x8771f681; 0x6d9d6122; 0xfde5380c;
   0xa4beea44; 0x4bdecfa9; 0xf6bb4b60; 0xbebfbc70;
   0x289b7ec6; 0xeaa127fa; 0xd4ef3085; 0x04881d05;
   0xd9d4d039; 0xe6db99e5; 0x1fa27cf8; 0xc4ac5665;
   0xf4292244; 0x432aff97; 0xab9423a7; 0xfc93a039;
   0x655b59c3; 0x8f0ccc92; 0xffeff47d; 0x85845dd1;
   0x6fa87e4f; 0xfe2ce6e0; 0xa3014314; 0x4e0811a1;
   0xf7537e82; 0xbd3af235; 0x2ad7d2bb; 0xeb86d391].

Definition md5_S : list Z :=
  [7; 12; 17; 22; 7; 12; 17; 22; 7; 12; 17; 22; 7; 12; 17; 22;
   5; 9; 14; 20; 5; 9; 14; 20; 5; 9; 14; 20; 5; 9; 14; 20;
   4; 11; 16; 23; 4; 11; 16; 23; 4; 11; 16; 23; 4; 11; 16; 23;
   6; 10; 15; 21; 6; 10; 15; 21; 6; 10; 15; 21; 6; 10; 15; 21].

Definition nthz (l : list Z) (i : Z) : Z := nth (Z.to_nat i) l 0.

(** Little-endian word of four bytes. *)
Definition le_word (bs : list Z) : Z :=
  nthz bs 0 + 256 * nthz bs 1 + 65536 * nthz bs 2 + 16777216 * nthz bs 3.

Fixpoint le_words (n : nat) (bs : list Z) : list Z :=
  match n with
  | O => []
  | S n' => le_word bs :: le_words n' (skipn 4 bs)
  end.

Definition le_bytes (n : nat) (x : Z) : list Z :=
  map (fun i => Z.land (Z.shiftr x (8 * Z.of_nat i)) 0xFF) (seq 0 n).

Record md5_state := St { sa : Z; sb : Z; sc : Z; sd : Z }.

Definition md5_round (m : list Z) (st : md5_state) (i : Z) : md5_state :=
  let '(St a b c d) := st in
  let '(f, g) :=
    if i <? 16 then (Z.lor (Z.land b c) (Z.land (not32 b) d), i)
    else if i <? 32 then (Z.lor (Z.land d b) (Z.land (not32 d) c), (5 * i + 1) mod 16)
    else if i <? 48 then (Z.lxor (Z.lxor b c) d, (3 * i + 5) mod 16)
    else (Z.lxor c (Z.lor b (not32 d)), (7 * i) mod 16) in
  let f' := add32 (add32 (add32 f a) (nthz md5_K i)) (nthz m g) in
  St d (add32 b (rotl32 f' (nthz md5_S i))) b c.

Definition md5_block (st : md5_state) (block : list Z) : md5_state :=
  let m := le_words 16 block in
  let st' := fold_left (md5_round m) (map Z.of_nat (seq 0 64)) st in
  St (add32 (sa st) (sa st')) (add32 (sb st) (sb st'))
     (add32 (sc st) (sc st')) (add32 (sd st) (sd st')).

Definition md5_pad (msg : list Z) : list Z :=
  let len := Z.of_nat (List.length msg) in
  let zeros := Z.to_nat ((55 - len) mod 64) in
  msg ++ [0x80] ++ repeat 0 zeros ++ le_bytes 8 ((8 * len) mod 0x10000000000000000).

Fixpoint md5_blocks (n : nat) (st : md5_state) (bs : list Z) : md5_state :=
  match n with
  | O => st
  | S n' => md5_blocks n' (md5_block st (firstn 64 bs)) (skipn 64 bs)
  end.

Definition md5_init : md5_state := St 0x67452301 0xefcdab89 0x98badcfe 0x10325476.

(** [hashlib.md5(msg).digest()]. *)
Definition md5 (msg : list Z) : list Z :=
  let p := md5_pad msg in
  let st := md5_blocks (Nat.div (List.length p) 64) md5_init p in
  le_bytes 4 (sa st) ++ le_bytes 4 (sb st) ++ le_bytes 4 (sc st) ++ le_bytes 4 (sd st).

Definition hex_digit (n : Z) : N :=
  if n <? 10 then Z.to_N (48 + n) else Z.to_N (87 + n).

Definition hex_of_bytes (bs : list Z) : pystr :=
  flat_map (fun b => [hex_digit (Z.shiftr b 4); hex_digit (Z.land b 15)]) bs.

(** [hashlib.md5(msg).hexdigest()]. *)
Definition md5_hexdigest (msg : list Z) : pystr := hex_of_bytes (md5 msg).

End Digest.

Import Digest.

(** A highlight as [parse_kindle_md] builds it (line 165): [text] is a
    non-empty string, [location] and [note] are strings or [None]. *)
Record Highlight := mkHighlight {
  h_text : pystr;
  h_note : option pystr;
  h_location : option pystr
}.

(** [x or ""] for an optional string. *)
Definition or_empty (x : option pystr) : pystr :=
  match x with
  | Some (c :: s) => c :: s
  | _ => []
  end.

Definition bar : N := 124.

(** The text the digest is taken of (line 306). *)
Definition hash_input (h : Highlight) : pystr :=
  h_text h ++ [bar] ++ or_empty (h_note h) ++ [bar] ++ or_empty (h_location h).

(** Lines 304-307. *)
Definition highlight_hash (h : Highlight) : pystr :=
  md5_hexdigest (utf8 (hash_input h)).

(** The triple the specification compares. *)
Definition triple (h : Highlight) : pystr * pystr * pystr :=
  (h_text h, or_empty (h_note h), or_empty (h_location h)).

(** No separator in [s]. *)
Definition bar_free (s : pystr) : bool := forallb (fun c => negb (N.eqb c bar)) s.

(* ================================================================== *)
(** ** Python values, dictionaries and exceptions *)
(* ================================================================== *)

(** A dynamically typed value: what [json.loads] and [Response.json()]
    return ([None], [bool], [int], [str], [list], [dict]), which is also what
    the sent-log holds.  A [dict] keeps its insertion order, as in Python;
    non-integer JSON numbers are not represented. *)
Inductive pyval : Type :=
| VNone
| VBool (b : bool)
| VInt (z : Z)
| VStr (s : pystr)
| VList (l : list pyval)
| VDict (d : list (pystr * pyval)).

Definition pydict := list (pystr * pyval).

(** Truth value of a Python object ([if v:], [v or w], [not v]). *)
Definition truthy (v : pyval) : bool :=
  match v with
  | VNone => false
  | VBool b => b
  | VInt z => negb (Z.eqb z 0)
  | VStr s => match s with [] => false | _ => true end
  | VList l => match l with [] => false | _ => true end
  | VDict d => match d with [] => false | _ => true end
  end.

(** The exceptions the script can meet.  [SystemExit] is what [sys.exit]
    raises; it is not an [Exception], so [except Exception] lets it through. *)
Inductive exn : Type :=
| KeyError | IndexError | TypeError | AttributeError | ValueError
| OSError | ConnectionError | SystemExit.

Definition is_Exception (e : exn) : bool :=
  match e with SystemExit => false | _ => true end.

Inductive exc (A : Type) : Type :=
| Ok (a : A)
| Raise (e : exn).
Arguments Ok {A} a.
Arguments Raise {A} e.

Definition exc_bind {A B} (m : exc A) (f : A -> exc B) : exc B :=
  match m with
  | Ok a => f a
  | Raise e => Raise e
  end.

Declare Scope exc_scope.
Delimit Scope exc_scope with exc.
Notation "x <- m ;; k" := (exc_bind m (fun x => k))
  (at level 100, m at next level, right associativity) : exc_scope.

(** [d.get(k)], telling an absent key from a stored [None]. *)
Fixpoint dict_lookup (d : pydict) (k : pystr) : option pyval :=
  match d with
  | [] => None
  | (k', v) :: d' => if str_eqb k' k then Some v else dict_lookup d' k
  end.

(** [d.get(k, dflt)] and [d.get(k)]. *)
Definition dict_get_default (d : pydict) (k : pystr) (dflt : pyval) : pyval :=
  match dict_lookup d k with Some v => v | None => dflt end.

Definition dict_get (d : pydict) (k : pystr) : pyval := dict_get_default d k VNone.

(** [d[k]]. *)
Definition dict_getitem (d : pydict) (k : pystr) : exc pyval :=
  match dict_lookup d k with Some v => Ok v | None => Raise KeyError end.

(** [d[k] = v]: in place when the key is there, else appended. *)
Fixpoint dict_set (d : pydict) (k : pystr) (v : pyval) : pydict :=
  match d with
  | [] => [(k, v)]
  | (k', v') :: d' => if str_eqb k' k then (k', v) :: d' else (k', v') :: dict_set d' k v
  end.

(** [d.setdefault(k, v)] as a new dictionary. *)
Definition dict_setdefault (d : pydict) (k : pystr) (v : pyval) : pydict :=
  match dict_lookup d k with Some _ => d | None => dict_set d k v end.

(** [{**a, **b}]. *)
Definition dict_merge (a b : pydict) : pydict :=
  fold_left (fun acc kv => dict_set acc (fst kv) (snd kv)) b a.

(** [l[i]] for a non-negative index. *)
Definition list_getitem (l : list pyval) (i : nat) : exc pyval :=
  match nth_error l i with Some v => Ok v | None => Raise IndexError end.

(* ================================================================== *)
(** ** HTTP responses and key extraction (source lines 62-66, 232-249) *)
(* ================================================================== *)

(** What the script reads of a [requests.Response].  [resp_body] is the
    value [.json()] returns, or [None] when [.json()] raises.  Header names
    are matched without regard to case, as [requests] does. *)
Record Response := mkResponse {
  status_code : Z;
  resp_text : pystr;
  resp_headers : list (pystr * pystr);
  resp_body : option pyval
}.

Definition resp_json (r : Response) : exc pyval :=
  match resp_body r with Some v => Ok v | None => Raise ValueError end.

Fixpoint header_get (hs : list (pystr * pystr)) (name : pystr) : option pystr :=
  match hs with
  | [] => None
  | (n, v) :: hs' =>
      if str_eqb (ascii_lower n) (ascii_lower name) then Some v else header_get hs' name
  end.

(** [a or b] for two header look-ups. *)
Definition header_or (a b : option pystr) : option pystr :=
  match a with
  | Some (c :: s) => a
  | _ => b
  end.

(** Lines 62-66. *)
Definition _FakeResp : Response :=
  mkResponse 200 (lit "[DRY RUN] blocked network call") [] (Some (VDict [])).

(** Lines 238-240: the loop over [succ.items()].  [Some k] is [return k];
    [None] is falling out of the loop. *)
Fixpoint successful_loop (items : pydict) : exc (option pyval) :=
  match items with
  | [] => Ok None
  | (_, v) :: rest =>
      match v with
      | VDict vd =>
          if truthy (dict_get vd (lit "key"))
          then (k <- dict_getitem vd (lit "key") ;; Ok (Some k))%exc
          else successful_loop rest
      | VStr _ => if truthy v then Ok (Some v) else successful_loop rest
      | _ => successful_loop rest
      end
  end.

(** Lines 232-249.  The result is the returned object, [VNone] for [None]. *)
Definition extract_created_key (response : Response) : exc pyval :=
  let data := match resp_json response with
              | Ok d => d
              | Raise _ => VNone
              end in
  (r1 <- match data with
         | VDict d =>
             match dict_get d (lit "successful") with
             | VDict succ => successful_loop succ
             | _ => Ok None
             end
         | _ => Ok None
         end ;;
   match r1 with
   | Some k => Ok k
   | None =>
   r2 <- match data with
         | VList l =>
             if truthy data then
               (first <- list_getitem l 0 ;;
                match first with
                | VDict fd =>
                    if truthy (dict_get fd (lit "key"))
                    then (k <- dict_getitem fd (lit "key") ;; Ok (Some k))
                    else
                      match dict_get fd (lit "data") with
                      | VDict dd =>
                          if truthy (dict_get dd (lit "key"))
                          then (k <- dict_getitem dd (lit "key") ;; Ok (Some k))
                          else Ok None
                      | _ => Ok None
                      end
                | _ => Ok None
                end)
             else Ok None
         | _ => Ok None
         end ;;
   match r2 with
   | Some k => Ok k
   | None =>
       let loc := header_or (header_get (resp_headers response) (lit "Location"))
                            (header_get (resp_headers response) (lit "location")) in
       match loc with
       | Some (c :: s) =>
           if contains (c :: s) (lit "/items/")
           then Ok (VStr (strip (rsplit1_last (lit "/items/") (c :: s))))
           else Ok VNone
       | _ => Ok VNone
       end
   end
   end)%exc.

(** The three extraction strategies in the words of the specification, each
    a partial function to a key. *)

(** A key exposed by a dictionary under its ["key"] field. *)
Definition key_field (d : pydict) : option pyval :=
  match dict_lookup d (lit "key") with
  | Some k => if truthy k then Some k else None
  | None => None
  end.

Fixpoint first_match {A B} (f : A -> option B) (l : list A) : option B :=
  match l with
  | [] => None
  | x :: l' => match f x with Some y => Some y | None => first_match f l' end
  end.

(** (a) the structured success map keyed by submission index: its first
    entry that is a record with a key, or a key string itself. *)
Definition strategy_success_map (body : option pyval) : option pyval :=
  match body with
  | Some (VDict d) =>
      match dict_lookup d (lit "successful") with
      | Some (VDict succ) =>
          first_match (fun e => match snd e with
                                | VDict vd => key_field vd
                                | VStr (c :: s) => Some (VStr (c :: s))
                                | _ => None
                                end) succ
      | _ => None
      end
  | _ => None
  end.

(** (b) the first element of a list response, exposing a key field directly
    or nested under a data field. *)
Definition strategy_list_head (body : option pyval) : option pyval :=
  match body with
  | Some (VList (VDict fd :: _)) =>
      match key_field fd with
      | Some k => Some k
      | None =>
          match dict_lookup fd (lit "data") with
          | Some (VDict dd) => key_field dd
          | _ => None
          end
      end
  | _ => None
  end.

(** (c) the location-style header: what follows its last ["/items/"]. *)
Definition strategy_location (hs : list (pystr * pystr)) : option pyval :=
  match header_get hs (lit "location") with
  | Some loc =>
      match after_last (lit "/items/") loc with
      | Some seg => Some (VStr (strip seg))
      | None => None
      end
  | None => None
  end.

Definition first_of_three (a b c : option pyval) : pyval :=
  match a, b, c with
  | Some k, _, _ => k
  | None, Some k, _ => k
  | None, None, Some k => k
  | None, None, None => VNone
  end.

(** Strategy (c) as the description words it: the trailing path segment
    of the location header, that is the text after its last ["/"]; nothing
    when there is no header or it ends in a slash. *)
Definition trailing_path_segment (loc : pystr) : pystr :=
  rsplit1_last (lit "/") loc.

Definition strategy_trailing_segment (hs : list (pystr * pystr)) : option pyval :=
  match header_get hs (lit "location") with
  | Some loc =>
      match trailing_path_segment loc with
      | [] => None
      | seg => Some (VStr seg)
      end
  | None => None
  end.

(* ================================================================== *)
(** ** More of Python's dynamic behaviour *)
(* ================================================================== *)

(** [v.get(...)] needs a dictionary; anything else has no [get]. *)
Definition as_dict (v : pyval) : exc pydict :=
  match v with
  | VDict d => Ok d
  | _ => Raise AttributeError
  end.

(** [for x in v]: the elements of a list, the keys of a dictionary, the
    characters of a string. *)
Definition py_iter (v : pyval) : exc (list pyval) :=
  match v with
  | VList l => Ok l
  | VDict d => Ok (map (fun kv => VStr (fst kv)) d)
  | VStr s => Ok (map (fun c => VStr [c]) s)
  | _ => Raise TypeError
  end.

Definition hashable (v : pyval) : bool :=
  match v with
  | VList _ | VDict _ => false
  | _ => true
  end.

(** [set(v)], kept as the list of its elements. *)
Definition py_set (v : pyval) : exc (list pyval) :=
  match py_iter v with
  | Ok l => if forallb hashable l then Ok l else Raise TypeError
  | Raise e => Raise e
  end.

(** [v == s] for a string [s]. *)
Definition val_is_str (s : pystr) (v : pyval) : bool :=
  match v with
  | VStr s' => str_eqb s' s
  | _ => false
  end.

(** [s in a_set] for a string [s]. *)
Definition set_mem (s : pystr) (elems : list pyval) : bool :=
  existsb (val_is_str s) elems.

(** Python's [==] on these values ([True == 1]; dictionaries compare without
    regard to order). *)
Fixpoint py_eq (a b : pyval) {struct a} : bool :=
  match a, b with
  | VNone, VNone => true
  | VBool x, VBool y => Bool.eqb x y
  | VBool x, VInt y => Z.eqb (Z.b2z x) y
  | VInt x, VBool y => Z.eqb x (Z.b2z y)
  | VInt x, VInt y => Z.eqb x y
  | VStr x, VStr y => str_eqb x y
  | VList x, VList y =>
      (fix go (x y : list pyval) {struct x} : bool :=
         match x, y with
         | [], [] => true
         | u :: x', v :: y' => py_eq u v && go x' y'
         | _, _ => false
         end) x y
  | VDict x, VDict y =>
      Nat.eqb (List.length x) (List.length y) &&
      (fix go (x : pydict) {struct x} : bool :=
         match x with
         | [] => true
         | (k, u) :: x' =>
             match dict_lookup y k with
             | Some v => py_eq u v && go x'
             | None => false
             end
         end) x
  | _, _ => false
  end.

(** [x in v]: membership in a list, key of a dictionary, substring of a
    string. *)
Definition py_in (x v : pyval) : exc bool :=
  match v with
  | VList l => Ok (existsb (py_eq x) l)
  | VDict d => if hashable x then Ok (existsb (fun kv => py_eq x (VStr (fst kv))) d)
               else Raise TypeError
  | VStr s => match x with
              | VStr p => Ok (contains s p)
              | _ => Raise TypeError
              end
  | _ => Raise TypeError
  end.

(** [v is None]. *)
Definition is_none (v : pyval) : bool :=
  match v with VNone => true | _ => false end.

(* ================================================================== *)
(** ** The world the script runs in *)
(* ================================================================== *)

(** A JSON file: absent, present but unreadable or not JSON, or holding a
    value. *)
Inductive file : Type :=
| Missing
| Garbled
| Stored (v : pyval).

(** What the remote store does with one request: answer, or fail so that
    [requests] raises. *)
Inductive reply : Type :=
| Reply (r : Response)
| NetError.

(** The endpoints under [API_BASE]. *)
Inductive url : Type :=
| UCollections
| UItems
| UItem (item_key : pyval).

(** What the user does with the confirmation alert of [confirm_live_or_abort];
    [UiUnavailable] is any failure to show it. *)
Inductive ui_answer : Type :=
| UiSendNow
| UiCancel
| UiUnavailable.

(** The lines the script prints, by the statement that prints them. *)
Inductive message : Type :=
| MBlockedPost (u : url)
| MBlockedPut (u : url)
| MDebugAlert
| MLiveCanceled
| MNoConfirmUI
| MSavedLocalInstead
| MWouldCreateCollection (name : pystr)
| MCollectionFailed (name : pystr) (status : Z)
| MFetchItemFailed (item_key : pyval) (status : Z)
| MWouldAddToCollection (item_key collection_key : pyval)
| MAddToCollectionFailed (status : Z)
| MDebugCreated (r : Response)
| MWouldCreateBook (title : pystr)
| MCreateBookFailed (status : Z)
| MKeyNotRecovered
| MWouldAddNote (note_html : pystr)
| MAddNoteFailed (status : Z)
| MConfig (dry_run : bool)
| MFound (n : nat)
| MNoMarkdown
| MCollectionPending (name : pystr)
| MSkipCompleted (title : pystr)
| MProcessing (title : pystr) (author : option pystr) (n : nat)
| MNoItem (dry_run : bool)
| MSkipDuplicate (text : pystr)
| MNewNotes (created_count : Z)
| MBatchLimit (limit : Z)
| MDone (matched processed : Z).

(** Everything the script does to the outside. *)
Inductive event : Type :=
| EGet (u : url) (params : pydict)
| EPost (u : url) (payload : pyval)
| EPut (u : url) (headers : list (pystr * pystr)) (payload : pyval)
| ESleep (seconds : Z)
| EPrint (m : message)
| EWriteVault (log : pydict)
| EWriteLocal (log : pydict).

Record World := mkWorld {
  net : list reply;          (* the store's answers to the requests to come *)
  ui : ui_answer;
  vault_file : file;         (* <vault>/.sent_highlights.json *)
  local_file : file;         (* .sent_highlights_local.json *)
  vault_writable : bool;
  local_writable : bool;
  sent_log : pydict;         (* the dictionary object [sent_log] / [cache] *)
  trace : list event         (* oldest first *)
}.

Definition M (A : Type) : Type := World -> exc A * World.

Definition ret {A} (a : A) : M A := fun w => (Ok a, w).

Definition bind {A B} (m : M A) (f : A -> M B) : M B :=
  fun w => match m w with
           | (Ok a, w') => f a w'
           | (Raise e, w') => (Raise e, w')
           end.

Definition raise {A} (e : exn) : M A := fun w => (Raise e, w).

Definition lift {A} (x : exc A) : M A := fun w => (x, w).

Declare Scope M_scope.
Delimit Scope M_scope with M.
Notation "x <- m ;; k" := (bind m (fun x => k))
  (at level 100, m at next level, right associativity) : M_scope.
Notation "m ;;; k" := (bind m (fun _ => k))
  (at level 100, right associativity) : M_scope.

Definition emit (e : event) : M unit :=
  fun w => (Ok tt, mkWorld (net w) (ui w) (vault_file w) (local_file w)
                           (vault_writable w) (local_writable w)
                           (sent_log w) (trace w ++ [e])).

Definition print (m : message) : M unit := emit (EPrint m).

Definition get_log : M pydict := fun w => (Ok (sent_log w), w).

Definition put_log (d : pydict) : M unit :=
  fun w => (Ok tt, mkWorld (net w) (ui w) (vault_file w) (local_file w)
                           (vault_writable w) (local_writable w) d (trace w)).

(** The store answers the request just sent. *)
Definition next_reply : M Response :=
  fun w => match net w with
           | Reply r :: rest =>
               (Ok r, mkWorld rest (ui w) (vault_file w) (local_file w)
                              (vault_writable w) (local_writable w)
                              (sent_log w) (trace w))
           | NetError :: rest =>
               (Raise ConnectionError,
                mkWorld rest (ui w) (vault_file w) (local_file w)
                        (vault_writable w) (local_writable w)
                        (sent_log w) (trace w))
           | [] => (Raise ConnectionError, w)
           end.

(** [requests.get], [SESSION.post], [SESSION.put], [time.sleep]. *)
Definition requests_get (u : url) (params : pydict) : M Response :=
  (emit (EGet u params) ;;; next_reply)%M.

Definition session_post (u : url) (payload : pyval) : M Response :=
  (emit (EPost u payload) ;;; next_reply)%M.

Definition session_put (u : url) (headers : list (pystr * pystr)) (payload : pyval)
  : M Response :=
  (emit (EPut u headers payload) ;;; next_reply)%M.

Definition sleep (seconds : Z) : M unit := emit (ESleep seconds).

(* ================================================================== *)
(** ** The script *)
(* ================================================================== *)

(** The run-mode constants of lines 35-40 and 52. *)
Record Config := mkConfig {
  DRY_RUN : bool;
  RESUME_ENABLED : bool;
  ONLY_TITLES : list pystr;
  BATCH_LIMIT : Z;
  COLLECTION_NAME : pystr
}.

(** A parsed note file, as [parse_kindle_md] returns it. *)
Record Document := mkDocument {
  d_title : option pystr;
  d_author : option pystr;
  d_highlights : list Highlight
}.

(** The local variables of the main loop. *)
Record Locals := mkLocals {
  done_set : list pyval;
  processed : Z;
  matched : Z
}.

(** Where the body of the main loop leaves a document: the [continue] of
    line 341, of line 342, of line 350, of line 361, or the end of the body. *)
Inductive doc_exit : Type :=
| NoTitle
| FilteredOut
| SkippedResume
| ParentFailed
| ChildrenProcessed.

Inductive loop_ctl : Type :=
| Continue
| Break.

Section Script.

Variable lower : pystr -> pystr.

(** [int(s)] on a string, [None] when it raises.  Which texts the builtin
    accepts rests on the interpreter's table of decimal digits and on its
    limit on the number of digits, so the script takes it as a parameter,
    as it does [str.lower]. *)
Variable to_int : pystr -> option Z.

Variable cfg : Config.

(* ---------- Safe network helpers (lines 68-78) ---------- *)

Definition safe_post (u : url) (payload : pyval) : M Response :=
  if DRY_RUN cfg
  then (print (MBlockedPost u) ;;; ret _FakeResp)%M
  else session_post u payload.

Definition safe_put (u : url) (headers : list (pystr * pystr)) (payload : pyval)
  : M Response :=
  if DRY_RUN cfg
  then (print (MBlockedPut u) ;;; ret _FakeResp)%M
  else session_put u headers payload.

(* ---------- LIVE confirmation (lines 81-94) ---------- *)

Definition confirm_live_or_abort : M unit :=
  fun w => match ui w with
           | UiSendNow => print MDebugAlert w
           | UiCancel => (print MDebugAlert ;;; print MLiveCanceled ;;; raise SystemExit)%M w
           | UiUnavailable => (print MNoConfirmUI ;;; raise SystemExit)%M w
           end.

(* ---------- Sent-log (lines 102-129) ---------- *)

(** [{**fallback, **data}], which raises unless both are dictionaries. *)
Definition merge_logs (fallback data : pyval) : exc pyval :=
  match fallback, data with
  | VDict f, VDict d => Ok (VDict (dict_merge f d))
  | _, _ => Raise TypeError
  end.

Definition load_sent_log : M pydict :=
  fun w =>
    let data := match vault_file w with
                | Stored v => v
                | Missing | Garbled => VDict []
                end in
    let data := match local_file w with
                | Stored fallback =>
                    match merge_logs fallback data with
                    | Ok merged => merged
                    | Raise _ => data
                    end
                | Missing | Garbled => data
                end in
    match data with
    | VDict d =>
        (Ok (dict_setdefault (dict_setdefault d (lit "_items") (VDict []))
                             (lit "_done_titles") (VList [])), w)
    | _ => (Raise AttributeError, w)
    end.

(** The test file written and removed at lines 123-124 leaves no trace when
    the vault is writable; [vault_writable] says whether the [try] block
    goes through. *)
Definition save_sent_log (log : pydict) : M unit :=
  fun w =>
    if vault_writable w then
      (Ok tt, mkWorld (net w) (ui w) (Stored (VDict log)) (local_file w)
                      (vault_writable w) (local_writable w) (sent_log w)
                      (trace w ++ [EWriteVault log]))
    else if local_writable w then
      (Ok tt, mkWorld (net w) (ui w) (vault_file w) (Stored (VDict log))
                      (vault_writable w) (local_writable w) (sent_log w)
                      (trace w ++ [EWriteLocal log; EPrint MSavedLocalInstead]))
    else (Raise OSError, w).

(* ---------- Normalisation of dynamic values ---------- *)

(** [normalize_title(v)] for whatever a record holds as its title. *)
Definition normalize_title_val (v : pyval) : exc pystr :=
  if truthy v then
    match v with
    | VStr s => Ok (normalize_title lower s)
    | _ => Raise AttributeError
    end
  else Ok [].

Definition normalize_author_opt (author : option pystr) : pystr :=
  match author with
  | Some s => normalize_author lower s
  | None => []
  end.

(* ---------- Zotero: collections (lines 169-202) ---------- *)

Fixpoint collection_loop (name : pystr) (colls : list pyval) : exc (option pyval) :=
  match colls with
  | [] => Ok None
  | coll :: rest =>
      (cd <- as_dict coll ;;
       dd <- as_dict (dict_get_default cd (lit "data") (VDict [])) ;;
       if val_is_str name (dict_get dd (lit "name"))
       then Ok (Some (dict_get cd (lit "key")))
       else collection_loop name rest)%exc
  end.

Definition find_collection (name : pystr) : M (option pyval) :=
  (r <- requests_get UCollections [(lit "q", VStr name); (lit "limit", VInt 100)] ;;
   if Z.eqb (status_code r) 200 then
     body <- lift (resp_json r) ;;
     colls <- lift (py_iter body) ;;
     lift (collection_loop name colls)
   else ret None)%M.

Definition ok_created (status : Z) : bool := Z.eqb status 200 || Z.eqb status 201.

Definition get_or_create_collection (name : pystr) (dry_run : bool) : M pyval :=
  (found <- find_collection name ;;
   match found with
   | Some key => ret key
   | None =>
       if dry_run then print (MWouldCreateCollection name) ;;; ret VNone
       else
         r <- safe_post UCollections
                (VList [VDict [(lit "name", VStr name);
                               (lit "parentCollection", VBool false)]]) ;;
         again <- (if ok_created (status_code r) then find_collection name
                   else ret None) ;;
         match again with
         | Some key => ret key
         | None => print (MCollectionFailed name (status_code r)) ;;; ret VNone
         end
   end)%M.

(** The event records the version guard only; the fixed headers are left
    out. *)
Definition ensure_item_in_collection (item_key collection_key : pyval) (dry_run : bool)
  : M unit :=
  (r <- requests_get (UItem item_key) [] ;;
   if negb (Z.eqb (status_code r) 200)
   then print (MFetchItemFailed item_key (status_code r))
   else
     body <- lift (resp_json r) ;;
     bd <- lift (as_dict body) ;;
     data <- lift (as_dict (dict_get_default bd (lit "data") (VDict []))) ;;
     let version := header_get (resp_headers r) (lit "Last-Modified-Version") in
     let cols0 := dict_get_default data (lit "collections") (VList []) in
     let cols := if truthy cols0 then cols0 else VList [] in
     isin <- lift (py_in collection_key cols) ;;
     if isin then ret tt
     else
       match cols with
       | VList l =>
           let data' := dict_set data (lit "collections") (VList (l ++ [collection_key])) in
           if dry_run then print (MWouldAddToCollection item_key collection_key)
           else
             let headers := match version with
                            | Some (c :: s) => [(lit "If-Unmodified-Since-Version", c :: s)]
                            | _ => []
                            end in
             r2 <- safe_put (UItem item_key) headers (VDict data') ;;
             if Z.eqb (status_code r2) 200 || Z.eqb (status_code r2) 201
                || Z.eqb (status_code r2) 204
             then ret tt
             else print (MAddToCollectionFailed (status_code r2))
       | _ => raise AttributeError
       end)%M.

(* ---------- Zotero: items (lines 205-222, 251-268) ---------- *)

(** The last names of the creators that are authors (lines 219, 265). *)
Fixpoint author_last_names (creators : list pyval) : exc (list pyval) :=
  match creators with
  | [] => Ok []
  | c :: rest =>
      (cd <- as_dict c ;;
       if val_is_str (lit "author") (dict_get cd (lit "creatorType"))
       then (more <- author_last_names rest ;;
             Ok (dict_get_default cd (lit "lastName") (VStr []) :: more))
       else author_last_names rest)%exc
  end.

(** [" ".join(names)], which wants strings. *)
Fixpoint join_names (names : list pyval) : exc (list pystr) :=
  match names with
  | [] => Ok []
  | VStr s :: rest => (more <- join_names rest ;; Ok (s :: more))%exc
  | _ :: _ => Raise TypeError
  end.

(** The loop over the records of a listing, the same at lines 213-221 and
    259-267: [Some key] at the first record whose normalised title is
    [want_title] and whose authors contain [want_author] when one is wanted. *)
Fixpoint match_loop (want_title want_author : pystr) (items : list pyval)
  : exc (option pyval) :=
  match items with
  | [] => Ok None
  | it :: rest =>
      (itd <- as_dict it ;;
       data <- as_dict (dict_get_default itd (lit "data") it) ;;
       let key := dict_get data (lit "key") in
       got_title <- normalize_title_val (dict_get_default data (lit "title") (VStr [])) ;;
       if negb (str_eqb got_title want_title) then match_loop want_title want_author rest
       else
         match want_author with
         | [] => Ok (Some key)
         | _ =>
             creators <- py_iter (dict_get_default data (lit "creators") (VList [])) ;;
             names <- author_last_names creators ;;
             strs <- join_names names ;;
             if negb (contains (normalize_author lower (str_join [space] strs)) want_author)
             then match_loop want_title want_author rest
             else Ok (Some key)
         end)%exc
  end.

(** [cache["_items"][k] = v]. *)
Definition cache_item (k : pystr) (v : pyval) : M unit :=
  (cache <- get_log ;;
   match dict_lookup cache (lit "_items") with
   | Some (VDict items) =>
       put_log (dict_set cache (lit "_items") (VDict (dict_set items k v)))
   | Some _ => raise TypeError
   | None => raise KeyError
   end)%M.

(** Lines 212-222 and 258-268: scan the listing, cache and return a match. *)
Definition match_listing (r : Response) (title : pystr) (author : option pystr)
  : M pyval :=
  (let want_title := normalize_title lower title in
   let want_author := normalize_author_opt author in
   body <- lift (resp_json r) ;;
   items <- lift (py_iter body) ;;
   found <- lift (match_loop want_title want_author items) ;;
   match found with
   | Some key => cache_item want_title key ;;; ret key
   | None => ret VNone
   end)%M.

Definition search_params (title : pystr) : pydict :=
  [(lit "q", VStr title); (lit "qmode", VStr (lit "title"));
   (lit "itemType", VStr (lit "book")); (lit "limit", VInt 25)].

Definition search_item_by_title (title : pystr) (author : option pystr) : M pyval :=
  (let norm_t := normalize_title lower title in
   cache <- get_log ;;
   items <- lift (as_dict (dict_get_default cache (lit "_items") (VDict []))) ;;
   let cached := dict_get items norm_t in
   if truthy cached then ret cached
   else
     r <- requests_get UItems (search_params title) ;;
     if negb (Z.eqb (status_code r) 200) then ret VNone
     else match_listing r title author)%M.

(** Lines 252-253: [max(int(last_mod_version) - 3, 0)], or [None] when
    [int] raises: on [None] (no version header) it raises [TypeError], on
    a string it is [to_int]. *)
Definition since_of (last_mod_version : option pystr) : option Z :=
  match last_mod_version with
  | Some s =>
      match to_int s with
      | Some v => Some (Z.max (v - 3) 0)
      | None => None
      end
  | None => None
  end.

Definition recent_params (since : option Z) : pydict :=
  [(lit "limit", VInt 25); (lit "sort", VStr (lit "dateModified"));
   (lit "direction", VStr (lit "desc"))]
  ++ match since with
     | Some v => [(lit "since", VInt v)]
     | None => []
     end.

Definition fetch_recent_and_match (title : pystr) (author : option pystr)
  (last_mod_version : option pystr) : M pyval :=
  (r <- requests_get UItems (recent_params (since_of last_mod_version)) ;;
   if negb (Z.eqb (status_code r) 200) then ret VNone
   else match_listing r title author)%M.

(** Lines 288-292: the attempts left of [range(3)]. *)
Fixpoint recover_key (attempts : list Z) (title : pystr) (author : option pystr)
  (lmv : option pystr) : M pyval :=
  match attempts with
  | [] => (print MKeyNotRecovered ;;; ret VNone)%M
  | attempt :: rest =>
      (sleep (1 + attempt) ;;;
       key <- fetch_recent_and_match title author lmv ;;
       if truthy key then ret key else recover_key rest title author lmv)%M
  end.

Definition book_payload (title : pystr) (author : option pystr) (collection_key : pyval)
  : pyval :=
  let creators :=
    match author with
    | Some (c :: s) =>
        [VDict [(lit "creatorType", VStr (lit "author"));
                (lit "firstName", VStr []);
                (lit "lastName", VStr (c :: s))]]
    | _ => []
    end in
  let data := [(lit "itemType", VStr (lit "book")); (lit "title", VStr title);
               (lit "creators", VList creators)] in
  let data := if truthy collection_key
              then dict_set data (lit "collections") (VList [collection_key])
              else data in
  VList [VDict data].

(** Lines 270-292. *)
Definition find_or_create_book_item (title : pystr) (author : option pystr)
  (collection_key : pyval) (dry_run : bool) : M pyval :=
  (key <- search_item_by_title title author ;;
   if truthy key then ret key
   else if dry_run then print (MWouldCreateBook title) ;;; ret VNone
   else
     r <- safe_post UItems (book_payload title author collection_key) ;;
     print (MDebugCreated r) ;;;
     if negb (ok_created (status_code r))
     then print (MCreateBookFailed (status_code r)) ;;; ret VNone
     else
       created_key <- lift (extract_created_key r) ;;
       if truthy created_key
       then cache_item (normalize_title lower title) created_key ;;; ret created_key
       else
         let lmv := header_or (header_get (resp_headers r) (lit "Last-Modified-Version"))
                              (header_get (resp_headers r) (lit "Last-Modified")) in
         recover_key [0; 1; 2]%Z title author lmv)%M.

Definition note_payload (item_key : pyval) (note_html : pystr) : pyval :=
  VList [VDict [(lit "itemType", VStr (lit "note")); (lit "parentItem", item_key);
                (lit "note", VStr note_html)]].

(** Lines 294-301.  The function returns [None] on every path. *)
Definition create_note_for_item (item_key : pyval) (note_html : pystr) (dry_run : bool)
  : M unit :=
  if dry_run then print (MWouldAddNote note_html)
  else
    (r <- safe_post UItems (note_payload item_key note_html) ;;
     if negb (ok_created (status_code r))
     then print (MAddNoteFailed (status_code r))
     else ret tt)%M.

(* ---------- Utilities (lines 309-313) ---------- *)

Definition note_html_from_highlight (h : Highlight) : pystr :=
  let html := lit "<blockquote>" ++ h_text h ++ lit "</blockquote>" in
  let html := match h_note h with
              | Some (c :: s) => html ++ lit "<p><em>Note: " ++ (c :: s) ++ lit "</em></p>"
              | _ => html
              end in
  match h_location h with
  | Some (c :: s) => html ++ lit "<p><small>Location: " ++ (c :: s) ++ lit "</small></p>"
  | _ => html
  end.

(* ---------- Main (lines 316-388) ---------- *)

(** [sent_log[title].append(h_id)] and [sent_log["_done_titles"].append(..)]. *)
Definition log_append (k : pystr) (s : pystr) : M unit :=
  (log <- get_log ;;
   match dict_lookup log k with
   | Some (VList l) => put_log (dict_set log k (VList (l ++ [VStr s])))
   | Some _ => raise AttributeError
   | None => raise KeyError
   end)%M.

(** Lines 368-375, with [already] the set built at line 365. *)
Fixpoint highlights_loop (title : pystr) (item_key : pyval) (already : list pyval)
  (highlights : list Highlight) (created_count : Z) : M Z :=
  match highlights with
  | [] => ret created_count
  | h :: rest =>
      let h_id := highlight_hash h in
      if set_mem h_id already
      then (print (MSkipDuplicate (h_text h)) ;;;
            highlights_loop title item_key already rest created_count)%M
      else
        (create_note_for_item item_key (note_html_from_highlight h) (DRY_RUN cfg) ;;;
         if negb (DRY_RUN cfg)
         then log_append title h_id ;;;
              highlights_loop title item_key already rest (created_count + 1)
         else highlights_loop title item_key already rest created_count)%M
  end.

(** Lines 363-382: duplicate prevention, the notes, the commit. *)
Definition process_children (title : pystr) (item_key : pyval)
  (highlights : list Highlight) (st : Locals) : M Locals :=
  (let norm_t := normalize_title lower title in
   log <- get_log ;;
   put_log (dict_setdefault log title (VList [])) ;;;
   log <- get_log ;;
   entry <- lift (dict_getitem log title) ;;
   already <- lift (py_set entry) ;;
   created_count <- highlights_loop title item_key already highlights 0 ;;
   if negb (DRY_RUN cfg) then
     print (MNewNotes created_count) ;;;
     st' <- (if negb (set_mem norm_t (done_set st))
             then log_append (lit "_done_titles") norm_t ;;;
                  ret (mkLocals (VStr norm_t :: done_set st) (processed st) (matched st))
             else ret st) ;;
     log <- get_log ;;
     save_sent_log log ;;;
     ret st'
   else ret st)%M.

(** The body of the loop of line 339 for one document. *)
Definition process_doc (collection_key : pyval) (doc : Document) (st : Locals)
  : M (doc_exit * loop_ctl * Locals) :=
  match d_title doc with
  | None | Some [] => ret (NoTitle, Continue, st)
  | Some title =>
      if negb (title_matches_filters lower (ONLY_TITLES cfg) title)
      then ret (FilteredOut, Continue, st)
      else
        let st := mkLocals (done_set st) (processed st) (matched st + 1) in
        let norm_t := normalize_title lower title in
        if RESUME_ENABLED cfg && negb (DRY_RUN cfg) && set_mem norm_t (done_set st)
        then (print (MSkipCompleted title) ;;; ret (SkippedResume, Continue, st))%M
        else
          (print (MProcessing title (d_author doc) (List.length (d_highlights doc))) ;;;
           item_key <- find_or_create_book_item title (d_author doc) collection_key
                         (DRY_RUN cfg) ;;
           if truthy item_key then
             (if truthy collection_key && negb (DRY_RUN cfg)
              then ensure_item_in_collection item_key collection_key (DRY_RUN cfg)
              else ret tt) ;;;
             st <- process_children title item_key (d_highlights doc) st ;;
             let st := mkLocals (done_set st) (processed st + 1) (matched st) in
             if negb (Z.eqb (BATCH_LIMIT cfg) 0) && Z.leb (BATCH_LIMIT cfg) (processed st)
             then print (MBatchLimit (BATCH_LIMIT cfg)) ;;;
                  ret (ChildrenProcessed, Break, st)
             else ret (ChildrenProcessed, Continue, st)
           else
             print (MNoItem (DRY_RUN cfg)) ;;; ret (ParentFailed, Continue, st))%M
  end.

Fixpoint main_loop (collection_key : pyval) (docs : list Document) (st : Locals)
  : M Locals :=
  match docs with
  | [] => ret st
  | doc :: rest =>
      (res <- process_doc collection_key doc st ;;
       match res with
       | (_, Break, st') => ret st'
       | (_, Continue, st') => main_loop collection_key rest st'
       end)%M
  end.

(** Lines 316-388.  [docs] are the note files in sorted order, parsed; the
    diagnostic lines about the vault path (321-322) are left out. *)
Definition main (docs : list Document) : M unit :=
  (print (MConfig (DRY_RUN cfg)) ;;;
   (if negb (DRY_RUN cfg) then confirm_live_or_abort else ret tt) ;;;
   print (MFound (List.length docs)) ;;;
   match docs with
   | [] => print MNoMarkdown ;;; raise SystemExit
   | _ =>
       collection_key <- get_or_create_collection (COLLECTION_NAME cfg) (DRY_RUN cfg) ;;
       (if DRY_RUN cfg && is_none collection_key
        then print (MCollectionPending (COLLECTION_NAME cfg))
        else ret tt) ;;;
       log <- load_sent_log ;;
       put_log log ;;;
       ds <- lift (py_set (dict_get_default log (lit "_done_titles") (VList []))) ;;
       st <- main_loop collection_key docs (mkLocals ds 0 0) ;;
       print (MDone (matched st) (processed st))
   end)%M.

End Script.

(* ================================================================== *)
(** ** Vocabulary of the statements *)
(* ================================================================== *)

(** The highlights of a document the duplicate check lets through, given
    the set [already]. *)
Definition unsent (already : list pyval) (hs : list Highlight) : list Highlight :=
  filter (fun h => negb (set_mem (highlight_hash h) already)) hs.

(** The payloads of the note-creation calls in a stretch of trace. *)
Fixpoint posted (evs : list event) : list pyval :=
  match evs with
  | [] => []
  | EPost _ payload :: evs' => payload :: posted evs'
  | _ :: evs' => posted evs'
  end.

(** What the highlight loop does in live mode when the store answers the
    calls with [rs], in order. *)
Fixpoint loop_events (item_key : pyval) (already : list pyval)
  (hs : list Highlight) (rs : list Response) : list event :=
  match hs with
  | [] => []
  | h :: hs' =>
      if set_mem (highlight_hash h) already
      then EPrint (MSkipDuplicate (h_text h)) :: loop_events item_key already hs' rs
      else
        match rs with
        | [] => []
        | r :: rs' =>
            EPost UItems (note_payload item_key (note_html_from_highlight h))
            :: (if ok_created (status_code r) then []
                else [EPrint (MAddNoteFailed (status_code r))])
            ++ loop_events item_key already hs' rs'
        end
  end.

(** The fingerprints a journal holds for a title, as the [set(...)] of line
    365 sees them; empty when the title has no entry. *)
Definition sent_before (log : pydict) (title : pystr) : list pyval :=
  match dict_lookup log title with
  | Some v => match py_set v with Ok l => l | Raise _ => [] end
  | None => []
  end.

(** An event that changes something outside the process. *)
Definition mutating (e : event) : bool :=
  match e with
  | EPost _ _ | EPut _ _ _ | EWriteVault _ | EWriteLocal _ => true
  | EGet _ _ | ESleep _ | EPrint _ => false
  end.

(** The journal holds for [title] the fingerprints [l]: no entry and
    [l = []], or the list [l]. *)
Definition journal_entry (log : pydict) (title : pystr) (l : list pyval) : Prop :=
  (dict_lookup log title = None /\ l = []) \/ dict_lookup log title = Some (VList l).

(** The journal after the highlight loop has appended the fingerprints of
    [new] to the entry [l] of [title] (lines 364, 375). *)
Definition log_after_children (log : pydict) (title : pystr) (l : list pyval)
  (new : list Highlight) : pydict :=
  dict_set (dict_setdefault log title (VList [])) title
           (VList (l ++ map (fun h => VStr (highlight_hash h)) new)).

(** The journal after line 381. *)
Definition log_after_done (log : pydict) (norm_t : pystr) (st : Locals) : pydict :=
  if set_mem norm_t (done_set st) then log
  else match dict_lookup log (lit "_done_titles") with
       | Some (VList dl) => dict_set log (lit "_done_titles") (VList (dl ++ [VStr norm_t]))
       | _ => log
       end.

Definition locals_after_done (norm_t : pystr) (st : Locals) : Locals :=
  if set_mem norm_t (done_set st) then st
  else mkLocals (VStr norm_t :: done_set st) (processed st) (matched st).

(** The titles a journal lists as done. *)
Definition done_titles (log : pydict) : list pyval :=
  match dict_lookup log (lit "_done_titles") with
  | Some (VList dl) => dl
  | _ => []
  end.

(** What a journal has cached for a normalised title (line 207). *)
Definition cached_key (log : pydict) (norm_t : pystr) : exc pyval :=
  (items <- as_dict (dict_get_default log (lit "_items") (VDict [])) ;;
   Ok (dict_get items norm_t))%exc.

(** The record a listing answer [r] matches for a title and author by the
    logic of lines 211-221 and 257-267: nothing unless the status is 200. *)
Definition listing_matches (lower : pystr -> pystr) (title : pystr)
  (author : option pystr) (r : Response) : exc (option pyval) :=
  if negb (Z.eqb (status_code r) 200) then Ok None
  else
    (body <- resp_json r ;;
     items <- py_iter body ;;
     match_loop lower (normalize_title lower title)
                (normalize_author_opt lower author) items)%exc.


Definition is_get (e : event) : bool :=
  match e with EGet _ _ => true | _ => false end.

(** A stretch of trace without a write to the store or to a journal file. *)
Definition read_only (evs : list event) : bool :=
  forallb (fun e => negb (mutating e)) evs.

(** The titles of the documents [docs]. *)
Definition titled (docs : list Document) (k : pystr) : Prop :=
  exists doc, In doc docs /\ d_title doc = Some k.

(** [k] is the normalised title of one of the documents [docs] and [v] the
    key that the match of lines 211-221 finds for that document in one of
    the listings among [answers]. *)
Definition found_by_search (lower : pystr -> pystr) (docs : list Document)
  (answers : list reply) (k : pystr) (v : pyval) : Prop :=
  exists doc title r,
    In doc docs /\ d_title doc = Some title /\
    k = normalize_title lower title /\
    In (Reply r) answers /\
    listing_matches lower title (d_author doc) r = Ok (Some v).

(** What may differ between the journal in memory before and after: each
    key holds what it held, or it is one of [titles], had no entry and now
    holds the empty list, or it is [_items], held a dictionary and holds a
    dictionary that differs from it only at keys [t] now bound to a value
    [v] with [found t v]. *)
Definition journal_frame (titles : pystr -> Prop) (found : pystr -> pyval -> Prop)
  (log log' : pydict) : Prop :=
  forall k,
    dict_lookup log' k = dict_lookup log k \/
    (titles k /\ dict_lookup log k = None /\ dict_lookup log' k = Some (VList [])) \/
    (k = lit "_items" /\
     exists items items',
       dict_lookup log k = Some (VDict items) /\
       dict_lookup log' k = Some (VDict items') /\
       forall t, dict_lookup items' t = dict_lookup items t \/
                 exists v, dict_lookup items' t = Some v /\ found t v).

(** The journal files are as before and the trace grew by reads, waits and
    printed lines only. *)
Definition effect_frame (w w' : World) : Prop :=
  vault_file w' = vault_file w /\ local_file w' = local_file w /\
  exists evs, trace w' = trace w ++ evs /\ read_only evs = true.

(** What a simulated run over [docs] may do: the effects are those of
    [effect_frame], the store has given the answers [answers], and the
    journal in memory is as before but for empty lists under titles of
    [docs] and for keys cached under [_items] that the search found in
    [answers]. *)
Definition dry_frame (lower : pystr -> pystr) (docs : list Document)
  (w w' : World) : Prop :=
  effect_frame w w' /\
  exists answers,
    net w = answers ++ net w' /\
    journal_frame (titled docs) (found_by_search lower docs answers)
                  (sent_log w) (sent_log w').

(** A computation all of whose runs relate the world before to the world
    after by [R], whether it returns or raises. *)
Definition preserves (R : World -> World -> Prop) {A} (m : M A) : Prop :=
  forall w res w', m w = (res, w') -> R w w'.

(** A document line 348 skips: it has a title that passes the filter and
    whose normalised form is in the done set. *)
Definition already_done (lower : pystr -> pystr) (cfg : Config) (ds : list pyval)
  (doc : Document) : Prop :=
  exists c s,
    d_title doc = Some (c :: s) /\
    title_matches_filters lower (ONLY_TITLES cfg) (c :: s) = true /\
    set_mem (normalize_title lower (c :: s)) ds = true.

(** The line printed for a skipped document (line 349). *)
Definition skip_line (doc : Document) : event :=
  EPrint (MSkipCompleted (match d_title doc with Some t => t | None => [] end)).

(* ================================================================== *)
(** ** Concrete data for the examples *)
(* ================================================================== *)

Definition cfg_live : Config := mkConfig false true [] 0 (lit "Books").
Definition cfg_dry : Config := mkConfig true true [] 0 (lit "Books").

Definition deep_work : pystr := lit "Deep Work".
Definition cal_newport : pystr := lit "Cal Newport".

Definition focus : Highlight :=
  mkHighlight (lit "Focus is the new IQ") None (Some (lit "120")).

(** The same highlight with an empty note in place of no note. *)
Definition focus_empty_note : Highlight :=
  mkHighlight (lit "Focus is the new IQ") (Some []) (Some (lit "120")).

(** Two highlights that differ in where the separator falls. *)
Definition bar_in_note : Highlight := mkHighlight (lit "a") (Some (lit "b|c")) None.
Definition bar_in_text : Highlight := mkHighlight (lit "a|b") (Some (lit "c")) None.

Definition deep_work_doc : Document :=
  mkDocument (Some deep_work) (Some cal_newport) [focus].

Definition parent_key : pyval := VStr (lit "ABCD2345").

Definition empty_log : pydict :=
  [(lit "_items", VDict []); (lit "_done_titles", VList [])].

Definition no_locals : Locals := mkLocals [] 0 0.

(** An empty listing, and a creation answer that carries no key and no
    version header. *)
Definition empty_listing : Response := mkResponse 200 [] [] (Some (VList [])).

(** A creation answer with an empty object as body and a location header. *)
Definition located (loc : pystr) : Response :=
  mkResponse 201 [] [(lit "Location", loc)] (Some (VDict [])).

(** Listings in which the collection "Books" and the book "Deep Work" are
    found, the latter with the author as the script itself stores it. *)
Definition books_listing : Response :=
  mkResponse 200 [] []
    (Some (VList [VDict [(lit "key", VStr (lit "COLL0001"));
                         (lit "data", VDict [(lit "name", VStr (lit "Books"))])]])).

Definition deep_work_listing : Response :=
  mkResponse 200 [] []
    (Some (VList
       [VDict [(lit "key", parent_key);
               (lit "data",
                VDict [(lit "key", parent_key);
                       (lit "title", VStr (lit "Deep Work"));
                       (lit "creators",
                        VList [VDict [(lit "creatorType", VStr (lit "author"));
                                      (lit "lastName", VStr (lit "Cal Newport"))]])])]])).

(** A creation answer with the key in its success map, and the answer to
    fetching that item. *)
Definition created_with_key : Response :=
  mkResponse 200 [] [(lit "Last-Modified-Version", lit "41")]
    (Some (VDict [(lit "successful",
                   VDict [(lit "0", VDict [(lit "key", parent_key)])])])).

Definition item_answer : Response :=
  mkResponse 200 [] [(lit "Last-Modified-Version", lit "41")]
    (Some (VDict [(lit "key", parent_key);
                  (lit "data", VDict [(lit "key", parent_key);
                                      (lit "collections", VList [])])])).

(** The journal after "Deep Work" has been sent. *)
Definition deep_work_log : pydict :=
  [(lit "_items", VDict [(lit "deep work", parent_key)]);
   (lit "_done_titles", VList [VStr (lit "deep work")]);
   (deep_work, VList [VStr (lit "36bd26dbd9f42c56d176e2704555c7f3")])].

(** A plain answer with a status and an empty JSON object as body. *)
Definition status_only (status : Z) : Response :=
  mkResponse status [] [] (Some (VDict [])).

(** A world with the given answers to come, journal in memory and
    writability of the two journal files. *)
Definition world_of (replies : list reply) (log : pydict) (vault_ok local_ok : bool)
  : World :=
  mkWorld replies UiSendNow Missing Missing vault_ok local_ok log [].

(* ================================================================== *)
(** ** Vocabulary of the further properties *)
(* ================================================================== *)

(** A lower-case hexadecimal digit. *)
Definition is_hex (c : N) : bool :=
  ((48 <=? c)%N && (c <=? 57)%N) || ((97 <=? c)%N && (c <=? 102)%N).

(** What the matching loop reads of one record of a listing: its data
    (the record itself when it has no ["data"] field), the normalised title,
    the key, and the normalised last names of its authors. *)
Definition record_data (it : pyval) : exc pydict :=
  (itd <- as_dict it ;; as_dict (dict_get_default itd (lit "data") it))%exc.

Definition record_title (lower : pystr -> pystr) (it : pyval) : exc pystr :=
  (data <- record_data it ;;
   normalize_title_val lower (dict_get_default data (lit "title") (VStr [])))%exc.

Definition record_key (it : pyval) : exc pyval :=
  (data <- record_data it ;; Ok (dict_get data (lit "key")))%exc.

Definition record_authors (lower : pystr -> pystr) (it : pyval) : exc pystr :=
  (data <- record_data it ;;
   creators <- py_iter (dict_get_default data (lit "creators") (VList [])) ;;
   names <- author_last_names creators ;;
   strs <- join_names names ;;
   Ok (normalize_author lower (str_join [space] strs)))%exc.

(** The trace grew by events that all satisfy [P]; everything else may have
    changed. *)
Definition trace_adds (P : event -> bool) (w w' : World) : Prop :=
  exists evs, trace w' = trace w ++ evs /\ forallb P evs = true.

Definition is_post (e : event) : bool :=
  match e with EPost _ _ => true | _ => false end.

Definition is_put (e : event) : bool :=
  match e with EPut _ _ _ => true | _ => false end.

Definition not_post (e : event) : bool := negb (is_post e).

(** No request at all: neither a read nor a write of the store. *)
Definition offline (e : event) : bool :=
  match e with
  | EGet _ _ | EPost _ _ | EPut _ _ _ => false
  | _ => true
  end.

Definition no_event (e : event) : bool := false.

(** The seconds slept in a stretch of trace. *)
Fixpoint slept (evs : list event) : Z :=
  match evs with
  | [] => 0
  | ESleep s :: evs' => s + slept evs'
  | _ :: evs' => slept evs'
  end.

(** A computation that returns a key caches it: when it returns a truthy
    key, the journal holds that key for the normalised title. *)
Definition caches (lower : pystr -> pystr) (title : pystr) (m : M pyval) : Prop :=
  forall w key w',
    m w = (Ok key, w') -> truthy key = true ->
    cached_key (sent_log w') (normalize_title lower title) = Ok key.

(** The record of "Deep Work" as a listing returns it. *)
Definition deep_work_record : pyval :=
  VDict [(lit "key", parent_key);
         (lit "data",
          VDict [(lit "key", parent_key);
                 (lit "title", VStr (lit "Deep Work"));
                 (lit "creators",
                  VList [VDict [(lit "creatorType", VStr (lit "author"));
                                (lit "lastName", VStr (lit "Cal Newport"))]])])].

(** How many events of a stretch of trace satisfy [Q]. *)
Definition count (Q : event -> bool) (evs : list event) : nat :=
  List.length (filter Q evs).

(** The trace grew by events none of which satisfies [Q]. *)
Definition quiet (Q : event -> bool) : World -> World -> Prop :=
  trace_adds (fun e => negb (Q e)).

(** Every run of [m], returning or raising, adds at most one event that
    satisfies [Q]. *)
Definition at_most_one (Q : event -> bool) {A} (m : M A) : Prop :=
  forall w res w',
    m w = (res, w') ->
    exists evs, trace w' = trace w ++ evs /\ (count Q evs <= 1)%nat.

(** The seconds the attempts of the recovery loop wait in all. *)
Definition backoff_total (attempts : list Z) : Z :=
  fold_right (fun a acc => 1 + a + acc)%Z 0%Z attempts.

(** A journal file that holds no JSON object: absent, unreadable, or JSON of
    another shape. *)
Definition no_object (f : file) : Prop :=
  match f with
  | Stored (VDict _) => False
  | _ => True
  end.

(** The journal has its two fixed entries. *)
Definition has_defaults (log : pydict) : Prop :=
  (exists items, dict_lookup log (lit "_items") = Some items) /\
  (exists dl, dict_lookup log (lit "_done_titles") = Some dl).

(** The answer to fetching an item that is in the collection already. *)
Definition item_in_collection : Response :=
  mkResponse 200 [] [(lit "Last-Modified-Version", lit "41")]
    (Some (VDict [(lit "key", parent_key);
                  (lit "data", VDict [(lit "key", parent_key);
                                      (lit "collections",
                                       VList [VStr (lit "COLL0001")])])])).

(** An older journal in which "Deep Work" has no fingerprint yet. *)
Definition stale_log : pydict :=
  [(lit "_items", VDict []); (lit "_done_titles", VList []); (deep_work, VList [])].

(** A document the loop passes over before counting it: no title, an empty
    title, or a title the filter rejects (lines 341-342). *)
Definition passed_over (lower : pystr -> pystr) (cfg : Config) (doc : Document) : Prop :=
  match d_title doc with
  | None | Some [] => True
  | Some title => title_matches_filters lower (ONLY_TITLES cfg) title = false
  end.

(** Every list the journal holds under a key other than [_items] is still
    there in [log'], possibly longer at its end. *)
Definition grows (log log' : pydict) : Prop :=
  forall k l, k <> lit "_items" ->
    dict_lookup log k = Some (VList l) ->
    exists l', dict_lookup log' k = Some (VList (l ++ l')).

Definition journal_kept (w w' : World) : Prop := grows (sent_log w) (sent_log w').

(** A configuration that processes one document per run and does not
    resume, and a run of it over the same document twice. *)
Definition cfg_one : Config := mkConfig false false [] 1 (lit "Books").

Definition deep_work_twice : list Document :=
  [mkDocument (Some deep_work) (Some cal_newport) [];
   mkDocument (Some deep_work) (Some cal_newport) []].

Definition deep_work_done : Locals := mkLocals [VStr (lit "deep work")] 0 0.

(* ================================================================== *)
(** * Properties *)
(* ================================================================== *)

Lemma str_eqb_eq a b : str_eqb a b = true <-> a = b.
Proof.
  revert b; induction a as [|x a IH]; intros [|y b]; simpl; split; intro H;
    try reflexivity; try discriminate.
  - apply andb_true_iff in H as [H1 H2]. apply N.eqb_eq in H1.
    apply IH in H2. now subst.
  - injection H as -> ->. now rewrite N.eqb_refl, (proj2 (IH b) eq_refl).
Qed.

Lemma str_eqb_refl a : str_eqb a a = true.
Proof. now apply str_eqb_eq. Qed.

Lemma str_eqb_neq a b : str_eqb a b = false <-> a <> b.
Proof.
  split.
  - intros H E. apply str_eqb_eq in E. congruence.
  - intro H. destruct (str_eqb a b) eqn:E; [apply str_eqb_eq in E; contradiction | reflexivity].
Qed.

Lemma split_cons_space c s : is_space c = true -> str_split (c :: s) = str_split s.
Proof. intro H; simpl; now rewrite H. Qed.

Lemma split_wordlike s : Forall wordlike (str_split s).
Proof.
  induction s as [|c s IH]; simpl; [constructor|].
  destruct (is_space c) eqn:Hc; [exact IH|].
  assert (Hone : wordlike [c]) by (split; [discriminate | simpl; now rewrite Hc]).
  destruct s as [|d s']; [constructor; [exact Hone | constructor]|].
  destruct (is_space d) eqn:Hd; [now constructor|].
  destruct (str_split (d :: s')) as [|w ws] eqn:E; [constructor; [exact Hone | constructor]|].
  inversion IH as [|? ? [Hw1 Hw2] Hws]; subst.
  constructor; [|exact Hws].
  split; [discriminate | simpl; now rewrite Hc, Hw2].
Qed.

Lemma split_chars s w c : In w (str_split s) -> In c w -> In c s.
Proof.
  revert w; induction s as [|x s IH]; simpl; intros w Hw Hc; [contradiction|].
  destruct (is_space x); [right; eauto|].
  destruct s as [|d s'].
  - destruct Hw as [<-|[]]. exact Hc.
  - destruct (is_space d).
    + destruct Hw as [<-|Hw]; [destruct Hc as [->|[]]; now left | right; eauto].
    + destruct (str_split (d :: s')) as [|v vs] eqn:E.
      * destruct Hw as [<-|[]]. destruct Hc as [->|[]]. now left.
      * destruct Hw as [<-|Hw].
        -- destruct Hc as [->|Hc]; [now left | right; apply (IH v); [now left | exact Hc]].
        -- right; apply (IH w); [now right | exact Hc].
Qed.

Lemma split_word w : wordlike w -> str_split w = [w].
Proof.
  intros [Hne Hsp]. induction w as [|c w IH]; [congruence|].
  simpl in Hsp. apply andb_true_iff in Hsp as [Hc Hw].
  apply negb_true_iff in Hc. simpl. rewrite Hc.
  destruct w as [|d w']; [reflexivity|].
  assert (Hd : is_space d = false)
    by (simpl in Hw; apply andb_true_iff in Hw as [Hd _]; now apply negb_true_iff in Hd).
  rewrite Hd. now rewrite IH.
Qed.

Lemma split_word_space w rest :
  wordlike w -> str_split (w ++ space :: rest) = w :: str_split rest.
Proof.
  intros [Hne Hsp]. induction w as [|c w IH]; [congruence|].
  simpl in Hsp. apply andb_true_iff in Hsp as [Hc Hw].
  apply negb_true_iff in Hc.
  change ((c :: w) ++ space :: rest) with (c :: (w ++ space :: rest)).
  destruct w as [|d w'].
  - simpl. now rewrite Hc.
  - assert (Hd : is_space d = false)
      by (simpl in Hw; apply andb_true_iff in Hw as [Hd _]; now apply negb_true_iff in Hd).
    assert (IH' := IH ltac:(discriminate) Hw).
    change ((d :: w') ++ space :: rest) with (d :: (w' ++ space :: rest)) in *.
    cbn [str_split]. rewrite Hc, Hd.
    cbn [str_split] in IH'. rewrite Hd in IH'. now rewrite IH'.
Qed.

Lemma split_join ws :
  Forall wordlike ws -> str_split (str_join [space] ws) = ws.
Proof.
  induction 1 as [|w ws Hw Hws IH]; [reflexivity|].
  destruct ws as [|w2 ws'].
  - simpl. now apply split_word.
  - change (str_join [space] (w :: w2 :: ws'))
      with (w ++ space :: str_join [space] (w2 :: ws')).
    rewrite split_word_space by exact Hw. now rewrite IH.
Qed.

Lemma join_chars ws c :
  In c (str_join [space] ws) -> c = space \/ exists w, In w ws /\ In c w.
Proof.
  induction ws as [|w ws IH]; simpl; [contradiction|].
  destruct ws as [|w2 ws'].
  - intro H. right. exists w. auto.
  - intro H. apply in_app_or in H as [H|H].
    + right. exists w. auto.
    + destruct H as [<-|H]; [now left|].
      destruct (IH H) as [->|(v & Hv & Hc)]; [now left|].
      right. exists v. split; [now right | exact Hc].
Qed.

Lemma filter_id {A} (f : A -> bool) l :
  (forall x, In x l -> f x = true) -> filter f l = l.
Proof.
  induction l as [|x l IH]; simpl; intro H; [reflexivity|].
  rewrite (H x (or_introl eq_refl)). f_equal. apply IH. intros y Hy. apply H. now right.
Qed.

Section NormalizerFacts.

Variable lower : pystr -> pystr.

(** What the proof of idempotence needs of [str.lower]: a string made only of
    spaces and of characters that occur in a lower-cased string is left
    unchanged.  (Each character of Python's [s.lower()] is its own lower-case
    form, and so is the space.) *)
Hypothesis lower_stable :
  forall s t, (forall c, In c t -> c = space \/ In c (lower s)) -> lower t = t.

Lemma normalized_chars s c :
  In c (str_join [space] (str_split (translate_delete (lower s)))) ->
  c = space \/ (In c (lower s) /\ is_title_punct c = false).
Proof.
  intro H. apply join_chars in H as [->|(w & Hw & Hc)]; [now left|].
  right. pose proof (split_chars _ _ _ Hw Hc) as Hin.
  apply filter_In in Hin as [Hin Hp]. split; [exact Hin | now apply negb_true_iff].
Qed.

(** C9. Title normalisation is idempotent: normalising an already normalised
    title gives the same string, for every input string. *)
Theorem normalize_title_idempotent (s : pystr) :
  normalize_title lower (normalize_title lower s) = normalize_title lower s.
Proof.
  destruct s as [|c0 s0]; [reflexivity|].
  unfold normalize_title at 2 3.
  set (s := c0 :: s0).
  set (ws := str_split (translate_delete (lower s))).
  destruct (str_join [space] ws) as [|x n1] eqn:E; [reflexivity|].
  unfold normalize_title. rewrite <- E.
  assert (Hl : lower (str_join [space] ws) = str_join [space] ws).
  { apply (lower_stable s). intros c Hc.
    apply normalized_chars in Hc as [->|[Hc _]]; auto. }
  rewrite Hl.
  assert (Ht : translate_delete (str_join [space] ws) = str_join [space] ws).
  { apply filter_id. intros c Hc.
    apply normalized_chars in Hc as [->|[_ Hc]]; [reflexivity | now rewrite Hc]. }
  rewrite Ht. f_equal. apply split_join. apply split_wordlike.
Qed.

End NormalizerFacts.

(** ASCII case folding meets the requirement on [lower]. *)
Lemma ascii_lower_cp_fixed c : ascii_lower_cp (ascii_lower_cp c) = ascii_lower_cp c.
Proof.
  unfold ascii_lower_cp.
  destruct ((65 <=? c)%N && (c <=? 90)%N) eqn:E; [|now rewrite E].
  apply andb_true_iff in E as [E1 E2].
  apply N.leb_le in E1. apply N.leb_le in E2.
  destruct (65 <=? c + 32)%N eqn:F1; simpl; [|reflexivity].
  destruct (c + 32 <=? 90)%N eqn:F2; [|reflexivity].
  apply N.leb_le in F2. lia.
Qed.

Lemma ascii_lower_stable s t :
  (forall c, In c t -> c = space \/ In c (ascii_lower s)) -> ascii_lower t = t.
Proof.
  intro H. unfold ascii_lower. rewrite <- (map_id t) at 2.
  apply map_ext_in. intros c Hc.
  destruct (H c Hc) as [->|Hin]; [reflexivity|].
  unfold ascii_lower in Hin. apply in_map_iff in Hin as (d & <- & _).
  apply ascii_lower_cp_fixed.
Qed.

Lemma normalize_title_idempotent_witness :
  normalize_title ascii_lower (normalize_title ascii_lower (lit "  The  'Deep'  Work! "))
  = normalize_title ascii_lower (lit "  The  'Deep'  Work! ").
Proof. apply (normalize_title_idempotent ascii_lower ascii_lower_stable). Defined.

Example md5_empty : md5_hexdigest [] = lit "d41d8cd98f00b204e9800998ecf8427e".
Proof. vm_compute. reflexivity. Qed.

Example md5_abc : md5_hexdigest (utf8 (lit "abc")) = lit "900150983cd24fb0d6963f7d28e17f72".
Proof. vm_compute. reflexivity. Qed.

Example md5_two_blocks :
  md5_hexdigest (utf8 (lit "12345678901234567890123456789012345678901234567890123456789012345678901234567890"))
  = lit "57edf4a22be3c955ac49da2e2107b67a".
Proof. vm_compute. reflexivity. Qed.

Lemma bar_free_cons x a : bar_free (x :: a) = true -> x <> bar /\ bar_free a = true.
Proof.
  unfold bar_free. simpl. intro H. apply andb_true_iff in H as [H1 H2].
  split; [|exact H2]. apply negb_true_iff in H1. now apply N.eqb_neq.
Qed.

Lemma app_bar_inj (a a' r r' : pystr) :
  bar_free a = true -> bar_free a' = true ->
  a ++ bar :: r = a' ++ bar :: r' -> a = a' /\ r = r'.
Proof.
  revert a'. induction a as [|x a IH]; intros [|y a'] Ha Ha' E; simpl in E.
  - injection E as ->. auto.
  - injection E as E1 _. apply bar_free_cons in Ha' as [Hy _]. congruence.
  - injection E as E1 _. apply bar_free_cons in Ha as [Hx _]. congruence.
  - injection E as -> E.
    apply bar_free_cons in Ha as [_ Ha]. apply bar_free_cons in Ha' as [_ Ha'].
    destruct (IH a') as [-> ->]; auto.
Qed.

(** C8, as the code has it. Highlights with equal (text, note-or-empty,
    location-or-empty) triples have equal fingerprints; and when neither
    the text nor the note of either highlight contains the separator "|",
    the digest inputs text|note|location are equal exactly when the triples
    are. *)
Theorem highlight_hash_triple (h1 h2 : Highlight) :
  (triple h1 = triple h2 -> highlight_hash h1 = highlight_hash h2) /\
  (bar_free (h_text h1) = true -> bar_free (or_empty (h_note h1)) = true ->
   bar_free (h_text h2) = true -> bar_free (or_empty (h_note h2)) = true ->
   (hash_input h1 = hash_input h2 <-> triple h1 = triple h2)).
Proof.
  split.
  - unfold triple, highlight_hash, hash_input. intro E. injection E as -> -> ->.
    reflexivity.
  - intros Ht1 Hn1 Ht2 Hn2. unfold hash_input, triple. split.
    + intro E. simpl in E.
      apply app_bar_inj in E as [-> E]; auto.
      apply app_bar_inj in E as [-> ->]; auto.
    + intro E. injection E as -> -> ->. reflexivity.
Qed.

Lemma highlight_hash_triple_witness :
  highlight_hash focus = highlight_hash focus_empty_note /\
  (hash_input focus = hash_input focus_empty_note <-> triple focus = triple focus_empty_note).
Proof.
  destruct (highlight_hash_triple focus focus_empty_note) as [H1 H2].
  split; [apply H1; reflexivity | apply H2; reflexivity].
Defined.

(** C8 as stated fails from left to right: the separator may occur in a
    field, so two highlights with different triples can share the digest
    input, and with it the fingerprint. *)
Lemma fingerprint_separator_collision :
  highlight_hash bar_in_note = highlight_hash bar_in_text /\
  triple bar_in_note <> triple bar_in_text.
Proof. split; [reflexivity | discriminate]. Qed.

(* ------------------------------------------------------------------ *)
(** ** Key extraction *)
(* ------------------------------------------------------------------ *)

Lemma key_field_truthy d :
  truthy (dict_get d (lit "key")) = true ->
  exists k, dict_getitem d (lit "key") = Ok k /\ key_field d = Some k.
Proof.
  unfold dict_get, dict_get_default, dict_getitem, key_field.
  destruct (dict_lookup d (lit "key")) as [k|]; simpl; [|discriminate].
  intro H. exists k. now rewrite H.
Qed.

Lemma key_field_falsy d :
  truthy (dict_get d (lit "key")) = false -> key_field d = None.
Proof.
  unfold dict_get, dict_get_default, key_field.
  destruct (dict_lookup d (lit "key")) as [k|]; simpl; [|reflexivity].
  now intros ->.
Qed.

Lemma successful_loop_first_match succ :
  successful_loop succ =
  Ok (first_match (fun e => match snd e with
                            | VDict vd => key_field vd
                            | VStr (c :: s) => Some (VStr (c :: s))
                            | _ => None
                            end) succ).
Proof.
  induction succ as [|[k v] rest IH]; [reflexivity|].
  cbn [successful_loop first_match snd].
  destruct v as [| | |s|l|vd]; try exact IH.
  - destruct s; simpl; [exact IH | reflexivity].
  - destruct (truthy (dict_get vd (lit "key"))) eqn:T.
    + destruct (key_field_truthy _ T) as (k' & -> & ->). reflexivity.
    + rewrite (key_field_falsy _ T). exact IH.
Qed.

Lemma header_get_case hs :
  header_get hs (lit "Location") = header_get hs (lit "location").
Proof. induction hs as [|[n v] hs IH]; [reflexivity|]. simpl. now rewrite IH. Qed.

Lemma header_or_same a : header_or a a = a.
Proof. destruct a as [[|c s]|]; reflexivity. Qed.

Lemma contains_after_last sep s :
  contains s sep = match after_last sep s with Some _ => true | None => false end.
Proof.
  induction s as [|c s IH].
  - simpl. destruct (starts_with sep []); reflexivity.
  - cbn [contains after_last]. rewrite IH.
    destruct (after_last sep s); [now rewrite orb_true_r|].
    rewrite orb_false_r. destruct (starts_with sep (c :: s)); reflexivity.
Qed.







(** C4, as the code has it. Key extraction is total and is the prioritised
    choice among three strategies: (a) the success map, (b) the head of a
    list response with its key field or the one under its data field, (c)
    the location header, when it holds "/items/", cut after the last
    "/items/" and stripped of surrounding whitespace, which may leave the
    empty string; it never raises, and returns [None] when all three find
    nothing. *)
Theorem extract_created_key_strategies (r : Response) :
  extract_created_key r =
  Ok (first_of_three (strategy_success_map (resp_body r))
                     (strategy_list_head (resp_body r))
                     (strategy_location (resp_headers r))).
Proof.
  assert (Hc :
    (let loc := header_or (header_get (resp_headers r) (lit "Location"))
                          (header_get (resp_headers r) (lit "location")) in
     match loc with
     | Some (c :: s) =>
         if contains (c :: s) (lit "/items/")
         then @Ok pyval (VStr (strip (rsplit1_last (lit "/items/") (c :: s))))
         else Ok VNone
     | _ => Ok VNone
     end) = Ok (first_of_three None None (strategy_location (resp_headers r)))).
  { cbv zeta. rewrite header_get_case, header_or_same.
    unfold strategy_location, first_of_three.
    destruct (header_get (resp_headers r) (lit "location")) as [[|c s]|];
      [reflexivity| |reflexivity].
    rewrite contains_after_last. unfold rsplit1_last.
    destruct (after_last (lit "/items/") (c :: s)); reflexivity. }
  cbv zeta in Hc.
  unfold extract_created_key, resp_json.
  destruct (resp_body r) as [data|]; [|exact Hc].
  destruct data as [| | | |l|d]; try exact Hc.
  - (* a list *)
    cbn [exc_bind strategy_success_map].
    destruct l as [|first l']; [exact Hc|].
    cbn [truthy list_getitem nth_error exc_bind strategy_list_head].
    destruct first as [| | | | |fd]; try exact Hc.
    destruct (truthy (dict_get fd (lit "key"))) eqn:T.
    + destruct (key_field_truthy _ T) as (k & -> & ->). reflexivity.
    + rewrite (key_field_falsy _ T).
      unfold dict_get at 1, dict_get_default.
      destruct (dict_lookup fd (lit "data")) as [[| | | | |dd]|]; try exact Hc.
      destruct (truthy (dict_get dd (lit "key"))) eqn:T2.
      * destruct (key_field_truthy _ T2) as (k & -> & ->). reflexivity.
      * rewrite (key_field_falsy _ T2). exact Hc.
  - (* a dictionary *)
    cbn [strategy_success_map strategy_list_head].
    unfold dict_get at 1, dict_get_default.
    destruct (dict_lookup d (lit "successful")) as [[| | | | |succ]|]; try exact Hc.
    rewrite successful_loop_first_match. cbn [exc_bind].
    match goal with |- context [first_match ?f succ] =>
      destruct (first_match f succ) as [k|] end; [reflexivity | exact Hc].
Qed.

(** C4 as stated fails on strategy (c): the code does not take the trailing
    path segment of the location header but what follows its last
    "/items/".  A header ending in "/items/AB/CD" gives "AB/CD", not "CD"; a
    header without "/items/" gives nothing, whatever its trailing segment;
    and a header that ends in "/items/" gives the empty string, which is
    neither a key nor [None]. *)
Lemma location_is_not_trailing_segment :
  let nested := located (lit "https://api.zotero.org/users/1/items/AB/CD") in
  let other := located (lit "https://api.zotero.org/users/1/collections/ABCD2345") in
  let bare := located (lit "https://api.zotero.org/users/1/items/") in
  extract_created_key nested = Ok (VStr (lit "AB/CD")) /\
  strategy_trailing_segment (resp_headers nested) = Some (VStr (lit "CD")) /\
  extract_created_key other = Ok VNone /\
  strategy_trailing_segment (resp_headers other) = Some (VStr (lit "ABCD2345")) /\
  extract_created_key bare = Ok (VStr []) /\
  strategy_trailing_segment (resp_headers bare) = None /\
  extract_created_key nested <>
    Ok (first_of_three (strategy_success_map (resp_body nested))
                       (strategy_list_head (resp_body nested))
                       (strategy_trailing_segment (resp_headers nested))).
Proof. vm_compute. repeat split; try reflexivity. discriminate. Qed.

(* ------------------------------------------------------------------ *)
(** ** Dictionaries *)
(* ------------------------------------------------------------------ *)

Lemma dict_lookup_set_same d k v : dict_lookup (dict_set d k v) k = Some v.
Proof.
  induction d as [|[k' v'] d IH]; simpl.
  - now rewrite str_eqb_refl.
  - destruct (str_eqb k' k) eqn:E; simpl; rewrite E; [reflexivity | exact IH].
Qed.

Lemma dict_lookup_set_other d k k' v :
  k <> k' -> dict_lookup (dict_set d k v) k' = dict_lookup d k'.
Proof.
  intro Hne. induction d as [|[k0 v0] d IH]; simpl.
  - destruct (str_eqb k k') eqn:E; [apply str_eqb_eq in E; contradiction | reflexivity].
  - destruct (str_eqb k0 k) eqn:E; simpl.
    + apply str_eqb_eq in E. subst k0.
      destruct (str_eqb k k') eqn:E'; [apply str_eqb_eq in E'; contradiction | reflexivity].
    + destruct (str_eqb k0 k'); [reflexivity | exact IH].
Qed.

Lemma dict_set_set d k v1 v2 : dict_set (dict_set d k v1) k v2 = dict_set d k v2.
Proof.
  induction d as [|[k' v'] d IH]; simpl.
  - now rewrite str_eqb_refl.
  - destruct (str_eqb k' k) eqn:E; simpl; rewrite E; [reflexivity | now rewrite IH].
Qed.

Lemma dict_set_id d k v : dict_lookup d k = Some v -> dict_set d k v = d.
Proof.
  induction d as [|[k' v'] d IH]; simpl; [discriminate|].
  destruct (str_eqb k' k) eqn:E.
  - intro H. injection H as ->. reflexivity.
  - intro H. now rewrite IH.
Qed.

Lemma dict_lookup_absent d k : ~ In k (map fst d) -> dict_lookup d k = None.
Proof.
  induction d as [|[k' v'] d IH]; simpl; [reflexivity|].
  intro H. destruct (str_eqb k' k) eqn:E.
  - apply str_eqb_eq in E. exfalso. apply H. now left.
  - apply IH. intro Hin. apply H. now right.
Qed.

Lemma pystr_eq_dec (a b : pystr) : {a = b} + {a <> b}.
Proof. apply list_eq_dec. apply N.eq_dec. Defined.

(** [{**a, **b}]: the entries of [b] win. *)
Lemma dict_lookup_merge a b k :
  NoDup (map fst b) ->
  dict_lookup (dict_merge a b) k =
  match dict_lookup b k with
  | Some v => Some v
  | None => dict_lookup a k
  end.
Proof.
  unfold dict_merge. revert a.
  induction b as [|[k' v'] b IH]; intros a Hnd; simpl; [reflexivity|].
  inversion Hnd as [|? ? Hnotin Hnd']; subst.
  rewrite IH by exact Hnd'. simpl.
  destruct (str_eqb k' k) eqn:E.
  - apply str_eqb_eq in E. subst k'.
    rewrite (dict_lookup_absent _ _ Hnotin). apply dict_lookup_set_same.
  - destruct (dict_lookup b k); [reflexivity|].
    apply dict_lookup_set_other. now apply str_eqb_neq.
Qed.

(* ------------------------------------------------------------------ *)
(** ** The highlight loop in live mode *)
(* ------------------------------------------------------------------ *)

Section LiveLoop.

Variable lower : pystr -> pystr.
Variable to_int : pystr -> option Z.
Variable cfg : Config.
Hypothesis live : DRY_RUN cfg = false.

Lemma safe_post_live u payload w :
  safe_post cfg u payload w = session_post u payload w.
Proof. unfold safe_post. now rewrite live. Qed.

(** One note in live mode, answered by [r]: the call is made, a failure
    status is printed, nothing is returned to the caller. *)
Lemma create_note_live item_key html r rest w :
  net w = Reply r :: rest ->
  create_note_for_item cfg item_key html false w =
  (Ok tt, mkWorld rest (ui w) (vault_file w) (local_file w)
                  (vault_writable w) (local_writable w) (sent_log w)
                  (trace w ++ EPost UItems (note_payload item_key html)
                     :: (if ok_created (status_code r) then []
                         else [EPrint (MAddNoteFailed (status_code r))]))).
Proof.
  intro Hnet. unfold create_note_for_item, bind. rewrite safe_post_live.
  unfold session_post, bind, emit, next_reply. simpl. rewrite Hnet.
  destruct (ok_created (status_code r)); simpl.
  - reflexivity.
  - unfold print, emit. simpl. now rewrite <- app_assoc.
Qed.

Lemma highlights_loop_live title item_key already hs :
  forall rs rest l cc w,
    List.length rs = List.length (unsent already hs) ->
    net w = map Reply rs ++ rest ->
    dict_lookup (sent_log w) title = Some (VList l) ->
    highlights_loop cfg title item_key already hs cc w =
    (Ok (cc + Z.of_nat (List.length rs))%Z,
     mkWorld rest (ui w) (vault_file w) (local_file w)
             (vault_writable w) (local_writable w)
             (dict_set (sent_log w) title
                (VList (l ++ map (fun h => VStr (highlight_hash h)) (unsent already hs))))
             (trace w ++ loop_events item_key already hs rs)).
Proof.
  induction hs as [|h hs IH]; intros rs rest l cc w Hlen Hnet Hlog.
  - destruct rs; [|discriminate]. simpl in *. unfold ret.
    rewrite !app_nil_r, Z.add_0_r, (dict_set_id _ _ Hlog).
    destruct w; simpl in *; now subst.
  - cbn [highlights_loop unsent filter loop_events] in *.
    destruct (set_mem (highlight_hash h) already) eqn:Hmem; cbn [negb] in *.
    + unfold bind at 1. unfold print, emit.
      rewrite (IH rs rest l cc) by (simpl; assumption). simpl.
      now rewrite <- app_assoc.
    + destruct rs as [|r rs]; [discriminate|].
      rewrite live. cbn [negb]. unfold bind at 1.
      rewrite create_note_live with (r := r) (rest := map Reply rs ++ rest) by exact Hnet.
      unfold bind at 1. unfold log_append, bind, get_log, put_log.
      cbn [sent_log]. rewrite Hlog.
      rewrite (IH rs rest (l ++ [VStr (highlight_hash h)]) (cc + 1)%Z);
        [| simpl in Hlen; now injection Hlen | reflexivity
         | cbn [sent_log]; apply dict_lookup_set_same].
      cbn [net ui vault_file local_file vault_writable local_writable sent_log trace].
      rewrite dict_set_set, <- !app_assoc. cbn [map List.length app].
      replace (cc + Z.of_nat (S (List.length rs)))%Z
        with (cc + 1 + Z.of_nat (List.length rs))%Z by lia.
      reflexivity.
Qed.

Lemma journal_entry_setdefault log title l :
  journal_entry log title l ->
  dict_lookup (dict_setdefault log title (VList [])) title = Some (VList l).
Proof.
  unfold dict_setdefault. intros [[H ->]|H]; rewrite H; [apply dict_lookup_set_same | exact H].
Qed.

Lemma py_set_hashable l : forallb hashable l = true -> py_set (VList l) = Ok l.
Proof. unfold py_set. simpl. now intros ->. Qed.

(** Lines 363-382 in live mode, when the store answers every note call:
    the loop, the count, the mark, and then whatever [save_sent_log] does. *)
Lemma process_children_live title item_key hs st rs rest l w :
  journal_entry (sent_log w) title l ->
  forallb hashable l = true ->
  List.length rs = List.length (unsent l hs) ->
  net w = map Reply rs ++ rest ->
  (exists dl, dict_lookup (sent_log w) (lit "_done_titles") = Some (VList dl)) ->
  let norm_t := normalize_title lower title in
  let log2 := log_after_children (sent_log w) title l (unsent l hs) in
  let log3 := log_after_done log2 norm_t st in
  let w3 := mkWorld rest (ui w) (vault_file w) (local_file w)
                    (vault_writable w) (local_writable w) log3
                    (trace w ++ loop_events item_key l hs rs
                       ++ [EPrint (MNewNotes (Z.of_nat (List.length rs)))]) in
  process_children lower cfg title item_key hs st w =
  (save_sent_log log3 ;;; ret (locals_after_done norm_t st))%M w3.
Proof.
  intros Hentry Hhash Hlen Hnet [dl Hdone] norm_t log2 log3 w3.
  subst w3 log3.
  pose proof (journal_entry_setdefault Hentry) as Hl.
  unfold process_children.
  unfold bind at 1. unfold get_log at 1.
  unfold bind at 1. unfold put_log at 1.
  unfold bind at 1. unfold get_log at 1. cbn [sent_log].
  unfold bind at 1. unfold lift at 1, dict_getitem. rewrite Hl.
  unfold bind at 1. unfold lift at 1. rewrite (py_set_hashable _ Hhash).
  unfold bind at 1.
  rewrite highlights_loop_live with (rs := rs) (rest := rest) (l := l);
    [| exact Hlen | exact Hnet | exact Hl].
  rewrite live. cbn [negb].
  unfold bind at 1. unfold print at 1, emit at 1.
  cbn [net ui vault_file local_file vault_writable local_writable sent_log trace].
  fold (log_after_children (sent_log w) title l (unsent l hs)). fold log2.
  rewrite Z.add_0_l, <- app_assoc.
  assert (Hd2 : exists dl2, dict_lookup log2 (lit "_done_titles") = Some (VList dl2)).
  { unfold log2, log_after_children.
    destruct (pystr_eq_dec title (lit "_done_titles")) as [->|Hne].
    - eexists. apply dict_lookup_set_same.
    - rewrite dict_lookup_set_other by exact Hne.
      unfold dict_setdefault. destruct (dict_lookup (sent_log w) title); eauto.
      rewrite dict_lookup_set_other by exact Hne. eauto. }
  destruct Hd2 as [dl2 Hd2].
  unfold log_after_done, locals_after_done. fold norm_t.
  destruct (set_mem norm_t (done_set st)); cbn [negb].
  - unfold bind at 1. unfold ret at 1.
    unfold bind at 1. unfold get_log at 1. cbn [sent_log]. reflexivity.
  - unfold bind at 1. unfold bind at 1.
    unfold log_append, bind, get_log, put_log. cbn [sent_log].
    rewrite Hd2. cbn [ret]. reflexivity.
Qed.

End LiveLoop.

Lemma posted_app evs1 evs2 : posted (evs1 ++ evs2) = posted evs1 ++ posted evs2.
Proof.
  induction evs1 as [|e evs1 IH]; [reflexivity|].
  destruct e; simpl; now rewrite ?IH.
Qed.

Lemma posted_loop_events item_key already hs :
  forall rs,
    List.length rs = List.length (unsent already hs) ->
    posted (loop_events item_key already hs rs) =
    map (fun h => note_payload item_key (note_html_from_highlight h)) (unsent already hs).
Proof.
  induction hs as [|h hs IH]; intros rs Hlen; [reflexivity|].
  cbn [loop_events unsent filter] in *.
  destruct (set_mem (highlight_hash h) already); cbn [negb] in *.
  - simpl. now apply IH.
  - destruct rs as [|r rs]; [discriminate|].
    cbn [posted map]. rewrite posted_app.
    replace (posted (if ok_created (status_code r) then []
                     else [EPrint (MAddNoteFailed (status_code r))])) with (@nil pyval)
      by (destruct (ok_created (status_code r)); reflexivity).
    simpl. f_equal. apply IH. simpl in Hlen. now injection Hlen.
Qed.

Lemma save_sent_log_trace log w :
  exists evs, trace (snd (save_sent_log log w)) = trace w ++ evs /\ posted evs = [].
Proof.
  unfold save_sent_log.
  destruct (vault_writable w); [eexists; split; [reflexivity|reflexivity]|].
  destruct (local_writable w); [eexists; split; [reflexivity|reflexivity]|].
  exists []. now rewrite app_nil_r.
Qed.

(** C10. Within one document of a live run the duplicate check consults
    the fingerprints the journal held for the title before the loop
    ([l]), never the ones sent meanwhile: when the store answers every note
    call, the calls made are, in order, one for each highlight whose
    fingerprint is not in [l], so equal highlights new to the journal are
    each sent. *)
Theorem duplicate_check_uses_snapshot
  (lower : pystr -> pystr) (cfg : Config) (title : pystr) (item_key : pyval)
  (hs : list Highlight) (st : Locals) (rs : list Response) (rest : list reply)
  (l : list pyval) (w : World) :
  DRY_RUN cfg = false ->
  journal_entry (sent_log w) title l ->
  forallb hashable l = true ->
  List.length rs = List.length (unsent l hs) ->
  net w = map Reply rs ++ rest ->
  (exists dl, dict_lookup (sent_log w) (lit "_done_titles") = Some (VList dl)) ->
  exists res w' evs,
    process_children lower cfg title item_key hs st w = (res, w') /\
    trace w' = trace w ++ evs /\
    posted evs =
      map (fun h => note_payload item_key (note_html_from_highlight h))
          (filter (fun h => negb (set_mem (highlight_hash h) l)) hs).
Proof.
  intros live Hentry Hhash Hlen Hnet Hdone.
  rewrite process_children_live with (rs := rs) (rest := rest) (l := l) by assumption.
  unfold bind.
  match goal with |- context [save_sent_log ?lg ?w3] =>
    destruct (save_sent_log_trace lg w3) as (evs & Htr & Hp);
    destruct (save_sent_log lg w3) as [[[]|e] w4] eqn:E
  end; cbn [snd trace] in Htr.
  - eexists _, _, _. split; [reflexivity|]. unfold ret. cbn [snd].
    rewrite Htr, <- !app_assoc. split; [reflexivity|].
    rewrite !posted_app, Hp, posted_loop_events by exact Hlen.
    simpl. now rewrite app_nil_r.
  - eexists _, _, _. split; [reflexivity|].
    rewrite Htr, <- !app_assoc. split; [reflexivity|].
    rewrite !posted_app, Hp, posted_loop_events by exact Hlen.
    simpl. now rewrite app_nil_r.
Qed.

Lemma duplicate_check_uses_snapshot_witness :
  exists res w' evs,
    process_children ascii_lower cfg_live deep_work parent_key [focus; focus] no_locals
      (world_of [Reply (status_only 200); Reply (status_only 200)] empty_log true true)
    = (res, w') /\
    trace w' = [] ++ evs /\
    posted evs =
      [note_payload parent_key (note_html_from_highlight focus);
       note_payload parent_key (note_html_from_highlight focus)].
Proof.
  apply (@duplicate_check_uses_snapshot ascii_lower cfg_live deep_work parent_key
           [focus; focus] no_locals [status_only 200; status_only 200] [] []
           (world_of [Reply (status_only 200); Reply (status_only 200)] empty_log true true)).
  - reflexivity.
  - left. split; reflexivity.
  - reflexivity.
  - reflexivity.
  - reflexivity.
  - eexists. reflexivity.
Defined.

(* ------------------------------------------------------------------ *)
(** ** The journal after a document *)
(* ------------------------------------------------------------------ *)

Lemma lookup_log_after_children log title l new :
  dict_lookup (log_after_children log title l new) title
  = Some (VList (l ++ map (fun h => VStr (highlight_hash h)) new)).
Proof. apply dict_lookup_set_same. Qed.

Lemma lookup_log_after_done log norm_t st k :
  k <> lit "_done_titles" ->
  dict_lookup (log_after_done log norm_t st) k = dict_lookup log k.
Proof.
  intro Hne. unfold log_after_done.
  destruct (set_mem norm_t (done_set st)); [reflexivity|].
  destruct (dict_lookup log (lit "_done_titles")) as [[| | | |dl|]|]; try reflexivity.
  apply dict_lookup_set_other. congruence.
Qed.

Lemma done_titles_after_children log title l new dl :
  dict_lookup log (lit "_done_titles") = Some (VList dl) ->
  journal_entry log title l ->
  exists dl2,
    dict_lookup (log_after_children log title l new) (lit "_done_titles") = Some (VList dl2)
    /\ incl dl dl2.
Proof.
  intros Hdone Hentry. unfold log_after_children.
  destruct (pystr_eq_dec title (lit "_done_titles")) as [->|Hne].
  - rewrite dict_lookup_set_same. eexists. split; [reflexivity|].
    destruct Hentry as [[H _]|H]; rewrite H in Hdone; [discriminate|].
    injection Hdone as ->. apply incl_appl, incl_refl.
  - rewrite dict_lookup_set_other by exact Hne.
    exists dl. split; [|apply incl_refl].
    unfold dict_setdefault. destruct (dict_lookup log title); [exact Hdone|].
    now rewrite dict_lookup_set_other.
Qed.

Lemma set_mem_In s l : set_mem s l = true <-> In (VStr s) l.
Proof.
  unfold set_mem. rewrite existsb_exists. split.
  - intros (v & Hin & Hv). destruct v; try discriminate.
    simpl in Hv. apply str_eqb_eq in Hv. now subst.
  - intro H. exists (VStr s). split; [exact H | simpl; apply str_eqb_refl].
Qed.

Lemma done_titles_after_done log norm_t st dl :
  dict_lookup log (lit "_done_titles") = Some (VList dl) ->
  (set_mem norm_t (done_set st) = true -> In (VStr norm_t) dl) ->
  In (VStr norm_t) (done_titles (log_after_done log norm_t st)) /\
  set_mem norm_t (done_set (locals_after_done norm_t st)) = true.
Proof.
  intros Hdone Hinv. unfold log_after_done, locals_after_done, done_titles.
  destruct (set_mem norm_t (done_set st)) eqn:E.
  - rewrite Hdone. auto.
  - rewrite Hdone, dict_lookup_set_same. split.
    + apply in_or_app. right. now left.
    + simpl. now rewrite str_eqb_refl.
Qed.

(** C1, what the code does. In live mode a highlight whose note-creation
    call is answered with a failure status is reported as failed and its
    fingerprint is appended to the per-title sent list all the same, and
    saved with the journal. *)
Theorem failed_note_is_marked_sent
  (lower : pystr -> pystr) (cfg : Config) (title : pystr) (item_key : pyval)
  (h : Highlight) (st : Locals) (r : Response) (rest : list reply)
  (l : list pyval) (w : World) :
  DRY_RUN cfg = false ->
  journal_entry (sent_log w) title l ->
  forallb hashable l = true ->
  set_mem (highlight_hash h) l = false ->
  net w = Reply r :: rest ->
  ok_created (status_code r) = false ->
  (exists dl, dict_lookup (sent_log w) (lit "_done_titles") = Some (VList dl)) ->
  title <> lit "_done_titles" ->
  vault_writable w = true ->
  exists st' w',
    process_children lower cfg title item_key [h] st w = (Ok st', w') /\
    trace w' = trace w ++
      [EPost UItems (note_payload item_key (note_html_from_highlight h));
       EPrint (MAddNoteFailed (status_code r));
       EPrint (MNewNotes 1);
       EWriteVault (sent_log w')] /\
    dict_lookup (sent_log w') title = Some (VList (l ++ [VStr (highlight_hash h)])) /\
    vault_file w' = Stored (VDict (sent_log w')).
Proof.
  intros live Hentry Hhash Hnew Hnet Hfail Hdone Hne Hvault.
  assert (Hu : unsent l [h] = [h]) by (unfold unsent; simpl; now rewrite Hnew).
  rewrite process_children_live with (rs := [r]) (rest := rest) (l := l);
    try assumption; [| now rewrite Hu].
  rewrite Hu. unfold bind, save_sent_log. cbn [vault_writable]. rewrite Hvault.
  eexists _, _. split; [reflexivity|].
  cbn [trace sent_log vault_file loop_events]. rewrite Hnew, Hfail.
  rewrite <- !app_assoc. split; [reflexivity|]. split; [|reflexivity].
  rewrite lookup_log_after_done by exact Hne. apply lookup_log_after_children.
Qed.

Lemma failed_note_is_marked_sent_witness :
  exists st' w',
    process_children ascii_lower cfg_live deep_work parent_key [focus] no_locals
      (world_of [Reply (status_only 500)] empty_log true true) = (Ok st', w') /\
    trace w' = [] ++
      [EPost UItems (note_payload parent_key (note_html_from_highlight focus));
       EPrint (MAddNoteFailed 500);
       EPrint (MNewNotes 1);
       EWriteVault (sent_log w')] /\
    dict_lookup (sent_log w') deep_work = Some (VList ([] ++ [VStr (highlight_hash focus)])) /\
    vault_file w' = Stored (VDict (sent_log w')).
Proof.
  apply (@failed_note_is_marked_sent ascii_lower cfg_live deep_work parent_key focus
           no_locals (status_only 500) [] []
           (world_of [Reply (status_only 500)] empty_log true true)).
  - reflexivity.
  - left. split; reflexivity.
  - reflexivity.
  - reflexivity.
  - reflexivity.
  - reflexivity.
  - eexists. reflexivity.
  - discriminate.
  - reflexivity.
Defined.

(** C5, as the code has it. In live mode, once every highlight of a
    document has been attempted, the normalised title is in the done titles
    and the journal is saved before [process_children] returns: to the vault
    when it is writable, else to the local fallback file with a warning,
    provided one of the two writes succeeds. *)
Theorem commit_marks_done_and_saves
  (lower : pystr -> pystr) (cfg : Config) (title : pystr) (item_key : pyval)
  (hs : list Highlight) (st : Locals) (rs : list Response) (rest : list reply)
  (l dl : list pyval) (w : World) :
  DRY_RUN cfg = false ->
  journal_entry (sent_log w) title l ->
  forallb hashable l = true ->
  List.length rs = List.length (unsent l hs) ->
  net w = map Reply rs ++ rest ->
  dict_lookup (sent_log w) (lit "_done_titles") = Some (VList dl) ->
  (forall s, set_mem s (done_set st) = true -> In (VStr s) dl) ->
  vault_writable w || local_writable w = true ->
  let norm_t := normalize_title lower title in
  exists st' w' evs,
    process_children lower cfg title item_key hs st w = (Ok st', w') /\
    set_mem norm_t (done_set st') = true /\
    In (VStr norm_t) (done_titles (sent_log w')) /\
    (if vault_writable w
     then vault_file w' = Stored (VDict (sent_log w')) /\
          trace w' = trace w ++ evs ++ [EWriteVault (sent_log w')]
     else local_file w' = Stored (VDict (sent_log w')) /\
          trace w' = trace w ++ evs
                     ++ [EWriteLocal (sent_log w'); EPrint MSavedLocalInstead]).
Proof.
  intros live Hentry Hhash Hlen Hnet Hdone Hinv Hwr norm_t.
  rewrite process_children_live with (rs := rs) (rest := rest) (l := l);
    try assumption; [| eauto].
  destruct (@done_titles_after_children _ _ _ (unsent l hs) _ Hdone Hentry) as (dl2 & Hd2 & Hincl).
  destruct (@done_titles_after_done _ norm_t st _ Hd2) as [Hin Hmem].
  { intro Hm. apply Hincl. now apply Hinv. }
  unfold bind, save_sent_log. cbn [vault_writable local_writable].
  destruct (vault_writable w).
  - eexists _, _, (loop_events item_key l hs rs
                   ++ [EPrint (MNewNotes (Z.of_nat (List.length rs)))]).
    split; [reflexivity|].
    cbn [sent_log vault_file trace]. repeat split; try assumption.
    rewrite <- !app_assoc. reflexivity.
  - simpl in Hwr. rewrite Hwr.
    eexists _, _, (loop_events item_key l hs rs
                   ++ [EPrint (MNewNotes (Z.of_nat (List.length rs)))]).
    split; [reflexivity|].
    cbn [sent_log local_file trace]. repeat split; try assumption.
    rewrite <- !app_assoc. reflexivity.
Qed.

Lemma commit_marks_done_and_saves_witness :
  exists st' w' evs,
    process_children ascii_lower cfg_live deep_work parent_key [focus] no_locals
      (world_of [Reply (status_only 200)] empty_log false true) = (Ok st', w') /\
    set_mem (normalize_title ascii_lower deep_work) (done_set st') = true /\
    In (VStr (normalize_title ascii_lower deep_work)) (done_titles (sent_log w')) /\
    local_file w' = Stored (VDict (sent_log w')) /\
    trace w' = [] ++ evs ++ [EWriteLocal (sent_log w'); EPrint MSavedLocalInstead].
Proof.
  apply (@commit_marks_done_and_saves ascii_lower cfg_live deep_work parent_key [focus]
           no_locals [status_only 200] [] [] []
           (world_of [Reply (status_only 200)] empty_log false true)).
  - reflexivity.
  - left. split; reflexivity.
  - reflexivity.
  - reflexivity.
  - reflexivity.
  - reflexivity.
  - intros s H. discriminate.
  - reflexivity.
Defined.

(** C5 as stated fails: with neither the vault nor the fallback path
    writable the primary write fails, nothing is written, no warning is
    printed and [OSError] leaves the loop. *)
Lemma save_failure_aborts_run :
  let w := world_of [Reply (status_only 200)] empty_log false false in
  let out := process_children ascii_lower cfg_live deep_work parent_key [focus] no_locals w in
  fst out = Raise OSError /\
  local_file (snd out) = Missing /\
  vault_file (snd out) = Missing /\
  ~ In (EPrint MSavedLocalInstead) (trace (snd out)).
Proof.
  vm_compute. repeat split; try reflexivity.
  intros [H|[H|[]]]; discriminate.
Qed.

(* ------------------------------------------------------------------ *)
(** ** Resume *)
(* ------------------------------------------------------------------ *)

Section Resume.

Variable lower : pystr -> pystr.
Variable to_int : pystr -> option Z.
Variable cfg : Config.
Hypothesis live : DRY_RUN cfg = false.
Hypothesis resume : RESUME_ENABLED cfg = true.

Lemma process_doc_resume_skip collection_key doc st w c s :
  d_title doc = Some (c :: s) ->
  title_matches_filters lower (ONLY_TITLES cfg) (c :: s) = true ->
  set_mem (normalize_title lower (c :: s)) (done_set st) = true ->
  process_doc lower to_int cfg collection_key doc st w =
  (Ok (SkippedResume, Continue, mkLocals (done_set st) (processed st) (matched st + 1)),
   mkWorld (net w) (ui w) (vault_file w) (local_file w)
           (vault_writable w) (local_writable w) (sent_log w)
           (trace w ++ [EPrint (MSkipCompleted (c :: s))])).
Proof.
  intros Ht Hf Hdone. unfold process_doc.
  rewrite Ht, Hf, live, resume. cbn [negb andb done_set]. rewrite Hdone.
  reflexivity.
Qed.

(** A live run over documents that are all done already sends nothing: the
    loop prints one skip line per document and changes neither the answers
    to come nor the journal. *)
Lemma main_loop_all_done collection_key docs :
  forall st w,
    Forall (already_done lower cfg (done_set st)) docs ->
    main_loop lower to_int cfg collection_key docs st w =
    (Ok (mkLocals (done_set st) (processed st)
                  (matched st + Z.of_nat (List.length docs))),
     mkWorld (net w) (ui w) (vault_file w) (local_file w)
             (vault_writable w) (local_writable w) (sent_log w)
             (trace w ++ map skip_line docs)).
Proof.
  induction docs as [|doc docs IH]; intros st w Hall.
  - simpl. unfold ret. rewrite app_nil_r, Z.add_0_r. now destruct st, w.
  - inversion Hall as [|? ? (c & s & Ht & Hf & Hd) Hrest]; subst.
    cbn [main_loop]. unfold bind.
    rewrite process_doc_resume_skip with (c := c) (s := s) by assumption.
    rewrite IH by exact Hrest.
    cbn [done_set processed matched net ui vault_file local_file vault_writable
         local_writable sent_log trace map List.length].
    unfold skip_line at 2. rewrite Ht, <- app_assoc.
    replace (matched st + 1 + Z.of_nat (List.length docs))%Z
      with (matched st + Z.of_nat (S (List.length docs)))%Z by lia.
    reflexivity.
Qed.

End Resume.

(** C6. A document whose normalised title is in the done set is skipped by
    a live run with resume enabled: the body of the loop only counts it as
    matched and prints the skip line; no request is sent, no answer of the
    store is consumed and the journal is untouched.  And the loop leaves a
    document through this exit only when the run is live, resume is enabled
    and the normalised title is in the done set. *)
Theorem resume_skips_done_title
  (lower : pystr -> pystr) (to_int : pystr -> option Z)
  (cfg : Config) (collection_key : pyval)
  (doc : Document) (st : Locals) (w : World) :
  (forall c s,
     d_title doc = Some (c :: s) ->
     title_matches_filters lower (ONLY_TITLES cfg) (c :: s) = true ->
     DRY_RUN cfg = false ->
     RESUME_ENABLED cfg = true ->
     set_mem (normalize_title lower (c :: s)) (done_set st) = true ->
     process_doc lower to_int cfg collection_key doc st w =
     (Ok (SkippedResume, Continue,
          mkLocals (done_set st) (processed st) (matched st + 1)),
      mkWorld (net w) (ui w) (vault_file w) (local_file w)
              (vault_writable w) (local_writable w) (sent_log w)
              (trace w ++ [EPrint (MSkipCompleted (c :: s))])))
  /\
  (forall ctl st' w',
     process_doc lower to_int cfg collection_key doc st w = (Ok (SkippedResume, ctl, st'), w') ->
     exists title,
       d_title doc = Some title /\
       DRY_RUN cfg = false /\
       RESUME_ENABLED cfg = true /\
       set_mem (normalize_title lower title) (done_set st) = true).
Proof.
  split.
  - intros c s Ht Hf Hdry Hres Hdone. now apply process_doc_resume_skip.
  - intros ctl st' w'. unfold process_doc.
    destruct (d_title doc) as [[|c s]|]; try (unfold ret; discriminate).
    destruct (title_matches_filters lower (ONLY_TITLES cfg) (c :: s));
      cbn [negb]; [|unfold ret; discriminate].
    cbn [done_set].
    destruct (RESUME_ENABLED cfg && negb (DRY_RUN cfg)
              && set_mem (normalize_title lower (c :: s)) (done_set st)) eqn:E.
    + intros _. apply andb_true_iff in E as [E E3].
      apply andb_true_iff in E as [E1 E2]. apply negb_true_iff in E2.
      exists (c :: s). auto.
    + unfold bind at 1. unfold print at 1, emit at 1.
      unfold bind at 1.
      match goal with |- context [find_or_create_book_item ?a ?b ?c ?d ?e ?f ?g ?h] =>
        destruct (find_or_create_book_item a b c d e f g h) as [[k|e0] w1] end;
        [|discriminate].
      destruct (truthy k).
      * unfold bind at 1.
        match goal with |- context [(if ?b then ?x else ?y) w1] =>
          destruct ((if b then x else y) w1) as [[[]|e1] w2] end; [|discriminate].
        unfold bind at 1.
        destruct (process_children lower cfg (c :: s) k (d_highlights doc)
                    {| done_set := done_set st; processed := processed st;
                       matched := matched st + 1 |} w2) as [[st2|e2] w3];
          [|discriminate].
        match goal with |- context [if ?b then _ else _] => destruct b end.
        -- unfold bind, print, emit, ret. discriminate.
        -- unfold ret. discriminate.
      * unfold bind, print, emit, ret. discriminate.
Qed.

Lemma resume_skips_done_title_witness :
  process_doc ascii_lower ascii_int cfg_live parent_key deep_work_doc
    (mkLocals [VStr (lit "deep work")] 0 0)
    (world_of [] empty_log true true) =
  (Ok (SkippedResume, Continue, mkLocals [VStr (lit "deep work")] 0 (0 + 1)),
   mkWorld [] UiSendNow Missing Missing true true empty_log
           ([] ++ [EPrint (MSkipCompleted deep_work)])).
Proof.
  apply (proj1 (@resume_skips_done_title ascii_lower ascii_int cfg_live parent_key deep_work_doc
                  (mkLocals [VStr (lit "deep work")] 0 0)
                  (world_of [] empty_log true true))
               68%N (lit "eep Work")); reflexivity.
Defined.

(* ------------------------------------------------------------------ *)
(** ** Loading the journal *)
(* ------------------------------------------------------------------ *)

(** The journal loads, without error, whenever the vault file is missing,
    unreadable, or holds a JSON object; the fallback file is then ignored
    unless it holds an object too. *)
Lemma load_sent_log_total w :
  (forall v, vault_file w = Stored v -> exists d, v = VDict d) ->
  exists log,
    load_sent_log w = (Ok log, w) /\
    (exists items, dict_lookup log (lit "_items") = Some items) /\
    (exists dl, dict_lookup log (lit "_done_titles") = Some dl).
Proof.
  intro Hv. unfold load_sent_log.
  assert (Hd : exists d, match vault_file w with
                         | Stored v => v
                         | _ => VDict []
                         end = VDict d).
  { destruct (vault_file w) as [| |v]; eauto. }
  destruct Hd as [d ->].
  assert (Hd2 : exists d2, match local_file w with
                           | Stored fallback =>
                               match merge_logs fallback (VDict d) with
                               | Ok merged => merged
                               | Raise _ => VDict d
                               end
                           | _ => VDict d
                           end = VDict d2).
  { destruct (local_file w) as [| |fb]; eauto.
    destruct fb; simpl; eauto. }
  destruct Hd2 as [d2 ->].
  eexists. split; [reflexivity|]. split.
  - unfold dict_setdefault at 1.
    destruct (dict_lookup (dict_setdefault d2 (lit "_items") (VDict [])) (lit "_done_titles"))
      eqn:E.
    + unfold dict_setdefault. destruct (dict_lookup d2 (lit "_items")) eqn:E2; eauto.
      rewrite dict_lookup_set_same. eauto.
    + rewrite dict_lookup_set_other by discriminate.
      unfold dict_setdefault. destruct (dict_lookup d2 (lit "_items")) eqn:E2; eauto.
      rewrite dict_lookup_set_same. eauto.
  - unfold dict_setdefault at 1.
    destruct (dict_lookup (dict_setdefault d2 (lit "_items") (VDict [])) (lit "_done_titles"))
      eqn:E; eauto.
    rewrite dict_lookup_set_same. eauto.
Qed.

(** With both files holding objects, an entry of the vault file wins over
    one of the fallback file. *)
Lemma load_sent_log_precedence w primary fallback k :
  vault_file w = Stored (VDict primary) ->
  local_file w = Stored (VDict fallback) ->
  NoDup (map fst primary) ->
  k <> lit "_items" -> k <> lit "_done_titles" ->
  exists log,
    load_sent_log w = (Ok log, w) /\
    dict_lookup log k = match dict_lookup primary k with
                        | Some v => Some v
                        | None => dict_lookup fallback k
                        end.
Proof.
  intros Hv Hl Hnd Hk1 Hk2. unfold load_sent_log. rewrite Hv, Hl. simpl.
  eexists. split; [reflexivity|].
  assert (Hsd : forall d k0 v, k0 <> k ->
            dict_lookup (dict_setdefault d k0 v) k = dict_lookup d k).
  { intros d k0 v Hne. unfold dict_setdefault.
    destruct (dict_lookup d k0); [reflexivity|]. now apply dict_lookup_set_other. }
  rewrite !Hsd by congruence. now apply dict_lookup_merge.
Qed.

(** C7, what the code does. When the vault file holds JSON that is not an
    object (a list, a string, a number, [null]), loading the journal raises
    [AttributeError] at line 116, outside the two [try] blocks, whatever the
    fallback file holds. *)
Theorem load_sent_log_non_object_raises (v : pyval) (w : World) :
  vault_file w = Stored v ->
  as_dict v = Raise AttributeError ->
  load_sent_log w = (Raise AttributeError, w).
Proof.
  intros Hv Hnd. unfold load_sent_log. rewrite Hv.
  destruct v; try discriminate;
    destruct (local_file w) as [| |fb]; try reflexivity;
    destruct fb; reflexivity.
Qed.

Lemma load_sent_log_non_object_raises_witness :
  load_sent_log (mkWorld [] UiSendNow (Stored (VList [])) Missing true true [] [])
  = (Raise AttributeError,
     mkWorld [] UiSendNow (Stored (VList [])) Missing true true [] []).
Proof.
  apply (@load_sent_log_non_object_raises (VList [])); reflexivity.
Defined.

(* ------------------------------------------------------------------ *)
(** ** Key recovery *)
(* ------------------------------------------------------------------ *)

Section Recovery.

Variable lower : pystr -> pystr.
Variable to_int : pystr -> option Z.
Variable cfg : Config.
Variable title : pystr.
Variable author : option pystr.

Lemma match_listing_miss r w :
  Z.eqb (status_code r) 200 = true ->
  listing_matches lower title author r = Ok None ->
  match_listing lower r title author w = (Ok VNone, w).
Proof.
  intros Hst. unfold listing_matches, match_listing. rewrite Hst. cbn [negb].
  unfold bind, lift.
  destruct (resp_json r) as [body|e]; cbn [exc_bind]; [|discriminate].
  destruct (py_iter body) as [items|e]; cbn [exc_bind]; [|discriminate].
  now intros ->.
Qed.

Lemma search_miss k r rest w :
  cached_key (sent_log w) (normalize_title lower title) = Ok k ->
  truthy k = false ->
  net w = Reply r :: rest ->
  listing_matches lower title author r = Ok None ->
  search_item_by_title lower title author w =
  (Ok VNone, mkWorld rest (ui w) (vault_file w) (local_file w)
                     (vault_writable w) (local_writable w) (sent_log w)
                     (trace w ++ [EGet UItems (search_params title)])).
Proof.
  intros Hc Hk Hnet Hl. unfold search_item_by_title, cached_key in *.
  unfold bind at 1. unfold get_log at 1.
  unfold bind at 1. unfold lift at 1.
  destruct (as_dict (dict_get_default (sent_log w) (lit "_items") (VDict [])))
    as [items|e]; cbn [exc_bind] in Hc; [|discriminate].
  injection Hc as Hc. rewrite Hc, Hk.
  unfold bind at 1. unfold requests_get, bind, emit, next_reply. cbn [net].
  rewrite Hnet.
  destruct (Z.eqb (status_code r) 200) eqn:Hst; cbn [negb].
  - now rewrite match_listing_miss.
  - reflexivity.
Qed.



End Recovery.




(* ------------------------------------------------------------------ *)
(** ** Frames: what a computation leaves alone *)
(* ------------------------------------------------------------------ *)

Section Frame.

Variable R : World -> World -> Prop.
Hypothesis R_refl : forall w, R w w.
Hypothesis R_trans : forall a b c, R a b -> R b c -> R a c.

Lemma preserves_ret {A} (a : A) : preserves R (ret a).
Proof. intros w res w' H. injection H as _ <-. apply R_refl. Qed.

Lemma preserves_raise {A} (e : exn) : preserves R (@raise A e).
Proof. intros w res w' H. injection H as _ <-. apply R_refl. Qed.

Lemma preserves_lift {A} (x : exc A) : preserves R (lift x).
Proof. intros w res w' H. injection H as _ <-. apply R_refl. Qed.

Lemma preserves_get_log : preserves R get_log.
Proof. intros w res w' H. injection H as _ <-. apply R_refl. Qed.

Lemma preserves_bind {A B} (m : M A) (f : A -> M B) :
  preserves R m -> (forall a, preserves R (f a)) -> preserves R (bind m f).
Proof.
  intros Hm Hf w res w'. unfold bind.
  destruct (m w) as [[a|e] w1] eqn:E.
  - intro H. eapply R_trans; [eapply Hm; exact E | eapply Hf; exact H].
  - intro H. injection H as _ <-. eapply Hm; exact E.
Qed.

End Frame.

Lemma preserves_weaken (R R' : World -> World -> Prop) {A} (m : M A) :
  (forall w w', R w w' -> R' w w') -> preserves R m -> preserves R' m.
Proof. intros Hsub Hm w res w' H. apply Hsub. eapply Hm; exact H. Qed.

Lemma read_only_app evs1 evs2 :
  read_only evs1 = true -> read_only evs2 = true -> read_only (evs1 ++ evs2) = true.
Proof. unfold read_only. intros H1 H2. now rewrite forallb_app, H1, H2. Qed.

Lemma effect_frame_refl w : effect_frame w w.
Proof. repeat split. exists []. now rewrite app_nil_r. Qed.

Lemma effect_frame_trans a b c : effect_frame a b -> effect_frame b c -> effect_frame a c.
Proof.
  intros (V1 & L1 & evs1 & T1 & O1) (V2 & L2 & evs2 & T2 & O2).
  split; [congruence|]. split; [congruence|].
  exists (evs1 ++ evs2). split; [now rewrite T2, T1, app_assoc | now apply read_only_app].
Qed.

Lemma journal_frame_refl T F log : journal_frame T F log log.
Proof. intro k. now left. Qed.

Lemma journal_frame_mono (T T' : pystr -> Prop) (F F' : pystr -> pyval -> Prop) a b :
  (forall k, T k -> T' k) -> (forall k v, F k v -> F' k v) ->
  journal_frame T F a b -> journal_frame T' F' a b.
Proof.
  intros HT HF H k.
  destruct (H k) as [E|[(Tk & N & E)|(K & items & items' & E1 & E2 & Hi)]].
  - now left.
  - right; left. auto.
  - right; right. split; [exact K|]. exists items, items'.
    split; [exact E1|]. split; [exact E2|].
    intro t. destruct (Hi t) as [Et|(v & Ev & Fv)]; [now left | right; exists v; auto].
Qed.

Lemma journal_frame_trans T F a b c :
  journal_frame T F a b -> journal_frame T F b c -> journal_frame T F a c.
Proof.
  intros H1 H2 k.
  destruct (H1 k) as [E1|[(T1 & N1 & E1)|(K1 & i1 & i1' & A1 & B1 & C1)]];
    destruct (H2 k) as [E2|[(T2 & N2 & E2)|(K2 & i2 & i2' & A2 & B2 & C2)]];
    try congruence.
  - left. congruence.
  - right; left. split; [exact T2|]. split; congruence.
  - right; right. split; [exact K2|]. exists i2, i2'.
    split; [congruence|]. split; [exact B2 | exact C2].
  - right; left. split; [exact T1|]. split; congruence.
  - right; right. split; [exact K1|]. exists i1, i1'.
    split; [exact A1|]. split; [congruence | exact C1].
  - right; right. split; [exact K1|]. exists i1, i2'.
    split; [exact A1|]. split; [exact B2|].
    assert (i2 = i1') by congruence. subst i2.
    intro t. destruct (C2 t) as [Et|(v & Ev & Fv)].
    + destruct (C1 t) as [Et1|(v & Ev & Fv)];
        [left; congruence | right; exists v; split; [congruence | exact Fv]].
    + right. exists v. auto.
Qed.

Lemma titled_mono docs docs' k : incl docs docs' -> titled docs k -> titled docs' k.
Proof. intros Hd (doc & I & Ht). exists doc. auto. Qed.

Lemma found_by_search_mono lower docs docs' answers answers' k v :
  incl docs docs' -> incl answers answers' ->
  found_by_search lower docs answers k v -> found_by_search lower docs' answers' k v.
Proof.
  intros Hd Ha (doc & title & r & I & Ht & Hk & Ir & Hm).
  exists doc, title, r.
  split; [auto|]. split; [exact Ht|]. split; [exact Hk|]. split; [auto | exact Hm].
Qed.

Section DryFrame.

Variable lower : pystr -> pystr.
Variable docs : list Document.

Lemma dry_frame_intro answers w w' :
  effect_frame w w' -> net w = answers ++ net w' -> sent_log w' = sent_log w ->
  dry_frame lower docs w w'.
Proof.
  intros E N S. split; [exact E|]. exists answers.
  split; [exact N | rewrite S; apply journal_frame_refl].
Qed.

Lemma dry_frame_refl w : dry_frame lower docs w w.
Proof. apply dry_frame_intro with (answers := []); auto using effect_frame_refl. Qed.

Lemma dry_frame_trans a b c :
  dry_frame lower docs a b -> dry_frame lower docs b c -> dry_frame lower docs a c.
Proof.
  intros [E1 (l1 & N1 & J1)] [E2 (l2 & N2 & J2)].
  split; [eapply effect_frame_trans; eassumption|].
  exists (l1 ++ l2). split; [now rewrite N1, N2, app_assoc|].
  apply journal_frame_trans with (b := sent_log b).
  - apply journal_frame_mono
      with (T := titled docs) (F := found_by_search lower docs l1); auto.
    intros k v. apply found_by_search_mono; auto using incl_refl, incl_appl.
  - apply journal_frame_mono
      with (T := titled docs) (F := found_by_search lower docs l2); auto.
    intros k v. apply found_by_search_mono; auto using incl_refl, incl_appr.
Qed.

Lemma dry_bind {A B} (m : M A) (f : A -> M B) :
  preserves (dry_frame lower docs) m ->
  (forall a, preserves (dry_frame lower docs) (f a)) ->
  preserves (dry_frame lower docs) (bind m f).
Proof. apply preserves_bind, dry_frame_trans. Qed.

Lemma dry_emit e : mutating e = false -> preserves (dry_frame lower docs) (emit e).
Proof.
  intros He w res w' H. injection H as _ <-.
  apply dry_frame_intro with (answers := []); try reflexivity.
  repeat split. exists [e]. split; [reflexivity|]. unfold read_only. simpl. now rewrite He.
Qed.

Lemma dry_print m : preserves (dry_frame lower docs) (print m).
Proof. now apply dry_emit. Qed.

Lemma dry_next_reply : preserves (dry_frame lower docs) next_reply.
Proof.
  intros w res w'. unfold next_reply.
  destruct (net w) as [|x rest] eqn:N.
  - intro H. injection H as _ <-. apply dry_frame_refl.
  - assert (E : effect_frame w
                 (mkWorld rest (ui w) (vault_file w) (local_file w)
                          (vault_writable w) (local_writable w) (sent_log w) (trace w))).
    { repeat split. exists []. now rewrite app_nil_r. }
    destruct x as [r|]; intro H; injection H as _ <-.
    + apply dry_frame_intro with (answers := [Reply r]); [exact E | exact N | reflexivity].
    + apply dry_frame_intro with (answers := [NetError]); [exact E | exact N | reflexivity].
Qed.

Lemma dry_requests_get u params : preserves (dry_frame lower docs) (requests_get u params).
Proof.
  unfold requests_get. apply dry_bind; [now apply dry_emit | intro; apply dry_next_reply].
Qed.

Lemma journal_frame_setdefault F log title :
  titled docs title ->
  journal_frame (titled docs) F log (dict_setdefault log title (VList [])).
Proof.
  intros Ht k. unfold dict_setdefault.
  destruct (dict_lookup log title) eqn:E; [now left|].
  destruct (pystr_eq_dec title k) as [->|Hne].
  - right; left. split; [exact Ht|]. split; [exact E | apply dict_lookup_set_same].
  - left. now apply dict_lookup_set_other.
Qed.

End DryFrame.

Lemma requests_get_answer u params w r w1 :
  requests_get u params w = (Ok r, w1) ->
  net w = Reply r :: net w1 /\ sent_log w1 = sent_log w.
Proof.
  unfold requests_get, bind, emit, next_reply. cbn [net sent_log].
  destruct (net w) as [|[r0|] rest]; intro H; try discriminate.
  injection H as <- <-. now split.
Qed.

(** What [match_listing] does to the world, the answer being a 200: nothing,
    or it binds the normalised title under [_items] to the key the match
    found. *)
Lemma match_listing_cases lower r title author w res w' :
  Z.eqb (status_code r) 200 = true ->
  match_listing lower r title author w = (res, w') ->
  w' = w \/
  exists key items,
    listing_matches lower title author r = Ok (Some key) /\
    dict_lookup (sent_log w) (lit "_items") = Some (VDict items) /\
    w' = mkWorld (net w) (ui w) (vault_file w) (local_file w)
                 (vault_writable w) (local_writable w)
                 (dict_set (sent_log w) (lit "_items")
                           (VDict (dict_set items (normalize_title lower title) key)))
                 (trace w).
Proof.
  intros Hst. unfold match_listing, listing_matches. rewrite Hst. cbn [negb].
  unfold bind at 1, lift at 1.
  destruct (resp_json r) as [body|e]; cbn [exc_bind];
    [|intro H; injection H as _ <-; now left].
  unfold bind at 1, lift at 1.
  destruct (py_iter body) as [items|e]; cbn [exc_bind];
    [|intro H; injection H as _ <-; now left].
  unfold bind at 1, lift at 1.
  destruct (match_loop _ _ _ items) as [[key|]|e];
    [| intro H; injection H as _ <-; now left
     | intro H; injection H as _ <-; now left].
  unfold cache_item, bind, get_log.
  destruct (dict_lookup (sent_log w) (lit "_items")) as [[| | | | |cached]|] eqn:E;
    unfold raise, put_log, ret; intro H; injection H as _ <-; try (now left).
  right. exists key, cached. auto.
Qed.

(** One step of a frame proof: split a bind, close a leaf, or take the
    cases of a test. *)
Ltac frame_step :=
  match goal with
  | |- preserves (dry_frame _ _) (bind _ _) => apply dry_bind; [|intro]
  | |- preserves (dry_frame _ _) (ret _) => apply preserves_ret, dry_frame_refl
  | |- preserves (dry_frame _ _) (raise _) => apply preserves_raise, dry_frame_refl
  | |- preserves (dry_frame _ _) (lift _) => apply preserves_lift, dry_frame_refl
  | |- preserves (dry_frame _ _) get_log => apply preserves_get_log, dry_frame_refl
  | |- preserves (dry_frame _ _) (print _) => apply dry_print
  | |- preserves (dry_frame _ _) (requests_get _ _) => apply dry_requests_get
  | |- preserves (dry_frame _ _) (if ?b then _ else _) => destruct b
  | |- preserves (dry_frame _ _) (match ?x with _ => _ end) => destruct x
  end.

Ltac frame := repeat frame_step.

Section DryRun.

Variable lower : pystr -> pystr.
Variable to_int : pystr -> option Z.
Variable cfg : Config.
Variable docs : list Document.
Hypothesis dry : DRY_RUN cfg = true.

Lemma safe_post_dry u payload w :
  safe_post cfg u payload w =
  (Ok _FakeResp, mkWorld (net w) (ui w) (vault_file w) (local_file w)
                         (vault_writable w) (local_writable w) (sent_log w)
                         (trace w ++ [EPrint (MBlockedPost u)])).
Proof. unfold safe_post. now rewrite dry. Qed.

Lemma safe_put_dry u headers payload w :
  safe_put cfg u headers payload w =
  (Ok _FakeResp, mkWorld (net w) (ui w) (vault_file w) (local_file w)
                         (vault_writable w) (local_writable w) (sent_log w)
                         (trace w ++ [EPrint (MBlockedPut u)])).
Proof. unfold safe_put. now rewrite dry. Qed.

Lemma dry_find_collection name : preserves (dry_frame lower docs) (find_collection name).
Proof. unfold find_collection. frame. Qed.

Lemma dry_get_or_create_collection name :
  preserves (dry_frame lower docs) (get_or_create_collection cfg name true).
Proof.
  unfold get_or_create_collection.
  apply dry_bind; [apply dry_find_collection | intro]. frame.
Qed.

(** The title search of a document of [docs]: a 200 answer is scanned, and
    a match is cached under the normalised title. *)
Lemma dry_get_then_match doc title :
  In doc docs -> d_title doc = Some title ->
  preserves (dry_frame lower docs)
    (bind (requests_get UItems (search_params title))
          (fun r => if negb (Z.eqb (status_code r) 200) then ret VNone
                    else match_listing lower r title (d_author doc))).
Proof.
  intros Hin Ht w res w'. unfold bind at 1.
  destruct (requests_get UItems (search_params title) w) as [[r|e] w1] eqn:G.
  - pose proof (@dry_requests_get lower docs _ _ _ _ _ G) as D.
    destruct (Z.eqb (status_code r) 200) eqn:Hst; cbn [negb].
    + intro H. apply match_listing_cases in H; [|exact Hst].
      destruct H as [->|(key & items & Hm & Hl & ->)]; [exact D|].
      destruct (requests_get_answer _ _ _ G) as [N S].
      destruct D as [(V & L & evs & T & O) _].
      split; [repeat split; auto; exists evs; auto|].
      exists [Reply r]. split; [exact N|]. cbn [sent_log].
      intro k. destruct (pystr_eq_dec (lit "_items") k) as [<-|Hne].
      * right; right. split; [reflexivity|].
        exists items, (dict_set items (normalize_title lower title) key).
        split; [now rewrite <- S|]. split; [apply dict_lookup_set_same|].
        intro t. destruct (pystr_eq_dec (normalize_title lower title) t) as [<-|Hne].
        -- right. exists key. split; [apply dict_lookup_set_same|].
           exists doc, title, r.
           split; [exact Hin|]. split; [exact Ht|]. split; [reflexivity|].
           split; [now left | exact Hm].
        -- left. now apply dict_lookup_set_other.
      * left. rewrite <- S. now apply dict_lookup_set_other.
    + intro H. injection H as _ <-. exact D.
  - intro H. injection H as _ <-.
    exact (@dry_requests_get lower docs _ _ _ _ _ G).
Qed.

Lemma dry_search doc title :
  In doc docs -> d_title doc = Some title ->
  preserves (dry_frame lower docs) (search_item_by_title lower title (d_author doc)).
Proof.
  intros Hin Ht. unfold search_item_by_title.
  repeat (apply dry_bind; [frame | intro]).
  destruct (truthy _); [frame|].
  now apply dry_get_then_match.
Qed.

Lemma dry_find_or_create doc title collection_key :
  In doc docs -> d_title doc = Some title ->
  preserves (dry_frame lower docs)
    (find_or_create_book_item lower to_int cfg title (d_author doc) collection_key true).
Proof.
  intros Hin Ht. unfold find_or_create_book_item.
  apply dry_bind; [now apply dry_search | intro]. frame.
Qed.

Lemma dry_create_note item_key html :
  preserves (dry_frame lower docs) (create_note_for_item cfg item_key html true).
Proof. unfold create_note_for_item. frame. Qed.

Lemma dry_highlights_loop title item_key already hs :
  forall cc, preserves (dry_frame lower docs)
               (highlights_loop cfg title item_key already hs cc).
Proof.
  induction hs as [|h hs IH]; intro cc; cbn [highlights_loop]; [frame|].
  destruct (set_mem _ _).
  - apply dry_bind; [frame | intro; apply IH].
  - rewrite dry. cbn [negb].
    apply dry_bind; [apply dry_create_note | intro; apply IH].
Qed.

Lemma dry_process_children title item_key hs st :
  titled docs title ->
  preserves (dry_frame lower docs) (process_children lower cfg title item_key hs st).
Proof.
  intro Ht. unfold process_children. rewrite dry. cbn [negb].
  intros w res w'. unfold bind at 1. unfold get_log at 1.
  unfold bind at 1. unfold put_log at 1.
  intro H.
  match type of H with ?m ?w1 = _ =>
    assert (P : preserves (dry_frame lower docs) m);
    [| apply dry_frame_trans with (b := w1); [| eapply P; exact H]]
  end.
  - do 3 (apply dry_bind; [frame | intro]).
    apply dry_bind; [apply dry_highlights_loop | intro; frame].
  - split; [repeat split; exists []; now rewrite app_nil_r|].
    exists []. split; [reflexivity|].
    cbn [sent_log]. now apply journal_frame_setdefault.
Qed.

Lemma dry_process_doc collection_key doc st :
  In doc docs ->
  preserves (dry_frame lower docs) (process_doc lower to_int cfg collection_key doc st).
Proof.
  intro Hin. unfold process_doc. rewrite dry. cbn [negb]. rewrite !andb_false_r. cbn [andb].
  destruct (d_title doc) as [[|c s]|] eqn:Ht; [frame| |frame].
  destruct (negb _); [frame|].
  apply dry_bind; [frame | intro].
  apply dry_bind; [now apply dry_find_or_create | intro key].
  destruct (truthy key); [|frame].
  apply dry_bind; [frame | intro].
  apply dry_bind; [apply dry_process_children; now exists doc | intro]. frame.
Qed.

Lemma dry_main_loop collection_key ds :
  incl ds docs ->
  forall st, preserves (dry_frame lower docs) (main_loop lower to_int cfg collection_key ds st).
Proof.
  induction ds as [|doc ds IH]; intros Hincl st; cbn [main_loop]; [frame|].
  apply dry_bind; [apply dry_process_doc, Hincl; now left | intros [[ex ctl] st']].
  destruct ctl; [|frame].
  apply IH. intros d Hd. apply Hincl. now right.
Qed.

Lemma effect_load_sent_log : preserves effect_frame load_sent_log.
Proof.
  intros w res w'. unfold load_sent_log.
  match goal with |- context [match ?d with VDict _ => _ | _ => _ end] => destruct d end;
    intro H; injection H as _ <-; apply effect_frame_refl.
Qed.

Lemma effect_put_log log : preserves effect_frame (put_log log).
Proof.
  intros w res w' H. injection H as _ <-. repeat split. exists []. now rewrite app_nil_r.
Qed.

Lemma dry_to_effect {A} (m : M A) :
  preserves (dry_frame lower docs) m -> preserves effect_frame m.
Proof. apply preserves_weaken. now intros w w' [H _]. Qed.

Lemma effect_main : preserves effect_frame (main lower to_int cfg docs).
Proof.
  pose proof effect_frame_refl as Hr. pose proof effect_frame_trans as Ht.
  unfold main. rewrite dry. cbn [negb andb].
  apply preserves_bind; auto; [apply dry_to_effect, dry_print | intro].
  apply preserves_bind; auto; [now apply preserves_ret | intro].
  apply preserves_bind; auto; [apply dry_to_effect, dry_print | intro].
  destruct docs as [|doc ds] eqn:Hdocs.
  - apply dry_to_effect. frame.
  - rewrite <- Hdocs.
    apply preserves_bind; auto;
      [apply dry_to_effect, dry_get_or_create_collection | intro ck].
    apply preserves_bind; auto; [apply dry_to_effect; frame | intro].
    apply preserves_bind; auto; [apply effect_load_sent_log | intro log].
    apply preserves_bind; auto; [apply effect_put_log | intro].
    apply preserves_bind; auto; [now apply preserves_lift | intro dl].
    apply preserves_bind; auto;
      [apply dry_to_effect, dry_main_loop, incl_refl | intro st].
    apply dry_to_effect, dry_print.
Qed.

End DryRun.

(** C2, as the code has it. In simulation mode a run writes neither journal
    file and sends no POST or PUT: its trace grows by reads, waits and
    printed lines only.  The journal in memory is not left alone, but the
    main loop changes it in two ways only.  A title of one of the documents
    that had no entry gets the empty list.  And where [_items] holds a
    dictionary it still holds one, with every entry as it was except that
    the normalised title of one of the documents may now be bound to the key
    that the match found for that document in a listing the store gave
    during the loop.  Every other key of the journal, [_done_titles] and
    every list of sent fingerprints among them, holds what it held.  And
    the gate answers each mutating call with the fixed stand-in after
    printing what was blocked. *)
Theorem dry_run_frame (lower : pystr -> pystr) (to_int : pystr -> option Z)
  (cfg : Config) :
  DRY_RUN cfg = true ->
  (forall docs w res w',
     main lower to_int cfg docs w = (res, w') ->
     vault_file w' = vault_file w /\ local_file w' = local_file w /\
     exists evs, trace w' = trace w ++ evs /\ read_only evs = true) /\
  (forall collection_key docs st w res w',
     main_loop lower to_int cfg collection_key docs st w = (res, w') ->
     exists answers,
       net w = answers ++ net w' /\
       journal_frame (titled docs) (found_by_search lower docs answers)
                     (sent_log w) (sent_log w')) /\
  (forall u payload w,
     safe_post cfg u payload w =
     (Ok _FakeResp, mkWorld (net w) (ui w) (vault_file w) (local_file w)
                            (vault_writable w) (local_writable w) (sent_log w)
                            (trace w ++ [EPrint (MBlockedPost u)]))) /\
  (forall u headers payload w,
     safe_put cfg u headers payload w =
     (Ok _FakeResp, mkWorld (net w) (ui w) (vault_file w) (local_file w)
                            (vault_writable w) (local_writable w) (sent_log w)
                            (trace w ++ [EPrint (MBlockedPut u)]))).
Proof.
  intro dry. split; [|split; [|split]].
  - intros docs w res w' H. exact (@effect_main lower to_int cfg docs dry w res w' H).
  - intros ck docs st w res w' H.
    exact (proj2 (@dry_main_loop lower to_int cfg docs dry ck docs
                                 (@incl_refl _ docs) st w res w' H)).
  - intros. now apply safe_post_dry.
  - intros. now apply safe_put_dry.
Qed.

Lemma dry_run_frame_witness :
  let w := world_of [Reply books_listing; Reply deep_work_listing] [] true true in
  let w' := snd (main ascii_lower ascii_int cfg_dry [deep_work_doc] w) in
  vault_file w' = vault_file w /\ local_file w' = local_file w /\
  exists evs, trace w' = trace w ++ evs /\ read_only evs = true.
Proof.
  intros w w'.
  apply (proj1 (@dry_run_frame ascii_lower ascii_int cfg_dry eq_refl) [deep_work_doc] w
               (fst (main ascii_lower ascii_int cfg_dry [deep_work_doc] w)) w').
  apply surjective_pairing.
Defined.

(** C2 as stated fails for the journal in memory: a simulated run that finds
    the parent record caches its key under [_items] (line 221) and inserts an
    empty list for the title (line 364). *)
Lemma dry_run_changes_journal_in_memory :
  let w := world_of [Reply books_listing; Reply deep_work_listing] [] true true in
  let out := main ascii_lower ascii_int cfg_dry [deep_work_doc] w in
  fst (load_sent_log w) = Ok empty_log /\
  fst out = Ok tt /\
  sent_log (snd out) =
    [(lit "_items", VDict [(lit "deep work", parent_key)]);
     (lit "_done_titles", VList []);
     (deep_work, VList [])] /\
  sent_log (snd out) <> empty_log.
Proof. vm_compute. repeat split; try reflexivity. discriminate. Qed.

(* ------------------------------------------------------------------ *)
(** ** Two whole runs *)
(* ------------------------------------------------------------------ *)

(** A first live run on "Deep Work" with no journal and no parent in the
    store: one parent and one note are created and the journal is saved with
    the key, the done title and the fingerprint. *)
Example first_live_run :
  let w := world_of [Reply books_listing; Reply empty_listing; Reply created_with_key;
                     Reply item_answer; Reply (status_only 204); Reply (status_only 200)]
                    [] true true in
  let out := main ascii_lower ascii_int cfg_live [deep_work_doc] w in
  fst out = Ok tt /\
  vault_file (snd out) = Stored (VDict deep_work_log) /\
  List.length (posted (trace (snd out))) = 2%nat.
Proof. vm_compute. repeat split; reflexivity. Qed.

(** The next live run, from the saved journal: the document is skipped and
    only the collection is looked up. *)
Example second_live_run :
  let w := mkWorld [Reply books_listing] UiSendNow (Stored (VDict deep_work_log)) Missing
                   true true [] [] in
  let out := main ascii_lower ascii_int cfg_live [deep_work_doc] w in
  fst out = Ok tt /\
  trace (snd out) =
    [EPrint (MConfig false); EPrint MDebugAlert; EPrint (MFound 1);
     EGet UCollections [(lit "q", VStr (lit "Books")); (lit "limit", VInt 100)];
     EPrint (MSkipCompleted deep_work); EPrint (MDone 1 0)].
Proof. vm_compute. repeat split; reflexivity. Qed.

(* ================================================================== *)
(** * Further properties of the script *)
(* ================================================================== *)

(* ------------------------------------------------------------------ *)
(** ** Normalizer *)
(* ------------------------------------------------------------------ *)

(** X1. A normalised title holds none of the deleted punctuation and is in
    canonical whitespace form: splitting it on whitespace and joining the
    words with single spaces gives it back, so it has no leading, trailing
    or repeated blanks. *)
Theorem normalize_title_canonical (lower : pystr -> pystr) (s : pystr) :
  (forall c, In c (normalize_title lower s) -> is_title_punct c = false) /\
  str_join [space] (str_split (normalize_title lower s)) = normalize_title lower s.
Proof.
  destruct s as [|c0 s0]; [split; [intros c [] | reflexivity]|].
  unfold normalize_title. split.
  - intros c Hc. apply normalized_chars in Hc as [->|[_ Hc]]; [reflexivity | exact Hc].
  - f_equal. apply split_join, split_wordlike.
Qed.

Section AuthorFacts.

Variable lower : pystr -> pystr.

Hypothesis lower_stable :
  forall s t, (forall c, In c t -> c = space \/ In c (lower s)) -> lower t = t.

Lemma lower_idempotent s : lower (lower s) = lower s.
Proof. apply (lower_stable s). intros c Hc. now right. Qed.

(** X2. Author normalisation is idempotent. *)
Theorem normalize_author_idempotent (s : pystr) :
  normalize_author lower (normalize_author lower s) = normalize_author lower s.
Proof.
  destruct s as [|c0 s0]; [reflexivity|].
  unfold normalize_author at 2 3.
  set (s := c0 :: s0). set (ws := str_split (lower s)).
  destruct (str_join [space] ws) as [|x n1] eqn:E; [reflexivity|].
  unfold normalize_author. rewrite <- E.
  assert (Hl : lower (str_join [space] ws) = str_join [space] ws).
  { apply (lower_stable s). intros c Hc.
    apply join_chars in Hc as [->|(w & Hw & Hc)]; [now left|].
    right. exact (split_chars _ _ _ Hw Hc). }
  rewrite Hl. f_equal. apply split_join, split_wordlike.
Qed.

(** X3. Normalisation does not see case: a title and its lower-cased form
    normalise to the same key. *)
Theorem normalize_title_ignores_case (s : pystr) :
  normalize_title lower (lower s) = normalize_title lower s.
Proof.
  unfold normalize_title.
  destruct s as [|c0 s0].
  - assert (H : lower [] = []) by (apply (lower_stable []); intros c1 []).
    now rewrite H.
  - destruct (lower (c0 :: s0)) as [|c l] eqn:E.
    + reflexivity.
    + rewrite <- E, lower_idempotent. reflexivity.
Qed.

End AuthorFacts.

Lemma normalize_author_idempotent_witness :
  normalize_author ascii_lower (normalize_author ascii_lower (lit " Cal   NEWPORT "))
  = normalize_author ascii_lower (lit " Cal   NEWPORT ").
Proof. apply (@normalize_author_idempotent ascii_lower ascii_lower_stable). Defined.

Lemma normalize_title_ignores_case_witness :
  normalize_title ascii_lower (ascii_lower (lit "Deep WORK!"))
  = normalize_title ascii_lower (lit "Deep WORK!").
Proof. apply (@normalize_title_ignores_case ascii_lower ascii_lower_stable). Defined.

(* ------------------------------------------------------------------ *)
(** ** Fingerprints *)
(* ------------------------------------------------------------------ *)

Lemma le_bytes_length n x : List.length (le_bytes n x) = n.
Proof. unfold le_bytes. now rewrite length_map, length_seq. Qed.

Lemma le_bytes_range n x b : In b (le_bytes n x) -> (0 <= b < 256)%Z.
Proof.
  unfold le_bytes. intro H. apply in_map_iff in H as (i & <- & _).
  change 255%Z with (Z.ones 8). rewrite Z.land_ones by lia.
  apply Z.mod_pos_bound. reflexivity.
Qed.

Lemma md5_length msg : List.length (md5 msg) = 16%nat.
Proof. unfold md5. cbv zeta. now rewrite !length_app, !le_bytes_length. Qed.

Lemma md5_range msg b : In b (md5 msg) -> (0 <= b < 256)%Z.
Proof.
  unfold md5. cbv zeta. intro H.
  repeat (apply in_app_or in H as [H|H]; [now apply le_bytes_range in H|]).
  now apply le_bytes_range in H.
Qed.

Lemma hex_digit_is_hex n : (0 <= n < 16)%Z -> is_hex (hex_digit n) = true.
Proof.
  intro H. unfold hex_digit, is_hex.
  destruct (Z.ltb_spec n 10).
  - apply orb_true_iff. left. apply andb_true_iff. split; apply N.leb_le; lia.
  - apply orb_true_iff. right. apply andb_true_iff. split; apply N.leb_le; lia.
Qed.

Lemma hex_of_bytes_length bs : List.length (hex_of_bytes bs) = (2 * List.length bs)%nat.
Proof.
  unfold hex_of_bytes. induction bs as [|b bs IH]; [reflexivity|].
  cbn [flat_map List.length app]. rewrite IH. lia.
Qed.

Lemma hex_of_bytes_is_hex bs :
  (forall b, In b bs -> (0 <= b < 256)%Z) -> forallb is_hex (hex_of_bytes bs) = true.
Proof.
  unfold hex_of_bytes. induction bs as [|b bs IH]; intro H; [reflexivity|].
  cbn [flat_map app forallb].
  assert (Hb : (0 <= b < 256)%Z) by (apply H; now left).
  rewrite !hex_digit_is_hex, IH; [reflexivity | intros; apply H; now right | |].
  - change 15%Z with (Z.ones 4). rewrite Z.land_ones by lia.
    apply Z.mod_pos_bound. reflexivity.
  - rewrite Z.shiftr_div_pow2 by lia. change (2 ^ 4)%Z with 16%Z.
    split; [apply Z.div_pos; lia | apply Z.div_lt_upper_bound; lia].
Qed.

(** X4. Every fingerprint is a string of exactly 32 lower-case hexadecimal
    digits, whatever the highlight. *)
Theorem highlight_hash_shape (h : Highlight) :
  List.length (highlight_hash h) = 32%nat /\
  forallb is_hex (highlight_hash h) = true.
Proof.
  unfold highlight_hash, md5_hexdigest. split.
  - now rewrite hex_of_bytes_length, md5_length.
  - apply hex_of_bytes_is_hex. apply md5_range.
Qed.

(* ------------------------------------------------------------------ *)
(** ** Reasoning about runs *)
(* ------------------------------------------------------------------ *)

Lemma bind_ok_inv {A B} (m : M A) (f : A -> M B) w b w' :
  bind m f w = (Ok b, w') ->
  exists a w1, m w = (Ok a, w1) /\ f a w1 = (Ok b, w').
Proof.
  unfold bind. destruct (m w) as [[a|e] w1]; [eauto | discriminate].
Qed.

Lemma bind_inv {A B} (m : M A) (f : A -> M B) w res w' :
  bind m f w = (res, w') ->
  (exists a w1, m w = (Ok a, w1) /\ f a w1 = (res, w')) \/
  (exists e, m w = (Raise e, w') /\ res = Raise e).
Proof.
  unfold bind. destruct (m w) as [[a|e] w1]; intro H; [left; eauto|].
  injection H as <- <-. right. eauto.
Qed.

Section TraceAdds.

Variable P : event -> bool.

Lemma trace_adds_refl w : trace_adds P w w.
Proof. exists []. now rewrite app_nil_r. Qed.

Lemma trace_adds_trans a b c : trace_adds P a b -> trace_adds P b c -> trace_adds P a c.
Proof.
  intros (e1 & T1 & F1) (e2 & T2 & F2). exists (e1 ++ e2).
  split; [now rewrite T2, T1, app_assoc | now rewrite forallb_app, F1, F2].
Qed.

Lemma adds_bind {A B} (m : M A) (f : A -> M B) :
  preserves (trace_adds P) m -> (forall a, preserves (trace_adds P) (f a)) ->
  preserves (trace_adds P) (bind m f).
Proof. apply preserves_bind, trace_adds_trans. Qed.

Lemma adds_emit e : P e = true -> preserves (trace_adds P) (emit e).
Proof.
  intros He w res w' H. injection H as _ <-. exists [e]. simpl. now rewrite He.
Qed.

Lemma adds_next_reply : preserves (trace_adds P) next_reply.
Proof.
  intros w res w'. unfold next_reply.
  destruct (net w) as [|[r|] rest]; intro H; injection H as _ <-;
    exists []; now rewrite app_nil_r.
Qed.

Lemma adds_put_log log : preserves (trace_adds P) (put_log log).
Proof. intros w res w' H. injection H as _ <-. exists []. now rewrite app_nil_r. Qed.

Lemma adds_load : preserves (trace_adds P) load_sent_log.
Proof.
  intros w res w'. unfold load_sent_log.
  match goal with |- context [match ?d with VDict _ => _ | _ => _ end] => destruct d end;
    intro H; injection H as _ <-; apply trace_adds_refl.
Qed.

End TraceAdds.

(** One step of a proof that a computation adds only events of a kind. *)
Ltac adds_step :=
  match goal with
  | |- preserves (trace_adds _) (bind _ _) => apply adds_bind; [|intro]
  | |- preserves (trace_adds _) (ret _) => apply preserves_ret, trace_adds_refl
  | |- preserves (trace_adds _) (raise _) => apply preserves_raise, trace_adds_refl
  | |- preserves (trace_adds _) (lift _) => apply preserves_lift, trace_adds_refl
  | |- preserves (trace_adds _) get_log => apply preserves_get_log, trace_adds_refl
  | |- preserves (trace_adds _) (put_log _) => apply adds_put_log
  | |- preserves (trace_adds _) next_reply => apply adds_next_reply
  | |- preserves (trace_adds _) load_sent_log => apply adds_load
  | |- preserves (trace_adds _) (emit _) => apply adds_emit; reflexivity
  | |- preserves (trace_adds _) (print _) => apply adds_emit; reflexivity
  | |- preserves (trace_adds _) (sleep _) => apply adds_emit; reflexivity
  | |- preserves (trace_adds _) (requests_get _ _) => unfold requests_get
  | |- preserves (trace_adds _) (session_post _ _) => unfold session_post
  | |- preserves (trace_adds _) (session_put _ _ _) => unfold session_put
  | |- preserves (trace_adds _) (cache_item _ _) => unfold cache_item
  | |- preserves (trace_adds _) (log_append _ _) => unfold log_append
  | |- preserves (trace_adds _) (safe_post _ _ _) => unfold safe_post
  | |- preserves (trace_adds _) (safe_put _ _ _ _) => unfold safe_put
  | |- preserves (trace_adds _) (let _ := _ in _) => cbv zeta
  | |- preserves (trace_adds _) (if ?b then _ else _) => destruct b
  | |- preserves (trace_adds _) (match ?x with _ => _ end) => destruct x
  end.

Ltac adds := repeat adds_step.

(* ------------------------------------------------------------------ *)
(** ** The resolver *)
(* ------------------------------------------------------------------ *)

Section Resolver.

Variable lower : pystr -> pystr.
Variable to_int : pystr -> option Z.
Variable cfg : Config.

(** X5. The matching loop is sound: a key it returns is the key of a record
    of the listing whose normalised title is the one looked for and, when an
    author is wanted, whose normalised author last names contain it. *)
Theorem match_loop_sound (want_title want_author : pystr) (items : list pyval) (key : pyval) :
  match_loop lower want_title want_author items = Ok (Some key) ->
  exists it,
    In it items /\
    record_title lower it = Ok want_title /\
    record_key it = Ok key /\
    (want_author = [] \/
     exists names, record_authors lower it = Ok names /\ contains names want_author = true).
Proof.
  induction items as [|it rest IH]; [discriminate|].
  cbn [match_loop]. intro H.
  assert (Hrest : match_loop lower want_title want_author rest = Ok (Some key) ->
                  exists it0, In it0 (it :: rest) /\
                    record_title lower it0 = Ok want_title /\
                    record_key it0 = Ok key /\
                    (want_author = [] \/
                     exists names, record_authors lower it0 = Ok names /\
                                   contains names want_author = true)).
  { intro H'. destruct (IH H') as (it0 & Hin & Hprops).
    exists it0. split; [now right | exact Hprops]. }
  destruct (as_dict it) as [itd|e] eqn:Ei; cbn [exc_bind] in H; [|discriminate].
  destruct (as_dict (dict_get_default itd (lit "data") it)) as [data|e] eqn:Ed;
    cbn [exc_bind] in H; [|discriminate].
  destruct (normalize_title_val lower (dict_get_default data (lit "title") (VStr [])))
    as [got|e] eqn:Et; cbn [exc_bind] in H; [|discriminate].
  destruct (str_eqb got want_title) eqn:Eq; cbn [negb] in H; [|now apply Hrest].
  apply str_eqb_eq in Eq. subst got.
  assert (Ht : record_title lower it = Ok want_title).
  { unfold record_title, record_data. rewrite Ei. cbn [exc_bind]. rewrite Ed.
    cbn [exc_bind]. exact Et. }
  assert (Hk : record_key it = Ok (dict_get data (lit "key"))).
  { unfold record_key, record_data. rewrite Ei. cbn [exc_bind]. now rewrite Ed. }
  destruct want_author as [|a wa].
  - injection H as <-. exists it. split; [now left|]. auto.
  - destruct (py_iter (dict_get_default data (lit "creators") (VList [])))
      as [creators|e] eqn:Ec; cbn [exc_bind] in H; [|discriminate].
    destruct (author_last_names creators) as [names|e] eqn:En;
      cbn [exc_bind] in H; [|discriminate].
    destruct (join_names names) as [strs|e] eqn:Es; cbn [exc_bind] in H; [|discriminate].
    destruct (contains (normalize_author lower (str_join [space] strs)) (a :: wa)) eqn:Ea;
      cbn [negb] in H; [|now apply Hrest].
    injection H as <-. exists it. split; [now left|].
    split; [exact Ht|]. split; [exact Hk|]. right.
    exists (normalize_author lower (str_join [space] strs)). split; [|exact Ea].
    unfold record_authors, record_data. rewrite Ei. cbn [exc_bind]. rewrite Ed.
    cbn [exc_bind]. rewrite Ec. cbn [exc_bind]. rewrite En. cbn [exc_bind].
    now rewrite Es.
Qed.

(** X6. When the journal holds a key for the normalised title, the parent
    is resolved from the cache: the key is returned and the world is left
    exactly as it was, with no request sent, in either run mode. *)
Theorem cached_parent_needs_no_request (title : pystr) (author : option pystr)
  (collection_key : pyval) (dry_run : bool) (k : pyval) (w : World) :
  cached_key (sent_log w) (normalize_title lower title) = Ok k ->
  truthy k = true ->
  search_item_by_title lower title author w = (Ok k, w) /\
  find_or_create_book_item lower to_int cfg title author collection_key dry_run w = (Ok k, w).
Proof.
  intros Hc Hk.
  assert (Hs : search_item_by_title lower title author w = (Ok k, w)).
  { unfold search_item_by_title, cached_key in *.
    unfold bind at 1. unfold get_log at 1. unfold bind at 1. unfold lift at 1.
    destruct (as_dict (dict_get_default (sent_log w) (lit "_items") (VDict [])))
      as [items|e]; cbn [exc_bind] in Hc; [|discriminate].
    injection Hc as Hc. now rewrite Hc, Hk. }
  split; [exact Hs|].
  unfold find_or_create_book_item. unfold bind at 1. now rewrite Hs, Hk.
Qed.

Lemma cached_key_after_cache_item k v w res w' :
  cache_item k v w = (res, w') ->
  res = Ok tt ->
  cached_key (sent_log w') k = Ok v.
Proof.
  unfold cache_item, bind, get_log.
  destruct (dict_lookup (sent_log w) (lit "_items")) as [[| | | | |items]|];
    intros H Hr; injection H as <- <-; try discriminate.
  cbn [sent_log]. unfold cached_key, dict_get_default.
  rewrite dict_lookup_set_same. cbn [as_dict exc_bind].
  unfold dict_get, dict_get_default. now rewrite dict_lookup_set_same.
Qed.

Lemma caches_match_listing r title author :
  caches lower title (match_listing lower r title author).
Proof.
  intros w key w' H Hk. unfold match_listing in H.
  apply bind_ok_inv in H as (body & w1 & H1 & H).
  apply bind_ok_inv in H as (items & w2 & H2 & H).
  apply bind_ok_inv in H as (found & w3 & H3 & H).
  destruct found as [key0|].
  - apply bind_ok_inv in H as ([] & w4 & H4 & H).
    injection H as <- <-. eapply cached_key_after_cache_item; [exact H4 | reflexivity].
  - injection H as <- _. discriminate.
Qed.

Lemma caches_search title author :
  caches lower title (search_item_by_title lower title author).
Proof.
  intros w key w' H Hk. unfold search_item_by_title in H.
  apply bind_ok_inv in H as (cache & w1 & H1 & H). injection H1 as <- <-.
  apply bind_ok_inv in H as (items & w2 & H2 & H).
  unfold lift in H2. injection H2 as H2 <-.
  destruct (truthy (dict_get items (normalize_title lower title))) eqn:Ec.
  - injection H as <- <-. unfold cached_key. now rewrite H2.
  - apply bind_ok_inv in H as (r & w3 & H3 & H).
    destruct (negb (Z.eqb (status_code r) 200)).
    + injection H as <- _. discriminate.
    + eapply caches_match_listing; eassumption.
Qed.

Lemma caches_fetch title author lmv :
  caches lower title (fetch_recent_and_match lower to_int title author lmv).
Proof.
  intros w key w' H Hk. unfold fetch_recent_and_match in H.
  apply bind_ok_inv in H as (r & w3 & H3 & H).
  destruct (negb (Z.eqb (status_code r) 200)).
  - injection H as <- _. discriminate.
  - eapply caches_match_listing; eassumption.
Qed.

Lemma caches_recover attempts title author lmv :
  caches lower title (recover_key lower to_int attempts title author lmv).
Proof.
  induction attempts as [|a rest IH]; intros w key w' H Hk; cbn [recover_key] in H.
  - apply bind_ok_inv in H as ([] & w1 & _ & H). injection H as <- _. discriminate.
  - apply bind_ok_inv in H as ([] & w1 & _ & H).
    apply bind_ok_inv in H as (k1 & w2 & H2 & H).
    destruct (truthy k1) eqn:Ek.
    + injection H as <- <-. eapply caches_fetch; eassumption.
    + eapply IH; eassumption.
Qed.

(** X7. Every parent key the resolver returns is in the cache afterwards:
    whenever [find_or_create_book_item] returns a truthy key, found by
    search, extracted from the creation answer or recovered from a listing,
    the journal holds it under the normalised title. *)
Theorem resolved_key_is_cached (title : pystr) (author : option pystr)
  (collection_key : pyval) (dry_run : bool) (key : pyval) (w w' : World) :
  find_or_create_book_item lower to_int cfg title author collection_key dry_run w = (Ok key, w') ->
  truthy key = true ->
  cached_key (sent_log w') (normalize_title lower title) = Ok key.
Proof.
  intros H Hk. unfold find_or_create_book_item in H.
  apply bind_ok_inv in H as (k0 & w1 & H1 & H).
  destruct (truthy k0) eqn:E0.
  - injection H as <- <-. eapply caches_search; eassumption.
  - destruct dry_run.
    + apply bind_ok_inv in H as ([] & w2 & _ & H). injection H as <- _. discriminate.
    + apply bind_ok_inv in H as (r & w2 & H2 & H).
      apply bind_ok_inv in H as ([] & w3 & H3 & H).
      destruct (negb (ok_created (status_code r))).
      * apply bind_ok_inv in H as ([] & w4 & _ & H). injection H as <- _. discriminate.
      * apply bind_ok_inv in H as (ck & w4 & H4 & H).
        destruct (truthy ck) eqn:Eck.
        -- apply bind_ok_inv in H as ([] & w5 & H5 & H). injection H as <- <-.
           eapply cached_key_after_cache_item; [exact H5 | reflexivity].
        -- eapply caches_recover; eassumption.
Qed.

End Resolver.

Lemma match_loop_sound_witness :
  exists it,
    In it [deep_work_record] /\
    record_title ascii_lower it = Ok (lit "deep work") /\
    record_key it = Ok parent_key /\
    (lit "cal newport" = [] \/
     exists names, record_authors ascii_lower it = Ok names /\
                   contains names (lit "cal newport") = true).
Proof.
  apply (@match_loop_sound ascii_lower (lit "deep work") (lit "cal newport")
           [deep_work_record] parent_key).
  reflexivity.
Defined.

Lemma cached_parent_needs_no_request_witness :
  let w := world_of [] deep_work_log true true in
  search_item_by_title ascii_lower deep_work (Some cal_newport) w = (Ok parent_key, w) /\
  find_or_create_book_item ascii_lower ascii_int cfg_live deep_work (Some cal_newport) VNone false w
  = (Ok parent_key, w).
Proof.
  apply (@cached_parent_needs_no_request ascii_lower ascii_int cfg_live deep_work (Some cal_newport)
           VNone false parent_key (world_of [] deep_work_log true true));
    reflexivity.
Defined.

Lemma resolved_key_is_cached_witness :
  cached_key
    (sent_log (snd (find_or_create_book_item ascii_lower ascii_int cfg_live deep_work
                      (Some cal_newport) VNone false
                      (world_of [Reply empty_listing; Reply created_with_key]
                                empty_log true true))))
    (normalize_title ascii_lower deep_work) = Ok parent_key.
Proof.
  apply (@resolved_key_is_cached ascii_lower ascii_int cfg_live deep_work (Some cal_newport)
           VNone false parent_key
           (world_of [Reply empty_listing; Reply created_with_key] empty_log true true));
    reflexivity.
Defined.

(* ------------------------------------------------------------------ *)
(** ** Counting requests *)
(* ------------------------------------------------------------------ *)

Lemma count_app Q evs1 evs2 : count Q (evs1 ++ evs2) = (count Q evs1 + count Q evs2)%nat.
Proof. unfold count. now rewrite filter_app, length_app. Qed.

Lemma count_quiet Q evs : forallb (fun e => negb (Q e)) evs = true -> count Q evs = 0%nat.
Proof.
  unfold count. induction evs as [|e evs IH]; [reflexivity|].
  simpl. intro H. apply andb_true_iff in H as [He H].
  apply negb_true_iff in He. rewrite He. now apply IH.
Qed.

Lemma posted_count evs : List.length (posted evs) = count is_post evs.
Proof.
  unfold count. induction evs as [|e evs IH]; [reflexivity|].
  destruct e; simpl; now rewrite ?IH.
Qed.

Lemma amo_of_quiet Q {A} (m : M A) : preserves (quiet Q) m -> at_most_one Q m.
Proof.
  intros Hm w res w' H. destruct (Hm _ _ _ H) as (evs & T & F).
  exists evs. split; [exact T|]. rewrite count_quiet by exact F. lia.
Qed.

Lemma amo_bind_l Q {A B} (m : M A) (f : A -> M B) :
  at_most_one Q m -> (forall a, preserves (quiet Q) (f a)) -> at_most_one Q (bind m f).
Proof.
  intros Hm Hf w res w' H. apply bind_inv in H as [(a & w1 & H1 & H2)|(e & H1 & _)].
  - destruct (Hm _ _ _ H1) as (evs1 & T1 & C1).
    destruct (Hf a _ _ _ H2) as (evs2 & T2 & F2).
    exists (evs1 ++ evs2). split; [now rewrite T2, T1, app_assoc|].
    rewrite count_app, (count_quiet _ _ F2). lia.
  - exact (Hm _ _ _ H1).
Qed.

Lemma amo_bind_r Q {A B} (m : M A) (f : A -> M B) :
  preserves (quiet Q) m -> (forall a, at_most_one Q (f a)) -> at_most_one Q (bind m f).
Proof.
  intros Hm Hf w res w' H. apply bind_inv in H as [(a & w1 & H1 & H2)|(e & H1 & _)].
  - destruct (Hm _ _ _ H1) as (evs1 & T1 & F1).
    destruct (Hf a _ _ _ H2) as (evs2 & T2 & C2).
    exists (evs1 ++ evs2). split; [now rewrite T2, T1, app_assoc|].
    rewrite count_app, (count_quiet _ _ F1). lia.
  - apply (amo_of_quiet Hm _ H1).
Qed.

Lemma amo_emit_next Q e : at_most_one Q (bind (emit e) (fun _ => next_reply)).
Proof.
  intros w res w' H. unfold bind, emit, next_reply in H. cbn [net] in H.
  exists [e]. split.
  - destruct (net w) as [|[r|] rest]; injection H as _ <-; reflexivity.
  - unfold count. simpl. destruct (Q e); simpl; lia.
Qed.

Section Requests.

Variable lower : pystr -> pystr.
Variable to_int : pystr -> option Z.
Variable cfg : Config.

Lemma quiet_match_listing Q r title author :
  preserves (quiet Q) (match_listing lower r title author).
Proof. unfold match_listing, quiet. adds. Qed.

Lemma quiet_search title author :
  preserves (quiet is_post) (search_item_by_title lower title author).
Proof.
  unfold search_item_by_title, quiet.
  do 2 (apply adds_bind; [adds | intro]).
  destruct (truthy _); [adds|].
  apply adds_bind; [adds | intro].
  destruct (negb _); [adds | apply quiet_match_listing].
Qed.

Lemma quiet_fetch title author lmv :
  preserves (quiet is_post) (fetch_recent_and_match lower to_int title author lmv).
Proof.
  unfold fetch_recent_and_match, quiet.
  apply adds_bind; [adds | intro].
  destruct (negb _); [adds | apply quiet_match_listing].
Qed.

Lemma quiet_recover attempts title author lmv :
  preserves (quiet is_post) (recover_key lower to_int attempts title author lmv).
Proof.
  induction attempts as [|a rest IH]; cbn [recover_key]; unfold quiet in *; [adds|].
  apply adds_bind; [adds | intro].
  apply adds_bind; [apply quiet_fetch | intro key].
  destruct (truthy key); [adds | exact IH].
Qed.

Lemma amo_safe_post u payload : at_most_one is_post (safe_post cfg u payload).
Proof.
  unfold safe_post. destruct (DRY_RUN cfg).
  - apply amo_of_quiet. unfold quiet. adds.
  - apply amo_emit_next.
Qed.

Lemma quiet_post_find_collection name :
  preserves (quiet is_post) (find_collection name).
Proof. unfold find_collection, quiet. adds. Qed.

(** X8. Whatever the store answers and in either run mode, resolving a
    parent sends at most one create call: the search, the extraction and the
    recovery listings never post, so a parent is never created twice for one
    document. *)
Theorem resolver_posts_at_most_once (title : pystr) (author : option pystr)
  (collection_key : pyval) (dry_run : bool) (w : World) :
  exists evs,
    trace (snd (find_or_create_book_item lower to_int cfg title author collection_key dry_run w))
    = trace w ++ evs /\
    (List.length (posted evs) <= 1)%nat /\
    (dry_run = true -> posted evs = []).
Proof.
  destruct (find_or_create_book_item lower to_int cfg title author collection_key dry_run w)
    as [res w'] eqn:H. cbn [snd].
  assert (Hq : dry_run = true ->
               preserves (quiet is_post)
                 (find_or_create_book_item lower to_int cfg title author collection_key dry_run)).
  { intros ->. unfold find_or_create_book_item, quiet.
    apply adds_bind; [apply quiet_search | intro]. adds. }
  assert (Ha : at_most_one is_post
                 (find_or_create_book_item lower to_int cfg title author collection_key dry_run)).
  { unfold find_or_create_book_item.
    apply amo_bind_r; [apply quiet_search | intro key].
    destruct (truthy key); [apply amo_of_quiet; unfold quiet; adds|].
    destruct dry_run; [apply amo_of_quiet; unfold quiet; adds|].
    apply amo_bind_l; [apply amo_safe_post | intro r].
    unfold quiet. apply adds_bind; [adds | intro].
    destruct (negb _); [adds|].
    apply adds_bind; [adds | intro ck].
    destruct (truthy ck); [adds | apply quiet_recover]. }
  destruct (Ha _ _ _ H) as (evs & T & C).
  exists evs. split; [exact T|]. split; [now rewrite posted_count|].
  intro Hd. destruct (Hq Hd _ _ _ H) as (evs' & T' & F').
  rewrite T in T'. apply app_inv_head in T'. subst evs'.
  apply count_quiet in F'. rewrite <- posted_count in F'.
  now destruct (posted evs).
Qed.

(** X9. Finding or creating the collection sends at most one create call,
    and none at all when asked for a dry run. *)
Theorem collection_posts_at_most_once (name : pystr) (dry_run : bool) (w : World) :
  exists evs,
    trace (snd (get_or_create_collection cfg name dry_run w)) = trace w ++ evs /\
    (List.length (posted evs) <= 1)%nat /\
    (dry_run = true -> posted evs = []).
Proof.
  destruct (get_or_create_collection cfg name dry_run w) as [res w'] eqn:H. cbn [snd].
  assert (Hq : dry_run = true ->
               preserves (quiet is_post) (get_or_create_collection cfg name dry_run)).
  { intros ->. unfold get_or_create_collection, quiet.
    apply adds_bind; [apply quiet_post_find_collection | intro]. adds. }
  assert (Ha : at_most_one is_post (get_or_create_collection cfg name dry_run)).
  { unfold get_or_create_collection.
    apply amo_bind_r; [apply quiet_post_find_collection | intro found].
    destruct found; [apply amo_of_quiet; unfold quiet; adds|].
    destruct dry_run; [apply amo_of_quiet; unfold quiet; adds|].
    apply amo_bind_l; [apply amo_safe_post | intro r].
    unfold quiet. apply adds_bind.
    - destruct (ok_created _); [apply quiet_post_find_collection | adds].
    - intro again. adds. }
  destruct (Ha _ _ _ H) as (evs & T & C).
  exists evs. split; [exact T|]. split; [now rewrite posted_count|].
  intro Hd. destruct (Hq Hd _ _ _ H) as (evs' & T' & F').
  rewrite T in T'. apply app_inv_head in T'. subst evs'.
  apply count_quiet in F'. rewrite <- posted_count in F'.
  now destruct (posted evs).
Qed.

End Requests.

(* ------------------------------------------------------------------ *)
(** ** The recovery loop and collection membership *)
(* ------------------------------------------------------------------ *)

Lemma forallb_no_event evs : forallb no_event evs = true -> evs = [].
Proof. destruct evs; [reflexivity | discriminate]. Qed.

Section Recovering.

Variable lower : pystr -> pystr.
Variable to_int : pystr -> option Z.
Variable cfg : Config.

Lemma silent_match_listing r title author :
  preserves (trace_adds no_event) (match_listing lower r title author).
Proof. unfold match_listing. adds. Qed.

Lemma requests_get_trace u params w res w1 :
  requests_get u params w = (res, w1) -> trace w1 = trace w ++ [EGet u params].
Proof.
  unfold requests_get, bind, emit, next_reply. cbn [net trace].
  destruct (net w) as [|[r|] rest]; intro H; now injection H as _ <-.
Qed.

(** One recovery listing is one GET, whether it returns or raises. *)
Lemma fetch_trace title author lmv w res w' :
  fetch_recent_and_match lower to_int title author lmv w = (res, w') ->
  trace w' = trace w ++ [EGet UItems (recent_params (since_of to_int lmv))].
Proof.
  unfold fetch_recent_and_match. intro H.
  apply bind_inv in H as [(r & w1 & H1 & H2)|(e & H1 & _)];
    apply requests_get_trace in H1; [|exact H1].
  destruct (negb (Z.eqb (status_code r) 200)).
  - injection H2 as _ <-. exact H1.
  - destruct (@silent_match_listing r title author _ _ _ H2) as (evs & T & F).
    apply forallb_no_event in F. subst evs. rewrite app_nil_r in T. congruence.
Qed.

Lemma backoff_total_nonneg attempts :
  Forall (fun a => 0 <= a)%Z attempts -> (0 <= backoff_total attempts)%Z.
Proof. unfold backoff_total. induction 1; cbn [fold_right]; lia. Qed.

Lemma recover_key_bounded attempts title author lmv :
  Forall (fun a => 0 <= a)%Z attempts ->
  forall w res w',
    recover_key lower to_int attempts title author lmv w = (res, w') ->
    exists evs,
      trace w' = trace w ++ evs /\
      posted evs = [] /\
      (count is_get evs <= List.length attempts)%nat /\
      (0 <= slept evs <= backoff_total attempts)%Z.
Proof.
  unfold backoff_total.
  induction 1 as [|a rest Ha Hrest IH]; intros w res w' H; cbn [recover_key] in H.
  - unfold bind, print, emit, ret in H. injection H as _ <-.
    exists [EPrint MKeyNotRecovered]. split; [reflexivity|].
    unfold count. cbn [posted filter is_get List.length slept fold_right app]. repeat split; lia.
  - pose proof (backoff_total_nonneg Hrest) as Hb. unfold backoff_total in Hb.
    unfold bind at 1 in H. unfold sleep at 1, emit at 1 in H.
    apply bind_inv in H as [(key & w2 & H1 & H2)|(e & H1 & _)];
      apply fetch_trace in H1; cbn [trace] in H1; rewrite <- app_assoc in H1.
    + destruct (truthy key).
      * injection H2 as _ <-. eexists. split; [exact H1|].
        unfold count. cbn [posted filter is_get List.length slept fold_right app]. repeat split; lia.
      * destruct (IH _ _ _ H2) as (evs & T & Pn & Cg & Sl).
        exists ([ESleep (1 + a); EGet UItems (recent_params (since_of to_int lmv))] ++ evs).
        split; [now rewrite T, H1, <- app_assoc|].
        unfold count in *. cbn [posted filter is_get List.length slept fold_right app].
        repeat split; try assumption; lia.
    + eexists. split; [exact H1|].
      unfold count. cbn [posted filter is_get List.length slept fold_right app]. repeat split; lia.
Qed.

(** X10. The key recovery is bounded whatever the store answers: it sends
    at most three listing requests and no create call, and waits at most six
    seconds in all. *)
Theorem recovery_is_bounded (title : pystr) (author : option pystr)
  (lmv : option pystr) (w : World) :
  exists evs,
    trace (snd (recover_key lower to_int [0; 1; 2]%Z title author lmv w)) = trace w ++ evs /\
    posted evs = [] /\
    (count is_get evs <= 3)%nat /\
    (0 <= slept evs <= 6)%Z.
Proof.
  destruct (recover_key lower to_int [0; 1; 2]%Z title author lmv w) as [res w'] eqn:H.
  cbn [snd]. apply recover_key_bounded in H; [exact H|].
  repeat constructor; lia.
Qed.

End Recovering.

Section Membership.

Variable cfg : Config.

Lemma amo_safe_put u headers payload : at_most_one is_put (safe_put cfg u headers payload).
Proof.
  unfold safe_put. destruct (DRY_RUN cfg).
  - apply amo_of_quiet. unfold quiet. adds.
  - apply amo_emit_next.
Qed.

(** One step of a proof that a computation adds at most one event of a
    kind: the event sits in one part of a bind, the other part is quiet. *)
Ltac amo_step :=
  match goal with
  | |- at_most_one _ (safe_put _ _ _ _) => apply amo_safe_put
  | |- at_most_one _ (if ?b then _ else _) => destruct b
  | |- at_most_one _ (match ?x with _ => _ end) => destruct x
  | |- at_most_one _ (let _ := _ in _) => cbv zeta
  | |- at_most_one _ (bind _ _) =>
      first [ apply amo_bind_r; [solve [unfold quiet; adds] | intro]
            | apply amo_bind_l; [| intro; solve [unfold quiet; adds]] ]
  | |- at_most_one _ _ => apply amo_of_quiet; solve [unfold quiet; adds]
  end.

(** X11. Putting an item into the collection never creates anything and
    writes at most once: whatever the store answers, the function sends no
    POST and at most one PUT, and no PUT at all when asked for a dry run. *)
Theorem membership_writes_at_most_once (item_key collection_key : pyval) (dry_run : bool)
  (w : World) :
  exists evs,
    trace (snd (ensure_item_in_collection cfg item_key collection_key dry_run w))
    = trace w ++ evs /\
    posted evs = [] /\
    (count is_put evs <= 1)%nat /\
    (dry_run = true -> count is_put evs = 0%nat).
Proof.
  destruct (ensure_item_in_collection cfg item_key collection_key dry_run w)
    as [res w'] eqn:H. cbn [snd].
  assert (Hpost : preserves (quiet is_post)
                    (ensure_item_in_collection cfg item_key collection_key dry_run)).
  { unfold ensure_item_in_collection, quiet. adds. }
  assert (Hdry : dry_run = true ->
                 preserves (quiet is_put)
                   (ensure_item_in_collection cfg item_key collection_key dry_run)).
  { intros ->. unfold ensure_item_in_collection, quiet. adds. }
  assert (Hput : at_most_one is_put
                   (ensure_item_in_collection cfg item_key collection_key dry_run)).
  { unfold ensure_item_in_collection. repeat amo_step. }
  destruct (Hput _ _ _ H) as (evs & T & C).
  exists evs. split; [exact T|].
  destruct (Hpost _ _ _ H) as (evs1 & T1 & F1).
  rewrite T in T1. apply app_inv_head in T1. subst evs1.
  split.
  - apply count_quiet in F1. rewrite <- posted_count in F1. now destruct (posted evs).
  - split; [exact C|]. intro Hd.
    destruct (Hdry Hd _ _ _ H) as (evs2 & T2 & F2).
    rewrite T in T2. apply app_inv_head in T2. subst evs2.
    now apply count_quiet.
Qed.

(** X12. An item that lists the collection already is left alone: the only
    request is the GET that fetches it. *)
Theorem member_item_is_not_rewritten (item_key collection_key : pyval) (dry_run : bool)
  (r : Response) (rest : list reply) (body data : pydict) (cols : pyval) (w : World) :
  net w = Reply r :: rest ->
  status_code r = 200%Z ->
  resp_body r = Some (VDict body) ->
  dict_get_default body (lit "data") (VDict []) = VDict data ->
  dict_get_default data (lit "collections") (VList []) = cols ->
  truthy cols = true ->
  py_in collection_key cols = Ok true ->
  ensure_item_in_collection cfg item_key collection_key dry_run w =
  (Ok tt, mkWorld rest (ui w) (vault_file w) (local_file w)
                  (vault_writable w) (local_writable w) (sent_log w)
                  (trace w ++ [EGet (UItem item_key) []])).
Proof.
  intros Hnet Hst Hbody Hdata Hcols Htr Hin.
  unfold ensure_item_in_collection.
  unfold bind at 1. unfold requests_get, bind at 1, emit, next_reply. cbn [net].
  rewrite Hnet, Hst. cbn [Z.eqb Pos.eqb negb].
  unfold bind at 1. unfold lift at 1, resp_json. rewrite Hbody.
  unfold bind at 1. unfold lift at 1. cbn [as_dict].
  unfold bind at 1. unfold lift at 1. rewrite Hdata. cbn [as_dict].
  rewrite Hcols, Htr. unfold bind at 1. unfold lift at 1. rewrite Hin.
  reflexivity.
Qed.

End Membership.

Lemma member_item_is_not_rewritten_witness :
  ensure_item_in_collection cfg_live parent_key (VStr (lit "COLL0001")) false
    (world_of [Reply item_in_collection] empty_log true true) =
  (Ok tt, mkWorld [] UiSendNow Missing Missing true true empty_log
                  ([] ++ [EGet (UItem parent_key) []])).
Proof.
  eapply (@member_item_is_not_rewritten cfg_live parent_key (VStr (lit "COLL0001")) false
            item_in_collection []); reflexivity.
Defined.

(* ------------------------------------------------------------------ *)
(** ** Saving and loading the journal *)
(* ------------------------------------------------------------------ *)

Lemma setdefault_present d k v x :
  dict_lookup d k = Some x -> dict_setdefault d k v = d.
Proof. unfold dict_setdefault. now intros ->. Qed.

Lemma dict_merge_nil d : dict_merge d [] = d.
Proof. reflexivity. Qed.

(** X13. Saving and loading round-trip: a journal with its two fixed
    entries, saved to the vault while the fallback file holds no object, or
    saved to the fallback while the vault file holds none, is what the next
    load returns. *)
Theorem save_then_load (log : pydict) (w : World) :
  has_defaults log ->
  (vault_writable w = true /\ no_object (local_file w)) \/
  (vault_writable w = false /\ local_writable w = true /\
   (vault_file w = Missing \/ vault_file w = Garbled)) ->
  exists w1,
    save_sent_log log w = (Ok tt, w1) /\
    load_sent_log w1 = (Ok log, w1).
Proof.
  intros [[items Hi] [dl Hd]] Hcase. unfold save_sent_log.
  assert (Hset : dict_setdefault (dict_setdefault log (lit "_items") (VDict []))
                   (lit "_done_titles") (VList []) = log).
  { rewrite (@setdefault_present log (lit "_items") (VDict []) items Hi).
    exact (@setdefault_present log (lit "_done_titles") (VList []) dl Hd). }
  destruct Hcase as [[Hv Hl]|(Hv & Hl & Hf)]; rewrite Hv; [|rewrite Hl];
    eexists; (split; [reflexivity|]); unfold load_sent_log; cbn [vault_file local_file].
  - destruct (local_file w) as [| |fb]; try now rewrite Hset.
    destruct fb; try contradiction; cbn [merge_logs]; now rewrite Hset.
  - destruct Hf as [-> | ->]; cbn [merge_logs]; now rewrite dict_merge_nil, Hset.
Qed.

Lemma save_then_load_witness :
  exists w1,
    save_sent_log deep_work_log (world_of [] [] false true) = (Ok tt, w1) /\
    load_sent_log w1 = (Ok deep_work_log, w1).
Proof.
  apply save_then_load.
  - split; eexists; reflexivity.
  - right. repeat split. now left.
Defined.

Lemma dict_setdefault_keeps d k0 x k v :
  dict_lookup d k = Some v -> dict_lookup (dict_setdefault d k0 x) k = Some v.
Proof.
  intro H. unfold dict_setdefault.
  destruct (dict_lookup d k0) eqn:E; [exact H|].
  destruct (pystr_eq_dec k0 k) as [->|Hne]; [congruence|].
  now rewrite dict_lookup_set_other.
Qed.

(** X14. A journal saved to the fallback file does not win over an older
    vault file: for every key the old vault file holds, [_items] and
    [_done_titles] included, the next load returns the entry of the vault
    file, so what the fallback recorded for that key is not seen. *)
Theorem stale_vault_shadows_fallback (log old : pydict) (k : pystr) (v : pyval) (w : World) :
  vault_writable w = false ->
  local_writable w = true ->
  vault_file w = Stored (VDict old) ->
  NoDup (map fst old) ->
  dict_lookup old k = Some v ->
  exists w1 loaded,
    save_sent_log log w = (Ok tt, w1) /\
    load_sent_log w1 = (Ok loaded, w1) /\
    dict_lookup loaded k = Some v.
Proof.
  intros Hv Hl Hf Hnd Hk. unfold save_sent_log. rewrite Hv, Hl.
  eexists. eexists. split; [reflexivity|].
  unfold load_sent_log. cbn [vault_file local_file]. rewrite Hf. cbn [merge_logs].
  split; [reflexivity|].
  apply dict_setdefault_keeps, dict_setdefault_keeps.
  rewrite dict_lookup_merge by assumption. now rewrite Hk.
Qed.

Lemma stale_vault_shadows_fallback_witness :
  exists w1 loaded,
    save_sent_log deep_work_log
      (mkWorld [] UiSendNow (Stored (VDict stale_log)) Missing false true [] [])
    = (Ok tt, w1) /\
    load_sent_log w1 = (Ok loaded, w1) /\
    dict_lookup loaded (lit "_done_titles") = Some (VList []).
Proof.
  apply (@stale_vault_shadows_fallback deep_work_log stale_log (lit "_done_titles") (VList [])
           (mkWorld [] UiSendNow (Stored (VDict stale_log)) Missing false true [] []));
    try reflexivity.
  repeat constructor; simpl; intuition discriminate.
Defined.

(* ------------------------------------------------------------------ *)
(** ** Whole runs *)
(* ------------------------------------------------------------------ *)

Section Runs.

Variable lower : pystr -> pystr.
Variable to_int : pystr -> option Z.
Variable cfg : Config.

(** X15. A live run that is not confirmed, because the alert is cancelled
    or cannot be shown, exits before anything else happens: no request is
    sent, the journal files and the answers to come are untouched. *)
Theorem unconfirmed_live_run_sends_nothing (docs : list Document) (w : World) :
  DRY_RUN cfg = false ->
  ui w <> UiSendNow ->
  exists w' evs,
    main lower to_int cfg docs w = (Raise SystemExit, w') /\
    net w' = net w /\ vault_file w' = vault_file w /\ local_file w' = local_file w /\
    trace w' = trace w ++ evs /\ forallb offline evs = true.
Proof.
  intros Hlive Hui. unfold main. rewrite Hlive. cbn [negb].
  unfold bind at 1. unfold print at 1, emit at 1.
  unfold bind at 1. unfold confirm_live_or_abort. cbn [ui].
  destruct (ui w); [contradiction| |];
    unfold bind, print, emit, raise; cbn [trace net vault_file local_file];
    eexists _, _; rewrite <- !app_assoc; repeat split; reflexivity.
Qed.

(** X16. With no note file at all the run exits before the collection is
    looked up and before the journal is read: in either mode nothing is sent
    and nothing is written. *)
Theorem empty_vault_sends_nothing (w : World) :
  exists w' evs,
    main lower to_int cfg [] w = (Raise SystemExit, w') /\
    net w' = net w /\ vault_file w' = vault_file w /\ local_file w' = local_file w /\
    trace w' = trace w ++ evs /\ forallb offline evs = true.
Proof.
  unfold main.
  unfold bind at 1. unfold print at 1, emit at 1.
  destruct (DRY_RUN cfg); cbn [negb].
  - unfold bind, print, emit, raise, ret; cbn [trace net vault_file local_file].
    eexists _, _; rewrite <- !app_assoc; repeat split; reflexivity.
  - unfold bind at 1. unfold confirm_live_or_abort. cbn [ui].
    destruct (ui w);
      unfold bind, print, emit, raise; cbn [trace net vault_file local_file];
      eexists _, _; rewrite <- !app_assoc; repeat split; reflexivity.
Qed.

(** X17. Documents without a title or rejected by the title filter cost
    nothing: a loop over such documents sends nothing, leaves the world as it
    is and counts none of them as matched or processed. *)
Theorem passed_over_documents_cost_nothing (collection_key : pyval)
  (docs : list Document) (st : Locals) (w : World) :
  Forall (passed_over lower cfg) docs ->
  main_loop lower to_int cfg collection_key docs st w = (Ok st, w).
Proof.
  induction 1 as [|doc docs Hdoc Hrest IH]; [reflexivity|].
  cbn [main_loop]. unfold bind, process_doc.
  unfold passed_over in Hdoc.
  destruct (d_title doc) as [[|c s]|]; cbn [ret]; try exact IH.
  rewrite Hdoc. cbn [negb ret]. exact IH.
Qed.

Lemma process_children_counters title item_key hs st w st' w' :
  process_children lower cfg title item_key hs st w = (Ok st', w') ->
  processed st' = processed st /\ matched st' = matched st.
Proof.
  unfold process_children. intro H.
  apply bind_ok_inv in H as (log0 & w1 & _ & H).
  apply bind_ok_inv in H as ([] & w2 & _ & H).
  apply bind_ok_inv in H as (log1 & w3 & _ & H).
  apply bind_ok_inv in H as (entry & w4 & _ & H).
  apply bind_ok_inv in H as (already & w5 & _ & H).
  apply bind_ok_inv in H as (cc & w6 & _ & H).
  destruct (negb (DRY_RUN cfg)); [|injection H as <- _; auto].
  apply bind_ok_inv in H as ([] & w7 & _ & H).
  apply bind_ok_inv in H as (st1 & w8 & H8 & H).
  apply bind_ok_inv in H as (log2 & w9 & _ & H).
  apply bind_ok_inv in H as ([] & w10 & _ & H).
  injection H as <- _.
  destruct (negb (set_mem _ _)).
  - apply bind_ok_inv in H8 as ([] & w11 & _ & H8). injection H8 as <- _. auto.
  - injection H8 as <- _. auto.
Qed.

(** What the body of the loop does to the count of processed documents. *)
Lemma process_doc_counters collection_key doc st w ex ctl st' w' :
  process_doc lower to_int cfg collection_key doc st w = (Ok (ex, ctl, st'), w') ->
  (ctl = Continue /\ processed st' = processed st) \/
  (processed st' = processed st + 1 /\
   (ctl = Break -> BATCH_LIMIT cfg <= processed st') /\
   (ctl = Continue -> BATCH_LIMIT cfg = 0 \/ processed st' < BATCH_LIMIT cfg))%Z.
Proof.
  unfold process_doc. intro H.
  destruct (d_title doc) as [[|c s]|]; try (injection H as _ <- <- _; now left).
  destruct (negb (title_matches_filters _ _ _)); [injection H as _ <- <- _; now left|].
  cbn [done_set processed matched] in H.
  destruct (RESUME_ENABLED cfg && negb (DRY_RUN cfg) && set_mem _ _).
  - apply bind_ok_inv in H as ([] & w1 & _ & H). injection H as _ <- <- _. now left.
  - apply bind_ok_inv in H as ([] & w1 & _ & H).
    apply bind_ok_inv in H as (key & w2 & _ & H).
    destruct (truthy key).
    + apply bind_ok_inv in H as ([] & w3 & _ & H).
      apply bind_ok_inv in H as (st2 & w4 & H4 & H).
      apply process_children_counters in H4 as [Hp Hm]. cbn [processed] in Hp.
      cbn [processed] in H.
      destruct (negb (Z.eqb (BATCH_LIMIT cfg) 0)) eqn:E0;
        [destruct (Z.leb (BATCH_LIMIT cfg) (processed st2 + 1)) eqn:E1|];
        cbn [andb] in H.
      * apply bind_ok_inv in H as ([] & w5 & _ & H). injection H as _ <- <- _.
        right. cbn [processed]. apply Z.leb_le in E1.
        repeat split; [lia | intros _; lia | discriminate].
      * injection H as _ <- <- _. right. cbn [processed]. apply Z.leb_gt in E1.
        repeat split; [lia | discriminate | intros _; right; lia].
      * injection H as _ <- <- _. right. cbn [processed].
        apply negb_false_iff, Z.eqb_eq in E0.
        repeat split; [lia | discriminate | intros _; now left].
    + apply bind_ok_inv in H as ([] & w3 & _ & H). injection H as _ <- <- _. now left.
Qed.

(** X18. The batch limit holds: with a positive [BATCH_LIMIT], a loop
    started below the limit never counts more processed documents than the
    limit, whatever the documents and the answers of the store. *)
Theorem batch_limit_is_respected (collection_key : pyval) (docs : list Document)
  (st : Locals) (w : World) (st' : Locals) (w' : World) :
  (0 < BATCH_LIMIT cfg)%Z ->
  (processed st < BATCH_LIMIT cfg)%Z ->
  main_loop lower to_int cfg collection_key docs st w = (Ok st', w') ->
  (processed st' <= BATCH_LIMIT cfg)%Z.
Proof.
  intro Hpos. revert st w.
  induction docs as [|doc docs IH]; intros st w Hlt H; cbn [main_loop] in H.
  - injection H as <- _. lia.
  - apply bind_ok_inv in H as ([[ex ctl] st1] & w1 & H1 & H).
    apply process_doc_counters in H1 as [[-> Hp]|(Hp & Hb & Hc)].
    + apply IH in H; [exact H | lia].
    + destruct ctl.
      * destruct (Hc eq_refl) as [H0|Hlt1]; [lia|]. apply IH in H; [exact H | exact Hlt1].
      * injection H as <- _. lia.
Qed.

End Runs.

Lemma unconfirmed_live_run_sends_nothing_witness :
  exists w' evs,
    main ascii_lower ascii_int cfg_live [deep_work_doc]
      (mkWorld [Reply books_listing] UiCancel Missing Missing true true [] [])
    = (Raise SystemExit, w') /\
    net w' = [Reply books_listing] /\ vault_file w' = Missing /\ local_file w' = Missing /\
    trace w' = [] ++ evs /\ forallb offline evs = true.
Proof.
  apply (@unconfirmed_live_run_sends_nothing ascii_lower ascii_int cfg_live [deep_work_doc]
           (mkWorld [Reply books_listing] UiCancel Missing Missing true true [] []));
    [reflexivity | discriminate].
Defined.

Lemma passed_over_documents_cost_nothing_witness :
  main_loop ascii_lower ascii_int (mkConfig false true [lit "deep"] 0 (lit "Books")) VNone
    [mkDocument (Some (lit "Atomic Habits")) None [focus]; mkDocument None None []]
    no_locals (world_of [] empty_log true true)
  = (Ok no_locals, world_of [] empty_log true true).
Proof.
  apply passed_over_documents_cost_nothing.
  repeat constructor.
Defined.

Lemma batch_limit_is_respected_witness :
  (processed (mkLocals [VStr (lit "deep work")] 1 1) <= BATCH_LIMIT cfg_one)%Z.
Proof.
  apply (@batch_limit_is_respected ascii_lower ascii_int cfg_one VNone deep_work_twice
           deep_work_done (world_of [] deep_work_log true true)
           (mkLocals [VStr (lit "deep work")] 1 1)
           (snd (main_loop ascii_lower ascii_int cfg_one VNone deep_work_twice deep_work_done
                   (world_of [] deep_work_log true true))));
    [reflexivity | reflexivity |].
  vm_compute. reflexivity.
Defined.

(* ------------------------------------------------------------------ *)
(** ** Sending a document twice *)
(* ------------------------------------------------------------------ *)

Lemma save_keeps log w res w' :
  save_sent_log log w = (res, w') -> net w' = net w /\ sent_log w' = sent_log w.
Proof.
  unfold save_sent_log.
  destruct (vault_writable w); [|destruct (local_writable w)];
    intro H; injection H as _ <-; auto.
Qed.

Lemma set_mem_app s l m : set_mem s (l ++ m) = set_mem s l || set_mem s m.
Proof. unfold set_mem. apply existsb_app. Qed.

Lemma filter_none {A} (f : A -> bool) l :
  (forall x, In x l -> f x = false) -> filter f l = [].
Proof.
  induction l as [|x l IH]; intro H; [reflexivity|].
  simpl. rewrite (H x (or_introl eq_refl)). apply IH. intros y Hy. apply H. now right.
Qed.

Lemma unsent_after_sending l hs :
  unsent (l ++ map (fun h => VStr (highlight_hash h)) (unsent l hs)) hs = [].
Proof.
  unfold unsent at 1. apply filter_none. intros h Hin.
  apply negb_false_iff. rewrite set_mem_app.
  destruct (set_mem (highlight_hash h) l) eqn:E; [reflexivity|].
  apply set_mem_In. apply in_map_iff. exists h. split; [reflexivity|].
  unfold unsent. apply filter_In. split; [exact Hin | now rewrite E].
Qed.

Lemma hashable_after_sending l (new : list Highlight) :
  forallb hashable l = true ->
  forallb hashable (l ++ map (fun h => VStr (highlight_hash h)) new) = true.
Proof.
  intro H. rewrite forallb_app, H. simpl.
  induction new as [|h new IH]; [reflexivity | exact IH].
Qed.

Lemma done_titles_kept_after_done log norm_t st dl :
  dict_lookup log (lit "_done_titles") = Some (VList dl) ->
  exists dl', dict_lookup (log_after_done log norm_t st) (lit "_done_titles")
              = Some (VList dl').
Proof.
  intro H. unfold log_after_done.
  destruct (set_mem norm_t (done_set st)); [eauto|].
  rewrite H. rewrite dict_lookup_set_same. eauto.
Qed.

(** X19. Sending is idempotent on the journal: once the notes of a document
    have been sent in live mode, processing the same highlights again from
    the journal that run left sends no note at all and consumes no answer of
    the store, even with resume switched off. *)
Theorem second_pass_sends_nothing
  (lower : pystr -> pystr) (cfg : Config) (title : pystr) (item_key : pyval)
  (hs : list Highlight) (st st1 st2 : Locals) (rs : list Response) (rest : list reply)
  (l : list pyval) (w w1 : World) :
  DRY_RUN cfg = false ->
  title <> lit "_done_titles" ->
  journal_entry (sent_log w) title l ->
  forallb hashable l = true ->
  List.length rs = List.length (unsent l hs) ->
  net w = map Reply rs ++ rest ->
  (exists dl, dict_lookup (sent_log w) (lit "_done_titles") = Some (VList dl)) ->
  process_children lower cfg title item_key hs st w = (Ok st1, w1) ->
  exists res w2 evs,
    process_children lower cfg title item_key hs st2 w1 = (res, w2) /\
    trace w2 = trace w1 ++ evs /\
    posted evs = [] /\
    net w2 = net w1.
Proof.
  intros live Hne Hentry Hhash Hlen Hnet [dl Hdone] H1.
  rewrite process_children_live with (rs := rs) (rest := rest) (l := l) in H1;
    try assumption; [|eauto].
  apply bind_ok_inv in H1 as ([] & w1' & Hsave & Hret). injection Hret as _ <-.
  apply save_keeps in Hsave as [Hn1 Hl1]. cbn [net sent_log] in Hn1, Hl1.
  set (new := unsent l hs) in *.
  set (l1 := l ++ map (fun h => VStr (highlight_hash h)) new).
  assert (Hentry1 : journal_entry (sent_log w1') title l1).
  { right. rewrite Hl1, lookup_log_after_done by exact Hne.
    apply lookup_log_after_children. }
  assert (Hdone1 : exists dl1,
             dict_lookup (sent_log w1') (lit "_done_titles") = Some (VList dl1)).
  { rewrite Hl1.
    destruct (@done_titles_after_children _ _ _ new _ Hdone Hentry) as (dl2 & Hd2 & _).
    eapply done_titles_kept_after_done. exact Hd2. }
  assert (Hu : unsent l1 hs = []) by apply unsent_after_sending.
  rewrite process_children_live with (rs := []) (rest := net w1') (l := l1);
    try assumption;
    [| now apply hashable_after_sending | now rewrite Hu | reflexivity].
  unfold bind.
  match goal with |- context [save_sent_log ?lg ?w3] =>
    destruct (save_sent_log_trace lg w3) as (sevs & Htr & Hp);
    pose proof (@save_keeps lg w3) as Hk;
    destruct (save_sent_log lg w3) as [[[]|e] w4] eqn:E
  end; cbn [snd trace] in Htr;
    destruct (Hk _ _ eq_refl) as [Hn4 _]; cbn [net] in Hn4.
  - exists (Ok (locals_after_done (normalize_title lower title) st2)), w4,
           ((loop_events item_key l1 hs []
             ++ [EPrint (MNewNotes (Z.of_nat (@List.length Response [])))]) ++ sevs).
    split; [reflexivity|]. split; [now rewrite Htr, <- !app_assoc|].
    split; [|exact Hn4].
    rewrite !posted_app, Hp, posted_loop_events by now rewrite Hu.
    now rewrite Hu.
  - exists (Raise e), w4,
           ((loop_events item_key l1 hs []
             ++ [EPrint (MNewNotes (Z.of_nat (@List.length Response [])))]) ++ sevs).
    split; [reflexivity|]. split; [now rewrite Htr, <- !app_assoc|].
    split; [|exact Hn4].
    rewrite !posted_app, Hp, posted_loop_events by now rewrite Hu.
    now rewrite Hu.
Qed.

Lemma second_pass_sends_nothing_witness :
  exists res w2 evs,
    process_children ascii_lower cfg_live deep_work parent_key [focus; focus] no_locals
      (snd (process_children ascii_lower cfg_live deep_work parent_key [focus; focus]
              no_locals
              (world_of [Reply (status_only 200); Reply (status_only 200)]
                        empty_log true true)))
    = (res, w2) /\
    trace w2 =
      trace (snd (process_children ascii_lower cfg_live deep_work parent_key [focus; focus]
                    no_locals
                    (world_of [Reply (status_only 200); Reply (status_only 200)]
                              empty_log true true))) ++ evs /\
    posted evs = [] /\
    net w2 =
      net (snd (process_children ascii_lower cfg_live deep_work parent_key [focus; focus]
                  no_locals
                  (world_of [Reply (status_only 200); Reply (status_only 200)]
                            empty_log true true))).
Proof.
  apply (@second_pass_sends_nothing ascii_lower cfg_live deep_work parent_key
           [focus; focus] no_locals
           (mkLocals [VStr (lit "deep work")] 0 0) no_locals
           [status_only 200; status_only 200] [] []
           (world_of [Reply (status_only 200); Reply (status_only 200)] empty_log true true)).
  - reflexivity.
  - discriminate.
  - left. split; reflexivity.
  - reflexivity.
  - reflexivity.
  - reflexivity.
  - eexists. reflexivity.
  - vm_compute. reflexivity.
Defined.

(* ------------------------------------------------------------------ *)
(** ** The journal only grows *)
(* ------------------------------------------------------------------ *)

Lemma grows_refl log : grows log log.
Proof. intros k l _ H. exists []. now rewrite app_nil_r. Qed.

Lemma grows_trans a b c : grows a b -> grows b c -> grows a c.
Proof.
  intros H1 H2 k l Hk Hl. destruct (H1 k l Hk Hl) as (l1 & Hb).
  destruct (H2 k _ Hk Hb) as (l2 & Hc). exists (l1 ++ l2). now rewrite app_assoc.
Qed.

Lemma kept_refl w : journal_kept w w.
Proof. apply grows_refl. Qed.

Lemma kept_trans a b c : journal_kept a b -> journal_kept b c -> journal_kept a c.
Proof. apply grows_trans. Qed.

Lemma kept_bind {A B} (m : M A) (f : A -> M B) :
  preserves journal_kept m -> (forall a, preserves journal_kept (f a)) ->
  preserves journal_kept (bind m f).
Proof. apply preserves_bind, kept_trans. Qed.

Lemma kept_emit e : preserves journal_kept (emit e).
Proof. intros w res w' H. injection H as _ <-. apply grows_refl. Qed.

Lemma kept_next_reply : preserves journal_kept next_reply.
Proof.
  intros w res w'. unfold next_reply.
  destruct (net w) as [|[r|] rest]; intro H; injection H as _ <-; apply grows_refl.
Qed.

Lemma kept_save log : preserves journal_kept (save_sent_log log).
Proof.
  intros w res w' H. apply save_keeps in H as [_ H]. unfold journal_kept.
  rewrite H. apply grows_refl.
Qed.

Lemma kept_cache_item k v : preserves journal_kept (cache_item k v).
Proof.
  intros w res w'. unfold cache_item, bind, get_log.
  destruct (dict_lookup (sent_log w) (lit "_items")) as [[| | | | |items]|];
    intro H; injection H as _ <-; try apply kept_refl.
  intros k' l Hk' Hl. exists []. cbn [sent_log].
  rewrite app_nil_r, dict_lookup_set_other by congruence. exact Hl.
Qed.

Lemma kept_log_append k s : preserves journal_kept (log_append k s).
Proof.
  intros w res w'. unfold log_append, bind, get_log.
  destruct (dict_lookup (sent_log w) k) as [[| | | |l0|]|] eqn:E;
    intro H; injection H as _ <-; try apply kept_refl.
  intros k' l Hk' Hl. cbn [sent_log].
  destruct (pystr_eq_dec k k') as [<-|Hne].
  - rewrite dict_lookup_set_same. rewrite E in Hl. injection Hl as <-. eauto.
  - exists []. rewrite app_nil_r, dict_lookup_set_other by exact Hne. exact Hl.
Qed.

Lemma grows_setdefault log title : grows log (dict_setdefault log title (VList [])).
Proof.
  intros k l Hk Hl. exists []. rewrite app_nil_r. unfold dict_setdefault.
  destruct (dict_lookup log title) eqn:E; [exact Hl|].
  rewrite dict_lookup_set_other; [exact Hl | congruence].
Qed.

(** One step of a proof that a computation keeps what the journal holds. *)
Ltac kept_step :=
  match goal with
  | |- preserves journal_kept (bind _ _) => apply kept_bind; [|intro]
  | |- preserves journal_kept (ret _) => apply preserves_ret, kept_refl
  | |- preserves journal_kept (raise _) => apply preserves_raise, kept_refl
  | |- preserves journal_kept (lift _) => apply preserves_lift, kept_refl
  | |- preserves journal_kept get_log => apply preserves_get_log, kept_refl
  | |- preserves journal_kept next_reply => apply kept_next_reply
  | |- preserves journal_kept (emit _) => apply kept_emit
  | |- preserves journal_kept (print _) => apply kept_emit
  | |- preserves journal_kept (sleep _) => apply kept_emit
  | |- preserves journal_kept (save_sent_log _) => apply kept_save
  | |- preserves journal_kept (cache_item _ _) => apply kept_cache_item
  | |- preserves journal_kept (log_append _ _) => apply kept_log_append
  | |- preserves journal_kept (requests_get _ _) => unfold requests_get
  | |- preserves journal_kept (session_post _ _) => unfold session_post
  | |- preserves journal_kept (session_put _ _ _) => unfold session_put
  | |- preserves journal_kept (safe_post _ _ _) => unfold safe_post
  | |- preserves journal_kept (safe_put _ _ _ _) => unfold safe_put
  | |- preserves journal_kept (let _ := _ in _) => cbv zeta
  | |- preserves journal_kept (if ?b then _ else _) => destruct b
  | |- preserves journal_kept (match ?x with _ => _ end) => destruct x
  end.

Ltac kept := repeat kept_step.

Section Growing.

Variable lower : pystr -> pystr.
Variable to_int : pystr -> option Z.
Variable cfg : Config.

Lemma kept_match_listing r title author :
  preserves journal_kept (match_listing lower r title author).
Proof. unfold match_listing. kept. Qed.

Lemma kept_search title author :
  preserves journal_kept (search_item_by_title lower title author).
Proof.
  unfold search_item_by_title.
  do 2 (apply kept_bind; [kept | intro]).
  destruct (truthy _); [kept|].
  apply kept_bind; [kept | intro].
  destruct (negb _); [kept | apply kept_match_listing].
Qed.

Lemma kept_recover attempts title author lmv :
  preserves journal_kept (recover_key lower to_int attempts title author lmv).
Proof.
  induction attempts as [|a rest IH]; cbn [recover_key]; [kept|].
  apply kept_bind; [kept | intro].
  apply kept_bind; [|intro key; destruct (truthy key); [kept | exact IH]].
  unfold fetch_recent_and_match.
  apply kept_bind; [kept | intro].
  destruct (negb _); [kept | apply kept_match_listing].
Qed.

Lemma kept_find_or_create title author collection_key dry_run :
  preserves journal_kept
    (find_or_create_book_item lower to_int cfg title author collection_key dry_run).
Proof.
  unfold find_or_create_book_item.
  apply kept_bind; [apply kept_search | intro key].
  destruct (truthy key); [kept|].
  destruct dry_run; [kept|].
  apply kept_bind; [kept | intro r].
  apply kept_bind; [kept | intro].
  destruct (negb _); [kept|].
  apply kept_bind; [kept | intro ck].
  destruct (truthy ck); [kept | apply kept_recover].
Qed.

Lemma kept_ensure item_key collection_key dry_run :
  preserves journal_kept (ensure_item_in_collection cfg item_key collection_key dry_run).
Proof. unfold ensure_item_in_collection. kept. Qed.

Lemma kept_highlights_loop title item_key already hs :
  forall cc, preserves journal_kept (highlights_loop cfg title item_key already hs cc).
Proof.
  induction hs as [|h hs IH]; intro cc; cbn [highlights_loop]; [kept|].
  destruct (set_mem _ _).
  - apply kept_bind; [kept | intro; apply IH].
  - apply kept_bind; [unfold create_note_for_item; kept | intro].
    destruct (negb _); [|apply IH].
    apply kept_bind; [kept | intro; apply IH].
Qed.

Lemma kept_process_children title item_key hs st :
  preserves journal_kept (process_children lower cfg title item_key hs st).
Proof.
  unfold process_children.
  intros w res w'. unfold bind at 1. unfold get_log at 1.
  unfold bind at 1. unfold put_log at 1.
  intro H.
  match type of H with ?m ?w1 = _ =>
    assert (P : preserves journal_kept m);
    [| apply kept_trans with (b := w1); [| eapply P; exact H]]
  end.
  - do 3 (apply kept_bind; [kept | intro]).
    apply kept_bind; [apply kept_highlights_loop | intro]. kept.
  - unfold journal_kept. cbn [sent_log]. apply grows_setdefault.
Qed.

Lemma kept_process_doc collection_key doc st :
  preserves journal_kept (process_doc lower to_int cfg collection_key doc st).
Proof.
  unfold process_doc.
  destruct (d_title doc) as [[|c s]|]; [kept| |kept].
  destruct (negb _); [kept|].
  cbv zeta.
  destruct (RESUME_ENABLED cfg && negb (DRY_RUN cfg) && set_mem _ _); [kept|].
  apply kept_bind; [kept | intro].
  apply kept_bind; [apply kept_find_or_create | intro key].
  destruct (truthy key); [|kept].
  apply kept_bind.
  - destruct (truthy collection_key && negb (DRY_RUN cfg)); [apply kept_ensure | kept].
  - intro. apply kept_bind; [apply kept_process_children | intro]. kept.
Qed.

Lemma main_loop_grows (collection_key : pyval) (docs : list Document)
  (st : Locals) (w : World) (res : exc Locals) (w' : World) :
  main_loop lower to_int cfg collection_key docs st w = (res, w') ->
  grows (sent_log w) (sent_log w').
Proof.
  revert st w. induction docs as [|doc docs IH]; intros st w H; cbn [main_loop] in H.
  - injection H as _ <-. apply grows_refl.
  - apply bind_inv in H as [([[ex ctl] st1] & w1 & H1 & H2)|(e & H1 & _)].
    + apply kept_process_doc in H1. unfold journal_kept in H1.
      assert (Hrest : grows (sent_log w1) (sent_log w')).
      { destruct ctl; [exact (IH _ _ H2) | injection H2 as _ <-; apply grows_refl]. }
      eapply grows_trans; [exact H1 | exact Hrest].
    + exact (@kept_process_doc _ _ _ _ _ _ H1).
Qed.

(** X20. A run never drops what the journal holds: through the main loop,
    in either mode and whatever the store answers, every list stored under a
    key other than [_items] (the done titles and the fingerprints sent for
    each title) is still there afterwards, at most extended at its end. *)
Theorem journal_only_grows (collection_key : pyval) (docs : list Document)
  (st : Locals) (w : World) (k : pystr) (l : list pyval) :
  k <> lit "_items" ->
  dict_lookup (sent_log w) k = Some (VList l) ->
  exists l',
    dict_lookup (sent_log (snd (main_loop lower to_int cfg collection_key docs st w))) k
    = Some (VList (l ++ l')).
Proof.
  destruct (main_loop lower to_int cfg collection_key docs st w) as [res w'] eqn:H.
  cbn [snd]. pose proof (main_loop_grows _ _ _ _ H) as G. exact (G k l).
Qed.

End Growing.

Lemma journal_only_grows_witness :
  exists l',
    dict_lookup
      (sent_log (snd (main_loop ascii_lower ascii_int cfg_live VNone [deep_work_doc] no_locals
                        (world_of [Reply empty_listing; Reply created_with_key;
                                   Reply (status_only 200)] stale_log true true))))
      deep_work
    = Some (VList ([] ++ l')).
Proof.
  apply (@journal_only_grows ascii_lower ascii_int cfg_live VNone [deep_work_doc] no_locals
           (world_of [Reply empty_listing; Reply created_with_key; Reply (status_only 200)]
                     stale_log true true) deep_work []);
    [discriminate | reflexivity].
Defined.

(* ------------------------------------------------------------------ *)
(** ** More of the resolver and of the journal *)
(* ------------------------------------------------------------------ *)

Lemma val_is_str_eq s v : val_is_str s v = true -> v = VStr s.
Proof.
  destruct v; try discriminate. simpl. intro H. apply str_eqb_eq in H. now subst.
Qed.

(** X22. The collection look-up is sound: a key it returns is the key of a
    collection of the listing whose name is exactly the name asked for. *)
Theorem collection_loop_sound (name : pystr) (colls : list pyval) (key : pyval) :
  collection_loop name colls = Ok (Some key) ->
  exists coll cd dd,
    In coll colls /\
    as_dict coll = Ok cd /\
    as_dict (dict_get_default cd (lit "data") (VDict [])) = Ok dd /\
    dict_get dd (lit "name") = VStr name /\
    key = dict_get cd (lit "key").
Proof.
  induction colls as [|coll rest IH]; [discriminate|].
  cbn [collection_loop]. intro H.
  destruct (as_dict coll) as [cd|e] eqn:Ec; cbn [exc_bind] in H; [|discriminate].
  destruct (as_dict (dict_get_default cd (lit "data") (VDict []))) as [dd|e] eqn:Ed;
    cbn [exc_bind] in H; [|discriminate].
  destruct (val_is_str name (dict_get dd (lit "name"))) eqn:En.
  - injection H as <-. exists coll, cd, dd.
    repeat split; auto. now left. now apply val_is_str_eq.
  - destruct (IH H) as (c0 & cd0 & dd0 & Hin & Hrest).
    exists c0, cd0, dd0. split; [now right | exact Hrest].
Qed.

Lemma collection_loop_sound_witness :
  exists coll cd dd,
    In coll [VDict [(lit "key", VStr (lit "COLL0001"));
                    (lit "data", VDict [(lit "name", VStr (lit "Books"))])]] /\
    as_dict coll = Ok cd /\
    as_dict (dict_get_default cd (lit "data") (VDict [])) = Ok dd /\
    dict_get dd (lit "name") = VStr (lit "Books") /\
    VStr (lit "COLL0001") = dict_get cd (lit "key").
Proof.
  apply (@collection_loop_sound (lit "Books")
           [VDict [(lit "key", VStr (lit "COLL0001"));
                   (lit "data", VDict [(lit "name", VStr (lit "Books"))])]]
           (VStr (lit "COLL0001"))).
  reflexivity.
Defined.

(** X23. A create call answered with a failure status is given up at once:
    the resolver reports the status and returns [None] without any recovery
    listing or second create call, and the journal is as before. *)
Theorem failed_creation_gives_up
  (lower : pystr -> pystr) (to_int : pystr -> option Z)
  (cfg : Config) (title : pystr) (author : option pystr)
  (collection_key : pyval) (searched created : Response) (rest : list reply)
  (k0 : pyval) (w : World) :
  DRY_RUN cfg = false ->
  cached_key (sent_log w) (normalize_title lower title) = Ok k0 ->
  truthy k0 = false ->
  net w = Reply searched :: Reply created :: rest ->
  listing_matches lower title author searched = Ok None ->
  ok_created (status_code created) = false ->
  find_or_create_book_item lower to_int cfg title author collection_key false w =
  (Ok VNone,
   mkWorld rest (ui w) (vault_file w) (local_file w)
           (vault_writable w) (local_writable w) (sent_log w)
           (trace w ++
            [EGet UItems (search_params title);
             EPost UItems (book_payload title author collection_key);
             EPrint (MDebugCreated created);
             EPrint (MCreateBookFailed (status_code created))])).
Proof.
  intros Hlive Hc Hk Hnet Hs Hfail.
  unfold find_or_create_book_item. unfold bind at 1.
  rewrite search_miss with (k := k0) (r := searched) (rest := Reply created :: rest)
    by assumption.
  cbn [truthy]. unfold bind at 1. unfold safe_post. rewrite Hlive.
  unfold session_post, bind at 1, emit at 1, next_reply.
  cbn [net trace ui vault_file local_file vault_writable local_writable sent_log].
  unfold bind at 1. unfold print at 1, emit at 1.
  rewrite Hfail. cbn [negb]. unfold bind, print, emit, ret.
  cbn [net trace ui vault_file local_file vault_writable local_writable sent_log].
  rewrite <- !app_assoc. reflexivity.
Qed.

Lemma failed_creation_gives_up_witness :
  find_or_create_book_item ascii_lower ascii_int cfg_live deep_work (Some cal_newport) VNone false
    (world_of [Reply empty_listing; Reply (status_only 403)] empty_log true true) =
  (Ok VNone,
   mkWorld [] UiSendNow Missing Missing true true empty_log
     ([] ++
      [EGet UItems (search_params deep_work);
       EPost UItems (book_payload deep_work (Some cal_newport) VNone);
       EPrint (MDebugCreated (status_only 403));
       EPrint (MCreateBookFailed 403)])).
Proof.
  apply (@failed_creation_gives_up ascii_lower ascii_int cfg_live deep_work (Some cal_newport) VNone
           empty_listing (status_only 403) [] VNone
           (world_of [Reply empty_listing; Reply (status_only 403)] empty_log true true));
    reflexivity.
Defined.

(** X24. Loading the journal is total whenever the vault file is missing,
    unreadable or holds a JSON object, whatever the fallback file holds; the
    journal returned always has its [_items] and [_done_titles] entries. *)
Theorem journal_loads_with_defaults (w : World) :
  (forall v, vault_file w = Stored v -> exists d, v = VDict d) ->
  exists log, load_sent_log w = (Ok log, w) /\ has_defaults log.
Proof. intro H. destruct (load_sent_log_total w H) as (log & Hl & Hd). eauto. Qed.

Lemma journal_loads_with_defaults_witness :
  exists log,
    load_sent_log (mkWorld [] UiSendNow Garbled (Stored (VList [])) true true [] [])
    = (Ok log, mkWorld [] UiSendNow Garbled (Stored (VList [])) true true [] []) /\
    has_defaults log.
Proof.
  apply journal_loads_with_defaults. intros v H. discriminate.
Defined.

(** X25. A live run with resume enabled over documents that are all done
    already sends nothing: the loop prints one skip line per document, counts
    each as matched, and leaves the answers to come and the journal alone. *)
Theorem resumed_run_sends_nothing
  (lower : pystr -> pystr) (to_int : pystr -> option Z)
  (cfg : Config) (collection_key : pyval)
  (docs : list Document) (st : Locals) (w : World) :
  DRY_RUN cfg = false ->
  RESUME_ENABLED cfg = true ->
  Forall (already_done lower cfg (done_set st)) docs ->
  main_loop lower to_int cfg collection_key docs st w =
  (Ok (mkLocals (done_set st) (processed st) (matched st + Z.of_nat (List.length docs))),
   mkWorld (net w) (ui w) (vault_file w) (local_file w)
           (vault_writable w) (local_writable w) (sent_log w)
           (trace w ++ map skip_line docs)).
Proof. intros Hlive Hres Hall. now apply main_loop_all_done. Qed.

Lemma resumed_run_sends_nothing_witness :
  main_loop ascii_lower ascii_int cfg_live VNone [deep_work_doc; deep_work_doc] deep_work_done
    (world_of [Reply books_listing] deep_work_log true true) =
  (Ok (mkLocals [VStr (lit "deep work")] 0 (0 + Z.of_nat 2)),
   mkWorld [Reply books_listing] UiSendNow Missing Missing true true deep_work_log
           ([] ++ map skip_line [deep_work_doc; deep_work_doc])).
Proof.
  apply (@resumed_run_sends_nothing ascii_lower ascii_int cfg_live VNone
           [deep_work_doc; deep_work_doc] deep_work_done
           (world_of [Reply books_listing] deep_work_log true true));
    try reflexivity.
  repeat constructor; exists 68%N, (lit "eep Work"); repeat split; reflexivity.
Defined.


